(** * Vitess vtgate: the evaluation engine's arithmetic and the Route primitive

    A shallow embedding of [go/vt/vtgate/evalengine/arithmetic.go] and of the
    blocking execution path of [go/vt/vtgate/engine/route.go], followed by the
    properties of the specification that concern them.

    Conventions.
    - A Go [uint64] or [int64] is a [Z]; the wrap-around of the machine
      operations is written out with [Go.uint64] and [Go.int64].
    - A Go [float64] is a [spec_float] at precision 53 and maximal exponent
      1024 (IEEE-754 binary64); NaN payloads are not distinguished.
    - A Go [string] or [[]byte] is a [string] (a list of 8-bit characters).
    - A Go function returning [(T, error)] with the zero value of [T] on every
      error return is a [res T]; the public functions that return
      [(sqltypes.Value, error)] keep the pair.
    - An error message is kept as its format string; the operands that Go
      substitutes into it are not. *)

From Stdlib Require Import ZArith Lia Bool List String Ascii.
From Stdlib Require Import Floats.SpecFloat.
From stdpp Require Import base option list strings gmap pretty.

Local Open Scope Z_scope.

(* ------------------------------------------------------------------------- *)
(** ** Go's machine integers and floats *)

Module Go.

Definition MaxInt64 : Z := 2 ^ 63 - 1.
Definition MinInt64 : Z := - 2 ^ 63.
Definition MaxUint64 : Z := 2 ^ 64 - 1.

(** The conversion [uint64(x)]: the low 64 bits of [x]. *)
Definition uint64 (x : Z) : Z := x mod 2 ^ 64.

(** The conversion [int64(x)]: the low 64 bits of [x] read in two's
    complement. *)
Definition int64 (x : Z) : Z := (x + 2 ^ 63) mod 2 ^ 64 - 2 ^ 63.

Definition is_uint64 (x : Z) : Prop := 0 <= x < 2 ^ 64.
Definition is_int64 (x : Z) : Prop := - 2 ^ 63 <= x < 2 ^ 63.

(** Signed division [a / b] of Go truncates toward zero. *)
Definition quo (a b : Z) : Z := int64 (Z.quot a b).

Definition float64 : Type := spec_float.

Definition fadd : float64 -> float64 -> float64 := SFadd 53 1024.
Definition fsub : float64 -> float64 -> float64 := SFsub 53 1024.
Definition fmul : float64 -> float64 -> float64 := SFmul 53 1024.
Definition fdiv : float64 -> float64 -> float64 := SFdiv 53 1024.
Definition feq : float64 -> float64 -> bool := SFeqb.
Definition flt : float64 -> float64 -> bool := SFltb.

(** The conversion [float64(n)] of an integer: round to nearest, ties to
    even. *)
Definition float64_of_Z (n : Z) : float64 := binary_normalize 53 1024 n 0 false.

Definition fzero : float64 := S754_zero false.

(** [math.Float64bits]: sign, 11 bits of biased exponent, 52 bits of
    mantissa. *)
Definition Float64bits (f : float64) : Z :=
  let sign (s : bool) : Z := if s then 2 ^ 63 else 0 in
  match f with
  | S754_zero s => sign s
  | S754_infinity s => sign s + 2047 * 2 ^ 52
  | S754_nan => 2047 * 2 ^ 52 + 2 ^ 51 + 1
  | S754_finite s m e =>
      if Z.pos m <? 2 ^ 52 then sign s + Z.pos m
      else sign s + (e + 1075) * 2 ^ 52 + (Z.pos m - 2 ^ 52)
  end.

(** [math.Float64frombits]. *)
Definition Float64frombits (b : Z) : float64 :=
  let s := Z.testbit b 63 in
  let ex := (b / 2 ^ 52) mod 2 ^ 11 in
  let mant := b mod 2 ^ 52 in
  if ex =? 0 then
    match mant with
    | Z.pos m => S754_finite s m (-1074)
    | _ => S754_zero s
    end
  else if ex =? 2047 then
    (if mant =? 0 then S754_infinity s else S754_nan)
  else
    match mant + 2 ^ 52 with
    | Z.pos m => S754_finite s m (ex - 1075)
    | _ => S754_zero s
    end.

(** The conversion [int64(f)] of a float truncates toward zero; what Go does
    when the value does not fit is left to the implementation, here the low
    64 bits are kept. *)
Definition Z_of_float64 (f : float64) : Z :=
  match f with
  | S754_finite s m e =>
      let a := match e with
               | Z.neg p => Z.pos m / 2 ^ Z.pos p
               | _ => Z.pos m * 2 ^ e
               end in
      if s then - a else a
  | _ => 0
  end.

(** [bytes.Compare]: lexicographic order on byte strings, as -1, 0 or 1. *)
Definition bytes_Compare (a b : string) : Z :=
  match String.compare a b with
  | Lt => -1
  | Eq => 0
  | Gt => 1
  end.

(** *** [strconv]: base-10 integers *)

Definition digit (c : ascii) : option Z :=
  let n := Z.of_N (N_of_ascii c) in
  if (48 <=? n) && (n <=? 57) then Some (n - 48) else None.

Fixpoint digits (s : string) (acc : Z) : option Z :=
  match s with
  | EmptyString => Some acc
  | String c s' =>
      match digit c with
      | Some d => digits s' (10 * acc + d)
      | None => None
      end
  end.

(** [strconv.ParseUint(s, 10, 64)]; [None] stands for a syntax or a range
    error. *)
Definition ParseUint (s : string) : option Z :=
  match s with
  | EmptyString => None
  | _ =>
      match digits s 0 with
      | Some n => if n <? 2 ^ 64 then Some n else None
      | None => None
      end
  end.

(** [strconv.ParseInt(s, 10, 64)]: an optional sign, then [ParseUint]. *)
Definition ParseInt (s : string) : option Z :=
  match s with
  | EmptyString => None
  | String c rest =>
      let '(neg, body) :=
        if Ascii.eqb c "+" then (false, rest)
        else if Ascii.eqb c "-" then (true, rest)
        else (false, s) in
      match body with
      | EmptyString => None
      | _ =>
          match digits body 0 with
          | Some un =>
              if neg then (if un <=? 2 ^ 63 then Some (- un) else None)
              else (if un <? 2 ^ 63 then Some un else None)
          | None => None
          end
      end
  end.

(** [strconv.AppendInt(nil, n, 10)] and [strconv.AppendUint(nil, n, 10)]. *)
Definition AppendInt (n : Z) : string := pretty n.

End Go.

(* ------------------------------------------------------------------------- *)
(** ** [sqltypes]: SQL type tags and values *)

Module sqltypes.

(** Modelled from the spec: the type tags of [querypb.Type] and the
    predicates of [sqltypes] over them are declared outside the sources at
    hand. Section 3 ("Value") lists the tags by family: [Null], signed
    integers, unsigned integers, floating point, decimal, textual, binary,
    temporal ([Date], [Time], [Datetime], [Timestamp]), [Enum], [Set],
    [Json], [Bit], [Tuple]. [Null] is the zero value of the tag. *)
Inductive querypb_Type : Set :=
  | Null
  | Int8 | Uint8 | Int16 | Uint16 | Int24 | Uint24 | Int32 | Uint32
  | Int64 | Uint64
  | Float32 | Float64
  | Timestamp | Date | Time_ | Datetime | Year
  | Decimal
  | Text | Blob | VarChar | VarBinary | Char | Binary
  | Bit | Enum | Set_ | Tuple | Geometry | TypeJSON | Expression.

#[global] Instance querypb_Type_eq_dec : EqDecision querypb_Type.
Proof. solve_decision. Defined.

Definition IsNull (t : querypb_Type) : bool :=
  match t with Null => true | _ => false end.

Definition IsSigned (t : querypb_Type) : bool :=
  match t with
  | Int8 | Int16 | Int24 | Int32 | Int64 => true
  | _ => false
  end.

Definition IsUnsigned (t : querypb_Type) : bool :=
  match t with
  | Uint8 | Uint16 | Uint24 | Uint32 | Uint64 | Year => true
  | _ => false
  end.

Definition IsIntegral (t : querypb_Type) : bool := IsSigned t || IsUnsigned t.

Definition IsFloat (t : querypb_Type) : bool :=
  match t with Float32 | Float64 => true | _ => false end.

Definition IsNumber (t : querypb_Type) : bool :=
  IsIntegral t || IsFloat t || bool_decide (t = Decimal).

Definition IsText (t : querypb_Type) : bool :=
  match t with Text | VarChar | Char => true | _ => false end.

Definition IsBinary (t : querypb_Type) : bool :=
  match t with Blob | VarBinary | Binary => true | _ => false end.

Definition IsDate (t : querypb_Type) : bool :=
  match t with Datetime | Date | Timestamp | Time_ => true | _ => false end.

(** The families that the promotion ladder of section 4.1 speaks of. *)
Definition textual (t : querypb_Type) : bool := IsText t || IsBinary t.
Definition floating (t : querypb_Type) : bool :=
  IsFloat t || bool_decide (t = Decimal).

(** Modelled from the spec: [sqltypes.Value], its constructor [MakeTrusted],
    the value [NULL] and its methods are declared outside the sources at
    hand. Section 3: "Every Value carries its SQL type tag", next to the raw
    bytes of the value. *)
Record Value : Set := mkValue { Value_typ : querypb_Type; Value_val : string }.

Definition NULL : Value := mkValue Null "".

(** Modelled from the spec: [sqltypes.MakeTrusted] builds a value from a tag
    and bytes; a [Null] tag always yields [NULL]. *)
Definition MakeTrusted (t : querypb_Type) (val : string) : Value :=
  if IsNull t then NULL else mkValue t val.

(** Modelled from the spec: the methods of [sqltypes.Value] read the tag
    and the bytes. *)
Definition Value_Type (v : Value) : querypb_Type := Value_typ v.
Definition Value_Raw (v : Value) : string := Value_val v.
Definition Value_RawStr (v : Value) : string := Value_val v.
Definition Value_IsNull (v : Value) : bool := IsNull (Value_typ v).
Definition Value_IsSigned (v : Value) : bool := IsSigned (Value_typ v).
Definition Value_IsUnsigned (v : Value) : bool := IsUnsigned (Value_typ v).
Definition Value_IsFloat (v : Value) : bool := IsFloat (Value_typ v).
Definition Value_IsText (v : Value) : bool := IsText (Value_typ v).
Definition Value_IsBinary (v : Value) : bool := IsBinary (Value_typ v).

End sqltypes.

(* ------------------------------------------------------------------------- *)
(** ** Errors *)

Module vterrors.
Import sqltypes.

(** Modelled from the spec: the codes of [vtrpcpb], the error states and the
    constructors of [vterrors] are declared outside the sources at hand.
    Sections 4.1 and 7 name the failures: [UnsupportedComparison],
    [UnsupportedCollation], [DataOutOfRange], internal errors, shard errors
    that are aggregated. *)
Inductive Code : Set :=
  | Code_INTERNAL | Code_UNIMPLEMENTED | Code_INVALID_ARGUMENT
  | Code_FAILED_PRECONDITION | Code_UNKNOWN.

Inductive State : Set := Undefined | DataOutOfRange | BadDb.

(** The errors that travel through the two packages:
    [UnsupportedComparisonError] and [UnsupportedCollationError] are the two
    structs of [arithmetic.go]; [vterror] is an error of [vterrors] with its
    code and state; [NumError] is an error of [strconv], [fmtError] one of
    [fmt.Errorf]; [Aggregated] is what [vterrors.Aggregate] makes of
    several. *)
#[local] Unset Elimination Schemes.
Inductive error : Set :=
  | UnsupportedComparisonError (Type1 Type2 : querypb_Type)
  | UnsupportedCollationError (ID : Z)
  | vterror (code : Code) (state : State) (format : string)
  | NumError (Func Num : string)
  | fmtError (format : string)
  | Aggregated (errs : list error).
#[local] Set Elimination Schemes.

(** Modelled from the spec: [vterrors.Errorf] and [vterrors.NewErrorf] build
    an error from a code, a state and a message. *)
Definition Errorf (code : Code) (format : string) : error :=
  vterror code Undefined format.
Definition NewErrorf (code : Code) (state : State) (format : string) : error :=
  vterror code state format.

(** Modelled from the spec: [vterrors.Aggregate] is defined outside the
    sources at hand; section 4.3 step 5 has the shard errors "aggregate[d]
    and surface[d]" as one error. No error at all aggregates to [nil]. *)
Definition Aggregate (errs : list error) : option error :=
  match errs with
  | [] => None
  | _ => Some (Aggregated errs)
  end.

(** Modelled from the spec: [vterrors.ErrState] reads the state of an
    error. *)
Definition ErrState (e : error) : State :=
  match e with
  | vterror _ st _ => st
  | _ => Undefined
  end.

(** The result of a Go function that returns [(T, error)]. *)
Inductive res (A : Type) : Type :=
  | Ok (a : A)
  | Fail (e : error).
Arguments Ok {A} a.
Arguments Fail {A} e.

Definition bind {A B : Type} (c : res A) (k : A -> res B) : res B :=
  match c with
  | Ok a => k a
  | Fail e => Fail e
  end.

Definition is_Ok {A : Type} (r : res A) : Prop := exists a, r = Ok a.

Definition is_DataOutOfRange {A : Type} (r : res A) : Prop :=
  exists code format, r = Fail (vterror code DataOutOfRange format).

End vterrors.

Notation "'let*' x := c 'in' k" :=
  (vterrors.bind c (fun x => k))
    (at level 10, x name, c at level 100, k at level 200).
Notation "'let*' ' p := c 'in' k" :=
  (vterrors.bind c (fun x => match x with p => k end))
    (at level 10, p pattern, c at level 100, k at level 200).

(* ------------------------------------------------------------------------- *)
(** ** [collations] and the other collaborators of the evaluation engine *)

Module collations.

Definition ID : Set := Z.
Definition Unknown : ID := 0.

(** Modelled from the spec: the package [collations] is outside the sources
    at hand. Section 9 ("Collation service"): an injected lookup from an id to
    [collate], [hash] and [name]; the id [Unknown] is the zero id.
    [Collate(left, right, isPrefix)] and
    [Hash(src, seed)]. *)
Record Collation : Type := {
  Collate : string -> string -> bool -> Z;
  Hash : string -> Z -> Z;
  Name : string;
}.

Record TypeCollation : Set := { Collation_ : ID }.

End collations.

Module evalengine.
Import Go sqltypes vterrors.

(** What the package takes from outside the sources at hand: the collation
    environment [collations.Local()], the float parsers and printer of
    [strconv] and [hack], [strings.TrimSpace], and the date parser. A parser
    answers [None] where Go returns a non-nil error. *)
Record Collaborators : Type := {
  LookupByID : collations.ID -> option collations.Collation;
  ParseFloat : string -> option float64;
  ParseFloatPrefix : string -> option float64;
  AppendFloat : float64 -> ascii -> string;
  TrimSpace : string -> string;
  parseDate_UnixNano : string -> res Z;
}.

(** Modelled from the spec: the struct [EvalResult] is declared in another
    file of the package. Section 3: [{ typ, numval: 64-bit raw bits, bytes,
    collation }]. The zero value [EvalResult{}] has the tag [Null]. *)
Record EvalResult : Set := {
  typ : querypb_Type;
  numval : Z;
  bytes : string;
  collation : collations.TypeCollation;
}.

Definition noCollation : collations.TypeCollation :=
  {| collations.Collation_ := collations.Unknown |}.

Definition EvalResult0 : EvalResult :=
  {| typ := Null; numval := 0; bytes := ""; collation := noCollation |}.

(** [EvalResult{typ: t, numval: n}] and [EvalResult{typ: t, bytes: b}]. *)
Definition evalNum (t : querypb_Type) (n : Z) : EvalResult :=
  {| typ := t; numval := n; bytes := ""; collation := noCollation |}.
Definition evalBytes (t : querypb_Type) (b : string) : EvalResult :=
  {| typ := t; numval := 0; bytes := b; collation := noCollation |}.

(** [dataOutOfRangeError]. Go formats the type, the operands and the sign
    into the message; only the format is kept here, so two such errors are
    told apart by the message of the source and not by this model. *)
Definition dataOutOfRangeError (v1 v2 : Z) (typ sign : string) : error :=
  NewErrorf Code_INVALID_ARGUMENT DataOutOfRange
    "%s value is out of range in %v %s %v".

Definition invalidArithmetic : error :=
  Errorf Code_INTERNAL "invalid arithmetic between: %s %s".

(** *** Integer arithmetic on the raw 64 bits *)

Definition intPlusInt (v1u v2u : Z) : EvalResult :=
  let v1 := int64 v1u in
  let v2 := int64 v2u in
  let result := int64 (v1 + v2) in
  let overflow :=
    evalNum Float64 (Float64bits (fadd (float64_of_Z v1) (float64_of_Z v2))) in
  if (0 <? v1) && (0 <? v2) && (result <? 0) then overflow
  else if (v1 <? 0) && (v2 <? 0) && (0 <? result) then overflow
  else evalNum Int64 (uint64 result).

Definition intPlusIntWithError (v1u v2u : Z) : res EvalResult :=
  let v1 := int64 v1u in
  let v2 := int64 v2u in
  let result := int64 (v1 + v2) in
  if negb (Bool.eqb (v1 <? result) (0 <? v2)) then
    Fail (dataOutOfRangeError v1 v2 "BIGINT" "+")
  else Ok (evalNum Int64 (uint64 result)).

Definition intMinusIntWithError (v1u v2u : Z) : res EvalResult :=
  let v1 := int64 v1u in
  let v2 := int64 v2u in
  let result := int64 (v1 - v2) in
  if negb (Bool.eqb (result <? v1) (0 <? v2)) then
    Fail (dataOutOfRangeError v1 v2 "BIGINT" "-")
  else Ok (evalNum Int64 (uint64 result)).

Definition intTimesIntWithError (v1u v2u : Z) : res EvalResult :=
  let v1 := int64 v1u in
  let v2 := int64 v2u in
  let result := int64 (v1 * v2) in
  if negb (v1 =? 0) && negb (quo result v1 =? v2) then
    Fail (dataOutOfRangeError v1 v2 "BIGINT" "*")
  else Ok (evalNum Int64 (uint64 result)).

Definition uintPlusUint (v1 v2 : Z) : EvalResult :=
  let result := uint64 (v1 + v2) in
  if result <? v2 then
    evalNum Float64 (Float64bits (fadd (float64_of_Z v1) (float64_of_Z v2)))
  else evalNum Uint64 result.

Definition uintPlusInt (v1 v2 : Z) : EvalResult := uintPlusUint v1 v2.

Definition uintPlusUintWithError (v1 v2 : Z) : res EvalResult :=
  let result := uint64 (v1 + v2) in
  if (result <? v1) || (result <? v2) then
    Fail (dataOutOfRangeError v1 v2 "BIGINT UNSIGNED" "+")
  else Ok (evalNum Uint64 result).

Definition uintMinusUintWithError (v1 v2 : Z) : res EvalResult :=
  let result := uint64 (v1 - v2) in
  if v1 <? v2 then
    Fail (dataOutOfRangeError v1 v2 "BIGINT UNSIGNED" "-")
  else Ok (evalNum Uint64 result).

Definition uintTimesUintWithError (v1 v2 : Z) : res EvalResult :=
  let result := uint64 (v1 * v2) in
  if (result <? v2) || (result <? v1) then
    Fail (dataOutOfRangeError v1 v2 "BIGINT UNSIGNED" "*")
  else Ok (evalNum Uint64 result).

Definition intMinusUintWithError (v1u v2 : Z) : res EvalResult :=
  let v1 := int64 v1u in
  if (v1 <? 0) || (v1 <? int64 v2) then
    Fail (dataOutOfRangeError v1 v2 "BIGINT UNSIGNED" "-")
  else uintMinusUintWithError v1u v2.

Definition uintPlusIntWithError (v1 v2u : Z) : res EvalResult :=
  let v2 := int64 v2u in
  let result := uint64 (v1 + uint64 v2) in
  if ((v2 <? 0) && (v1 <? uint64 (- v2)))
     || ((0 <? v2) && ((result <? v1) || (result <? uint64 v2))) then
    Fail (dataOutOfRangeError v1 v2 "BIGINT UNSIGNED" "+")
  else Ok (evalNum Uint64 result).

Definition uintMinusIntWithError (v1 v2u : Z) : res EvalResult :=
  let v2 := int64 v2u in
  if (int64 v1 <? v2) && (0 <? v2) then
    Fail (dataOutOfRangeError v1 v2 "BIGINT UNSIGNED" "-")
  else if v2 <? 0 then uintPlusIntWithError v1 (uint64 (- v2))
  else uintMinusUintWithError v1 (uint64 v2).

Definition uintTimesIntWithError (v1 v2u : Z) : res EvalResult :=
  let v2 := int64 v2u in
  if (v2 <? 0) || (int64 v1 <? 0) then
    Fail (dataOutOfRangeError v1 v2 "BIGINT UNSIGNED" "*")
  else uintTimesUintWithError v1 (uint64 v2).

(** *** Float arithmetic *)

Definition coerceToFloat (v2 : EvalResult) : float64 :=
  match typ v2 with
  | Int64 => float64_of_Z (int64 (numval v2))
  | Uint64 => float64_of_Z (numval v2)
  | _ => Float64frombits (numval v2)
  end.

Definition floatPlusAny (v1 : float64) (v2 : EvalResult) : EvalResult :=
  evalNum Float64 (Float64bits (fadd v1 (coerceToFloat v2))).

Definition floatMinusAny (v1 : float64) (v2 : EvalResult) : EvalResult :=
  evalNum Float64 (Float64bits (fsub v1 (coerceToFloat v2))).

Definition floatTimesAny (v1 : float64) (v2 : EvalResult) : EvalResult :=
  evalNum Float64 (Float64bits (fmul v1 (coerceToFloat v2))).

Definition anyMinusFloat (v1 : EvalResult) (v2 : float64) : EvalResult :=
  evalNum Float64 (Float64bits (fsub (coerceToFloat v1) v2)).

Definition floatDivideAnyWithError (v1 : float64) (v2 : EvalResult)
  : res EvalResult :=
  let v2f := coerceToFloat v2 in
  let result := fdiv v1 v2f in
  let divisorLessThanOne := flt v2f (float64_of_Z 1) in
  let resultMismatch := negb (feq (fmul v2f result) v1) in
  if divisorLessThanOne && resultMismatch then
    Fail (NewErrorf Code_INVALID_ARGUMENT DataOutOfRange
            "%s value is out of range in %v / %v")
  else Ok (evalNum Float64 (Float64bits result)).

Section WithCollaborators.
Variable env : Collaborators.

(** *** Conversions to the numeric form *)

Definition makeFloat (v : EvalResult) : EvalResult :=
  if IsIntegral (typ v) then
    evalNum Float64 (Float64bits (float64_of_Z (int64 (numval v))))
  else if IsFloat (typ v) then v
  else
    match ParseFloat env (bytes v) with
    | Some fval => evalNum Float64 (Float64bits fval)
    | None => evalNum Int64 0
    end.

Definition makeNumeric (v : EvalResult) : EvalResult :=
  if IsNumber (typ v) then v
  else
    match ParseInt (bytes v) with
    | Some ival => evalNum Int64 (uint64 ival)
    | None =>
        match ParseFloat env (bytes v) with
        | Some fval => evalNum Float64 (Float64bits fval)
        | None => evalNum Int64 0
        end
    end.

(** [makeNumericAndPrioritize] reorders the operands to be [Float64],
    [Uint64], [Int64]. *)
Definition makeNumericAndPrioritize (i1 i2 : EvalResult)
  : EvalResult * EvalResult :=
  let v1 := makeNumeric i1 in
  let v2 := makeNumeric i2 in
  match typ v1 with
  | Int64 =>
      match typ v2 with
      | Uint64 | Float64 => (v2, v1)
      | _ => (v1, v2)
      end
  | Uint64 =>
      match typ v2 with
      | Float64 => (v2, v1)
      | _ => (v1, v2)
      end
  | _ => (v1, v2)
  end.

(** [addNumeric] ends in [panic("unreachable")]: [None] is that panic. *)
Definition addNumeric (i1 i2 : EvalResult) : option EvalResult :=
  let '(v1, v2) := makeNumericAndPrioritize i1 i2 in
  match typ v1 with
  | Int64 => Some (intPlusInt (numval v1) (numval v2))
  | Uint64 =>
      match typ v2 with
      | Int64 => Some (uintPlusInt (numval v1) (numval v2))
      | Uint64 => Some (uintPlusUint (numval v1) (numval v2))
      | _ => None
      end
  | Float64 => Some (floatPlusAny (Float64frombits (numval v1)) v2)
  | _ => None
  end.

Definition addNumericWithError (i1 i2 : EvalResult) : res EvalResult :=
  let '(v1, v2) := makeNumericAndPrioritize i1 i2 in
  match typ v1 with
  | Int64 => intPlusIntWithError (numval v1) (numval v2)
  | Uint64 =>
      match typ v2 with
      | Int64 => uintPlusIntWithError (numval v1) (numval v2)
      | Uint64 => uintPlusUintWithError (numval v1) (numval v2)
      | _ => Fail invalidArithmetic
      end
  | Float64 | Decimal => Ok (floatPlusAny (Float64frombits (numval v1)) v2)
  | _ => Fail invalidArithmetic
  end.

Definition subtractNumericWithError (i1 i2 : EvalResult) : res EvalResult :=
  let v1 := makeNumeric i1 in
  let v2 := makeNumeric i2 in
  match typ v1 with
  | Int64 =>
      match typ v2 with
      | Int64 => intMinusIntWithError (numval v1) (numval v2)
      | Uint64 => intMinusUintWithError (numval v1) (numval v2)
      | Float64 => Ok (anyMinusFloat v1 (Float64frombits (numval v2)))
      | _ => Fail invalidArithmetic
      end
  | Uint64 =>
      match typ v2 with
      | Int64 => uintMinusIntWithError (numval v1) (numval v2)
      | Uint64 => uintMinusUintWithError (numval v1) (numval v2)
      | Float64 => Ok (anyMinusFloat v1 (Float64frombits (numval v2)))
      | _ => Fail invalidArithmetic
      end
  | Float64 => Ok (floatMinusAny (Float64frombits (numval v1)) v2)
  | _ => Fail invalidArithmetic
  end.

Definition multiplyNumericWithError (i1 i2 : EvalResult) : res EvalResult :=
  let '(v1, v2) := makeNumericAndPrioritize i1 i2 in
  match typ v1 with
  | Int64 => intTimesIntWithError (numval v1) (numval v2)
  | Uint64 =>
      match typ v2 with
      | Int64 => uintTimesIntWithError (numval v1) (numval v2)
      | Uint64 => uintTimesUintWithError (numval v1) (numval v2)
      | _ => Fail invalidArithmetic
      end
  | Float64 => Ok (floatTimesAny (Float64frombits (numval v1)) v2)
  | _ => Fail invalidArithmetic
  end.

Definition divideNumericWithError (i1 i2 : EvalResult) : res EvalResult :=
  let v1 := makeNumeric i1 in
  let v2 := makeNumeric i2 in
  match typ v1 with
  | Int64 => floatDivideAnyWithError (float64_of_Z (int64 (numval v1))) v2
  | Uint64 => floatDivideAnyWithError (float64_of_Z (numval v1)) v2
  | Float64 => floatDivideAnyWithError (Float64frombits (numval v1)) v2
  | _ => Fail invalidArithmetic
  end.

Definition parseStringToFloat (str : string) : float64 :=
  let str := TrimSpace env str in
  match ParseFloatPrefix env str with
  | Some val => val
  | None => fzero
  end.

(** *** Coercion *)

Definition castTo (v : Value) (t : querypb_Type) : res EvalResult :=
  if bool_decide (t = Null) then Ok EvalResult0
  else if IsFloat t || bool_decide (t = Decimal) then
    if Value_IsSigned v then
      match ParseInt (Value_RawStr v) with
      | None => Fail (Errorf Code_INTERNAL "%v")
      | Some ival => Ok (evalNum Float64 (Float64bits (float64_of_Z ival)))
      end
    else if Value_IsUnsigned v then
      match ParseUint (Value_RawStr v) with
      | None => Fail (Errorf Code_INTERNAL "%v")
      | Some uval => Ok (evalNum Float64 (Float64bits (float64_of_Z uval)))
      end
    else if Value_IsFloat v || bool_decide (Value_Type v = Decimal) then
      match ParseFloat env (Value_RawStr v) with
      | None => Fail (Errorf Code_INTERNAL "%v")
      | Some fval => Ok (evalNum Float64 (Float64bits fval))
      end
    else if Value_IsText v || Value_IsBinary v then
      Ok (evalNum Float64 (Float64bits (parseStringToFloat (Value_RawStr v))))
    else
      Fail (Errorf Code_INTERNAL
              "coercion should not try to coerce this value to a float: %v")
  else if IsSigned t then
    if Value_IsSigned v then
      match ParseInt (Value_RawStr v) with
      | None => Fail (Errorf Code_INTERNAL "%v")
      | Some ival => Ok (evalNum Int64 (uint64 ival))
      end
    else if Value_IsUnsigned v then
      match ParseUint (Value_RawStr v) with
      | None => Fail (Errorf Code_INTERNAL "%v")
      | Some uval => Ok (evalNum Int64 uval)
      end
    else
      Fail (Errorf Code_INTERNAL
              "coercion should not try to coerce this value to a signed int: %v")
  else if IsUnsigned t then
    if Value_IsSigned v then
      match ParseInt (Value_RawStr v) with
      | None => Fail (Errorf Code_INTERNAL "%v")
      | Some uval => Ok (evalNum Uint64 (uint64 uval))
      end
    else if Value_IsUnsigned v then
      match ParseUint (Value_RawStr v) with
      | None => Fail (Errorf Code_INTERNAL "%v")
      | Some uval => Ok (evalNum Uint64 uval)
      end
    else
      Fail (Errorf Code_INTERNAL
              "coercion should not try to coerce this value to a unsigned int: %v")
  else if IsText t || IsBinary t then
    if Value_IsText v || Value_IsBinary v then
      Ok (evalBytes (Value_Type v) (Value_Raw v))
    else
      Fail (Errorf Code_INTERNAL
              "coercion should not try to coerce this value to a text: %v")
  else Fail (Errorf Code_INTERNAL
               "coercion should not try to coerce this value: %v").

(** The error of [CoerceTo]. Go formats the two types into the message, in
    the order of the arguments; only the format is kept here. *)
Definition unsupportedCoercion : error :=
  Errorf Code_UNIMPLEMENTED "types does not support hashcode yet: %v vs %v".

(** [CoerceTo] takes two input types, and decides how they should be coerced
    before compared. *)
Definition CoerceTo (v1 v2 : querypb_Type) : res querypb_Type :=
  if bool_decide (v1 = v2) then Ok v1
  else if IsNull v1 || IsNull v2 then Ok Null
  else if (IsText v1 || IsBinary v1) && (IsText v2 || IsBinary v2) then
    Ok VarChar
  else if IsNumber v1 || IsNumber v2 then
    if IsText v1 || IsBinary v1 || IsText v2 || IsBinary v2 then Ok Float64
    else if IsFloat v2 || bool_decide (v2 = Decimal)
            || IsFloat v1 || bool_decide (v1 = Decimal) then Ok Float64
    else if IsSigned v1 then
      if IsUnsigned v2 then Ok Uint64
      else if IsSigned v2 then Ok Int64
      else Fail unsupportedCoercion
    else if IsUnsigned v1 then
      if IsSigned v2 || IsUnsigned v2 then Ok Uint64
      else Fail unsupportedCoercion
    else Fail unsupportedCoercion
  else Fail unsupportedCoercion.

(** [isByteComparable] returns true if the type is binary or date/time. *)
Definition isByteComparable (t : querypb_Type) : bool :=
  if IsBinary t then true
  else
    match t with
    | Timestamp | Date | Time_ | Datetime | Enum | Set_ | TypeJSON | Bit => true
    | _ => false
    end.

(** *** Helpers of the package that live outside [arithmetic.go] *)

(** Modelled from the spec: [Value.ToBytes] belongs to [sqltypes]; a value
    hands out its raw bytes, except an [Expression], which has none. *)
Definition Value_ToBytes (v : Value) : res string :=
  if bool_decide (Value_Type v = Expression) then
    Fail (Errorf Code_INVALID_ARGUMENT "expression cannot be converted to bytes")
  else Ok (Value_val v).

(** Modelled from the spec: [newEvalResult] is defined in another file of the
    package. Section 3 ("EvalResult"): integers live in [numval] as raw bits,
    floats as IEEE-754 bit patterns, strings in [bytes]; decimals are read as
    floats. *)
Definition newEvalResult (v : Value) : res EvalResult :=
  let raw := Value_Raw v in
  if Value_IsBinary v || Value_IsText v then Ok (evalBytes VarBinary raw)
  else if Value_IsSigned v then
    match ParseInt raw with
    | None => Fail (NumError "ParseInt" raw)
    | Some ival => Ok (evalNum Int64 (uint64 ival))
    end
  else if Value_IsUnsigned v then
    match ParseUint raw with
    | None => Fail (NumError "ParseUint" raw)
    | Some uval => Ok (evalNum Uint64 uval)
    end
  else if Value_IsFloat v || bool_decide (Value_Type v = Decimal) then
    match ParseFloat env raw with
    | None => Fail (NumError "ParseFloat" raw)
    | Some fval => Ok (evalNum Float64 (Float64bits fval))
    end
  else Ok (evalBytes (Value_Type v) raw).

(** Modelled from the spec: [ToFloat64] is defined in another file of the
    package; it is the float reading of [newEvalResult], a textual or binary
    value being parsed as a float. On an error Go returns the float zero next
    to it. *)
Definition ToFloat64 (v : Value) : float64 * option error :=
  match newEvalResult v with
  | Fail e => (fzero, Some e)
  | Ok num =>
      match typ num with
      | Int64 => (float64_of_Z (int64 (numval num)), None)
      | Uint64 => (float64_of_Z (numval num), None)
      | Float64 => (Float64frombits (numval num), None)
      | _ =>
          if IsText (typ num) || IsBinary (typ num) then
            match ParseFloat env (Value_Raw v) with
            | None => (fzero, Some (Errorf Code_INVALID_ARGUMENT "%v"))
            | Some fval => (fval, None)
            end
          else (fzero, Some (Errorf Code_INVALID_ARGUMENT
                               "cannot convert to float: %s"))
      end
  end.

(** Modelled from the spec: [EvalResult.toSQLValue] is defined in another file
    of the package; it prints the numeric form under the requested tag
    (section 4.1: "Division: the result type is always Float64"). *)
Definition toSQLValue (v : EvalResult) (resultType : querypb_Type) : Value :=
  if IsSigned resultType then
    match typ v with
    | Int64 | Int32 | Uint64 | Uint32 =>
        MakeTrusted resultType (AppendInt (int64 (numval v)))
    | Float64 | Float32 =>
        MakeTrusted resultType
          (AppendInt (int64 (Z_of_float64 (Float64frombits (numval v)))))
    | _ => NULL
    end
  else if IsUnsigned resultType then
    match typ v with
    | Uint64 | Uint32 | Int64 | Int32 =>
        MakeTrusted resultType (AppendInt (uint64 (numval v)))
    | Float64 | Float32 =>
        MakeTrusted resultType
          (AppendInt (uint64 (Z_of_float64 (Float64frombits (numval v)))))
    | _ => NULL
    end
  else if IsFloat resultType || bool_decide (resultType = Decimal) then
    match typ v with
    | Int64 | Int32 => MakeTrusted resultType (AppendInt (int64 (numval v)))
    | Uint64 | Uint32 => MakeTrusted resultType (AppendInt (uint64 (numval v)))
    | Float64 | Float32 =>
        let format : ascii :=
          if bool_decide (resultType = Decimal) then "f"%char else "g"%char in
        MakeTrusted resultType
          (AppendFloat env (Float64frombits (numval v)) format)
    | _ => NULL
    end
  else MakeTrusted resultType (bytes v).

Definition compareZ (a b : Z) : Z :=
  if a =? b then 0 else if a <? b then -1 else 1.

Definition compareFloat (a b : float64) : Z :=
  if feq a b then 0 else if flt a b then -1 else 1.

(** Modelled from the spec: [compareNumeric] is defined in another file of
    the package. Section 4.1 ("Comparison"): "numeric compare uses the
    normalized form"; the operands are brought to one of [Int64], [Uint64],
    [Float64] and compared there, a negative signed operand being below every
    unsigned one. *)
Definition compareNumeric (v1 v2 : EvalResult) : res Z :=
  match typ v1, typ v2 with
  | Int64, Int64 => Ok (compareZ (int64 (numval v1)) (int64 (numval v2)))
  | Int64, Uint64 =>
      if int64 (numval v1) <? 0 then Ok (-1)
      else Ok (compareZ (numval v1) (numval v2))
  | Int64, Float64 =>
      Ok (compareFloat (float64_of_Z (int64 (numval v1)))
            (Float64frombits (numval v2)))
  | Uint64, Int64 =>
      if int64 (numval v2) <? 0 then Ok 1
      else Ok (compareZ (numval v1) (numval v2))
  | Uint64, Uint64 => Ok (compareZ (numval v1) (numval v2))
  | Uint64, Float64 =>
      Ok (compareFloat (float64_of_Z (numval v1)) (Float64frombits (numval v2)))
  | Float64, Int64 =>
      Ok (compareFloat (Float64frombits (numval v1))
            (float64_of_Z (int64 (numval v2))))
  | Float64, Uint64 =>
      Ok (compareFloat (Float64frombits (numval v1)) (float64_of_Z (numval v2)))
  | Float64, Float64 =>
      Ok (compareFloat (Float64frombits (numval v1))
            (Float64frombits (numval v2)))
  | _, _ => Ok 1
  end.

Definition HashCode : Set := Z.

(** Modelled from the spec: [numericalHashCode] is defined in another file of
    the package. Section 4.1 ("Hashing"): "Numeric values hash to the
    canonical numeric encoding after promotion", which section 3 gives as the
    64 raw bits of [numval]. *)
Definition numericalHashCode (v : EvalResult) : HashCode := numval v.

(** *** The public arithmetic *)

Definition Add (v1 v2 : Value) : Value * option error :=
  if Value_IsNull v1 || Value_IsNull v2 then (NULL, None)
  else
    match newEvalResult v1 with
    | Fail err => (NULL, Some err)
    | Ok lv1 =>
        match newEvalResult v2 with
        | Fail err => (NULL, Some err)
        | Ok lv2 =>
            match addNumericWithError lv1 lv2 with
            | Fail err => (NULL, Some err)
            | Ok lresult => (toSQLValue lresult (typ lresult), None)
            end
        end
    end.

Definition Subtract (v1 v2 : Value) : Value * option error :=
  if Value_IsNull v1 || Value_IsNull v2 then (NULL, None)
  else
    match newEvalResult v1 with
    | Fail err => (NULL, Some err)
    | Ok lv1 =>
        match newEvalResult v2 with
        | Fail err => (NULL, Some err)
        | Ok lv2 =>
            match subtractNumericWithError lv1 lv2 with
            | Fail err => (NULL, Some err)
            | Ok lresult => (toSQLValue lresult (typ lresult), None)
            end
        end
    end.

Definition Multiply (v1 v2 : Value) : Value * option error :=
  if Value_IsNull v1 || Value_IsNull v2 then (NULL, None)
  else
    match newEvalResult v1 with
    | Fail err => (NULL, Some err)
    | Ok lv1 =>
        match newEvalResult v2 with
        | Fail err => (NULL, Some err)
        | Ok lv2 =>
            match multiplyNumericWithError lv1 lv2 with
            | Fail err => (NULL, Some err)
            | Ok lresult => (toSQLValue lresult (typ lresult), None)
            end
        end
    end.

(** [Divide] (Float) for MySQL. Replicates behavior of "/" operator. *)
Definition Divide (v1 v2 : Value) : Value * option error :=
  if Value_IsNull v1 || Value_IsNull v2 then (NULL, None)
  else
    let '(lv2AsFloat, err) := ToFloat64 v2 in
    let divisorIsZero := feq lv2AsFloat fzero in
    if divisorIsZero || bool_decide (is_Some err) then (NULL, err)
    else
      match newEvalResult v1 with
      | Fail err => (NULL, Some err)
      | Ok lv1 =>
          match newEvalResult v2 with
          | Fail err => (NULL, Some err)
          | Ok lv2 =>
              match divideNumericWithError lv1 lv2 with
              | Fail err => (NULL, Some err)
              | Ok lresult => (toSQLValue lresult (typ lresult), None)
              end
          end
      end.

Definition zeroBytes : string := "0".

Definition NullSafeAdd (v1 v2 : Value) (resultType : querypb_Type)
  : Value * option error :=
  let v1 := if Value_IsNull v1 then MakeTrusted resultType zeroBytes else v1 in
  let v2 := if Value_IsNull v2 then MakeTrusted resultType zeroBytes else v2 in
  match newEvalResult v1 with
  | Fail err => (NULL, Some err)
  | Ok lv1 =>
      match newEvalResult v2 with
      | Fail err => (NULL, Some err)
      | Ok lv2 =>
          match addNumericWithError lv1 lv2 with
          | Fail err => (NULL, Some err)
          | Ok lresult => (toSQLValue lresult resultType, None)
          end
      end
  end.

(** *** Comparison and hashing *)

(** [NullsafeCompare] returns 0 if v1==v2, -1 if v1<v2, and 1 if v1>v2.
    NULL is the lowest value. *)
Definition NullsafeCompare (v1 v2 : Value) (collationID : collations.ID)
  : res Z :=
  if Value_IsNull v1 then
    (if Value_IsNull v2 then Ok 0 else Ok (-1))
  else if Value_IsNull v2 then Ok 1
  else if isByteComparable (Value_Type v1) && isByteComparable (Value_Type v2)
  then
    let* v1Bytes := Value_ToBytes v1 in
    let* v2Bytes := Value_ToBytes v2 in
    Ok (bytes_Compare v1Bytes v2Bytes)
  else
    let* t := CoerceTo (Value_Type v1) (Value_Type v2) in
    let* v1cast := castTo v1 t in
    let* v2cast := castTo v2 t in
    if IsNumber t then compareNumeric v1cast v2cast
    else if IsText t || IsBinary t then
      if collationID =? collations.Unknown then
        Fail (UnsupportedCollationError collationID)
      else
        match LookupByID env collationID with
        | None => Fail (UnsupportedCollationError collationID)
        | Some coll =>
            let* v1Bytes := Value_ToBytes v1 in
            let* v2Bytes := Value_ToBytes v2 in
            let result := collations.Collate coll v1Bytes v2Bytes false in
            if result <? 0 then Ok (-1)
            else if 0 <? result then Ok 1
            else Ok 0
        end
    else Fail (UnsupportedComparisonError (Value_Type v1) (Value_Type v2)).

Definition nullSafeHashcode (er : EvalResult) : res HashCode :=
  if IsNull (typ er) then Ok MaxUint64
  else if IsNumber (typ er) then Ok (numericalHashCode er)
  else if IsText (typ er) then
    match LookupByID env (collations.Collation_ (collation er)) with
    | None =>
        Fail (Errorf Code_INTERNAL
                "text type with an unknown/unsupported collation cannot be hashed")
    | Some coll => Ok (collations.Hash coll (bytes er) 0)
    end
  else if IsDate (typ er) then
    let* time := parseDate_UnixNano env (bytes er) in
    Ok (uint64 time)
  else Fail (Errorf Code_UNIMPLEMENTED
               "types does not support hashcode yet: %v").

(** [NullsafeHashcode] returns an int64 hashcode that is guaranteed to be the
    same for two values that are considered equal by [NullsafeCompare]. *)
Definition NullsafeHashcode (v : Value) (coll : collations.ID)
    (coerceType : querypb_Type) : res HashCode :=
  let* castValue := castTo v coerceType in
  let castValue :=
    {| typ := typ castValue; numval := numval castValue;
       bytes := bytes castValue;
       collation := {| collations.Collation_ := coll |} |} in
  nullSafeHashcode castValue.

Definition minmax (v1 v2 : Value) (min : bool) (coll : collations.ID)
  : Value * option error :=
  if Value_IsNull v1 then (v2, None)
  else if Value_IsNull v2 then (v1, None)
  else
    match NullsafeCompare v1 v2 coll with
    | Fail err => (NULL, Some err)
    | Ok n =>
        let v1isSmaller := n <? 0 in
        if Bool.eqb min v1isSmaller then (v1, None) else (v2, None)
    end.

Definition Min (v1 v2 : Value) (coll : collations.ID) := minmax v1 v2 true coll.
Definition Max (v1 v2 : Value) (coll : collations.ID) := minmax v1 v2 false coll.

End WithCollaborators.

(** *** A concrete environment for running the examples

    No collation is registered. The float parser covers the decimal integer
    literals (an optional sign and digits), on which it agrees with
    [strconv.ParseFloat]: the nearest float, the sign kept on zero, a range
    error when it overflows. Every other input is a syntax error here; the
    examples below only parse integer literals and the text [abc], which Go
    rejects as well. The printer and the trimmer are placeholders: no example
    looks at the bytes they produce. *)
Definition ParseFloat_integers (s : string) : option float64 :=
  match s with
  | EmptyString => None
  | String c rest =>
      let '(neg, body) :=
        if Ascii.eqb c "+" then (false, rest)
        else if Ascii.eqb c "-" then (true, rest)
        else (false, s) in
      match body with
      | EmptyString => None
      | _ =>
          match digits body 0 with
          | Some un =>
              match binary_normalize 53 1024 (if neg then - un else un) 0 neg
              with
              | S754_infinity _ => None
              | f => Some f
              end
          | None => None
          end
      end
  end.

Definition integerCollaborators : Collaborators :=
  {| LookupByID := fun _ => None;
     ParseFloat := ParseFloat_integers;
     ParseFloatPrefix := ParseFloat_integers;
     AppendFloat := fun f _ => AppendInt (Z_of_float64 f);
     TrimSpace := fun s => s;
     parseDate_UnixNano := fun _ => Fail (fmtError "parsing time") |}.

End evalengine.

(* ------------------------------------------------------------------------- *)
(** ** [engine]: the Route primitive, blocking execution *)

Module engine.
Import Go sqltypes vterrors.

(** Modelled from the spec: the messages of [querypb] are declared outside
    the sources at hand; they are records of the fields that the Route reads
    and writes. [querypb.Value], [querypb.BindVariable], [querypb.BoundQuery],
    [querypb.QueryWarning], [querypb.Field]. *)
Record querypb_Value : Set := { pb_Type : querypb_Type; pb_Value : string }.

Record BindVariable : Set := {
  bv_Type : querypb_Type;
  bv_Value : string;
  bv_Values : list querypb_Value;
}.

Record BoundQuery : Type := {
  Sql : string;
  BindVariables : gmap string BindVariable;
}.

Record QueryWarning : Set := { Code : Z; Message : string }.

Record Field : Set := { Field_Name : string; Field_Type : querypb_Type }.

(** Modelled from the spec: [sqltypes.ValueToProto] carries the tag and the
    bytes of a value over to [querypb.Value]. *)
Definition ValueToProto (v : Value) : querypb_Value :=
  {| pb_Type := Value_typ v; pb_Value := Value_val v |}.

(** Modelled from the spec: [sqltypes.Result] is declared outside the
    sources at hand; it is kept with the fields that [Route.sort] copies. *)
Record Result : Set := {
  Fields : list Field;
  RowsAffected : Z;
  InsertID : Z;
  Rows : list (list Value);
}.

Definition emptyResult : Result :=
  {| Fields := []; RowsAffected := 0; InsertID := 0; Rows := [] |}.

(** Modelled from the spec: the bind-variable name of the list of an [IN]
    route; the constant is
    declared outside the sources at hand (section 6 names it). *)
Definition ListVarName : string := "__vals".

(** Modelled from the spec: [key.Destination] is declared outside the
    sources at hand. Section 6: "destinations are one of KeyspaceID(bytes),
    AllShards, AnyShard, None". *)
Inductive Destination : Set :=
  | DestinationKeyspaceID (ksid : string)
  | DestinationAllShards
  | DestinationAnyShard
  | DestinationNone.

(** Modelled from the spec: [srvtopo.ResolvedShard] is declared outside the
    sources at hand. Section 3: "an opaque handle representing a shard
    endpoint"; here the keyspace and the shard of the target. *)
Record ResolvedShard : Set := { rs_Keyspace : string; rs_Shard : string }.

#[global] Instance ResolvedShard_eq_dec : EqDecision ResolvedShard.
Proof. solve_decision. Defined.

(** A Go slice that may be [nil]. *)
Definition slice (A : Type) : Type := option (list A).
Definition len {A : Type} (s : slice A) : nat :=
  match s with None => 0%nat | Some l => length l end.

(** A call either returns or panics (a nil dereference, an index out of
    range). *)
Inductive outcome (A : Type) : Type :=
  | Returns (a : A)
  | Panics.
Arguments Returns {A} a.
Arguments Panics {A}.

(** *** The cursor *)

(** Modelled from the spec: the interface [VCursor] is declared in another
    file of the package; section 6 lists what is consumed from it. These are
    the capabilities that blocking execution consumes. [Topo] is
    the topology behind [ResolveDestinations]: the shards of a keyspace that a
    destination denotes. [ExecuteMultiShard] answers with a result (possibly
    nil) and a slice of errors (possibly nil, possibly holding nil entries). *)
Record VCursor : Type := {
  Topo : string -> Destination -> res (list string);
  ExecuteMultiShard :
    list ResolvedShard -> list BoundQuery -> bool -> bool ->
    option Result * slice (option error);
  AutocommitApproval : bool;
}.

(** Modelled from the spec: the grouping step of the shard resolver (see
    [ResolveDestinations] below). It adds [id] to the group of [shard],
    opening the group at the end when the
    shard is met for the first time. *)
Fixpoint addToShard (groups : list (ResolvedShard * list querypb_Value))
    (shard : ResolvedShard) (id : list querypb_Value)
  : list (ResolvedShard * list querypb_Value) :=
  match groups with
  | [] => [(shard, id)]
  | (s, vals) :: rest =>
      if bool_decide (s = shard) then (s, vals ++ id) :: rest
      else (s, vals) :: addToShard rest shard id
  end.

(** Modelled from the spec: the grouping step, for every shard that one
    destination denotes. *)
Definition addToShards (keyspace : string) (shards : list string)
    (id : list querypb_Value)
    (groups : list (ResolvedShard * list querypb_Value))
  : list (ResolvedShard * list querypb_Value) :=
  foldl (fun g sh =>
           addToShard g {| rs_Keyspace := keyspace; rs_Shard := sh |} id)
    groups shards.

(** Modelled from the spec: the loop of the shard resolver over the
    destinations, each with its key. *)
Fixpoint resolveLoop (vc : VCursor) (keyspace : string)
    (ids : option (list querypb_Value)) (destinations : list Destination)
    (groups : list (ResolvedShard * list querypb_Value))
  : res (list (ResolvedShard * list querypb_Value)) :=
  match destinations with
  | [] => Ok groups
  | d :: ds =>
      let* shards := Topo vc keyspace d in
      let id := match ids with
                | Some (i :: _) => [i]
                | _ => []
                end in
      resolveLoop vc keyspace (tail <$> ids) ds
        (addToShards keyspace shards id groups)
  end.

(** Modelled from the spec: [VCursor.ResolveDestinations], the shard resolver,
    is outside the sources at hand. Section 6:
    [resolve_destinations(keyspace, ids, destinations) -> (shards,
    per_destination_ids)]; section 4.2: "given per-key shard destinations,
    group keys by resolved shard". The destinations are taken in order, the
    i-th key joins the group of every shard that the i-th destination denotes,
    and the shards come out in the order in which they are first met. Without
    ids no group of values is returned. *)
Definition ResolveDestinations (vc : VCursor) (keyspace : string)
    (ids : option (list querypb_Value)) (destinations : list Destination)
  : res (list ResolvedShard * list (list querypb_Value)) :=
  let* groups := resolveLoop vc keyspace ids destinations [] in
  Ok (groups.*1, match ids with None => [] | Some _ => groups.*2 end).

(** *** The Route *)

Inductive RouteOpcode : Set :=
  | SelectUnsharded | SelectEqualUnique | SelectEqual | SelectIN
  | SelectMultiEqual | SelectScatter | SelectNext | SelectDBA
  | SelectReference | SelectNone | NumRouteOpcodes.

Record OrderByParams : Set := {
  Col : Z;
  WeightStringCol : Z;
  Desc : bool;
  StarColFixedIndex : Z;
  FromGroupBy : bool;
  CollationID : collations.ID;
}.

(** Modelled from the spec: [vindexes.Keyspace] is declared outside the
    sources at hand. Section 3: "name + sharded flag". *)
Record Keyspace : Set := { Keyspace_Name : string; Sharded : bool }.

(** Modelled from the spec: [vindexes.SingleColumn] is declared outside the
    sources at hand. Section 6: [map(cursor, [value]) -> [destination]], one
    destination per key. *)
Record SingleColumn : Type := {
  Map : list Value -> res (list Destination);
}.

(** [RouteValue]. *)
Record RouteValue : Type := {
  ResolveValue : gmap string BindVariable -> res Value;
  ResolveList : gmap string BindVariable -> res (list Value);
}.

(** [Route]. The vindex and the value are only consulted by the opcodes that
    need them (section 3: the vindex is non-null exactly for [EqualUnique],
    [Equal], [IN] and [MultiEqual]). The two fields for information_schema
    routing, read by [paramsSystemQuery] alone, hold expressions of the
    evaluation engine and are left out. *)
Record Route : Type := {
  Opcode : RouteOpcode;
  Route_Keyspace : Keyspace;
  TargetDestination : option Destination;
  TargetTabletType : Z;
  Query : string;
  TableName : string;
  FieldQuery : string;
  Vindex : SingleColumn;
  Route_Value : RouteValue;
  OrderBy : list OrderByParams;
  TruncateColumnCount : Z;
  QueryTimeout : Z;
  ScatterErrorsAsWarnings : bool;
}.

(** What an execution leaves behind: the warnings of the session, the counter
    [partialSuccessScatterQueries], the timeouts installed on the cursor and
    the number of cancel handles released. *)
Record World : Type := {
  warnings : list QueryWarning;
  partialSuccessScatterQueries : Z;
  timeouts : list Z;
  cancelled : Z;
}.

Definition RecordWarning (q : QueryWarning) (w : World) : World :=
  {| warnings := warnings w ++ [q];
     partialSuccessScatterQueries := partialSuccessScatterQueries w;
     timeouts := timeouts w; cancelled := cancelled w |}.

Definition partialSuccessScatterQueries_Add (n : Z) (w : World) : World :=
  {| warnings := warnings w;
     partialSuccessScatterQueries := partialSuccessScatterQueries w + n;
     timeouts := timeouts w; cancelled := cancelled w |}.

Definition SetContextTimeout (ms : Z) (w : World) : World :=
  {| warnings := warnings w;
     partialSuccessScatterQueries := partialSuccessScatterQueries w;
     timeouts := timeouts w ++ [ms]; cancelled := cancelled w |}.

Definition cancel (w : World) : World :=
  {| warnings := warnings w;
     partialSuccessScatterQueries := partialSuccessScatterQueries w;
     timeouts := timeouts w; cancelled := cancelled w + 1 |}.

(** *** Sorting through the Less/Swap interface *)

(** A run of a sorting procedure as [sort.Slice] sees its data: it asks
    [Less(i, j)], continues on the answer, and swaps elements. *)
Inductive lessSwap : Type :=
  | Stop
  | Less (i j : nat) (k : bool -> lessSwap)
  | Swap (i j : nat) (k : lessSwap).

(** [insertionSort_func(data, a, b)] of Go's [sort] package:
    [for i := a + 1; i < b; i++ {
       for j := i; j > a && data.Less(j, j-1); j-- { data.Swap(j, j-1) } }]. *)
Fixpoint insertionInner (a j : nat) (k : lessSwap) : lessSwap :=
  match j with
  | O => k
  | S j' =>
      if (a <? j)%nat then
        Less j j' (fun b => if b then Swap j j' (insertionInner a j' k) else k)
      else k
  end.

Fixpoint insertionOuter (a i count : nat) : lessSwap :=
  match count with
  | O => Stop
  | S c => insertionInner a i (insertionOuter a (S i) c)
  end.

Definition insertionSort_func (a b : nat) : lessSwap :=
  insertionOuter a (a + 1) (b - (a + 1)).

(** What [sort.Slice] runs on a slice of [n] elements when [n] is at most 6:
    the insertion sort alone. Longer slices first go through passes that
    differ between releases of Go. *)
Definition sortSlice_short (n : nat) : lessSwap := insertionSort_func 0 n.

(** A run that only names positions below [n], as a sorting procedure does
    on a slice of [n] elements. *)
Inductive inRange (n : nat) : lessSwap -> Prop :=
  | inRange_Stop : inRange n Stop
  | inRange_Less (i j : nat) (k : bool -> lessSwap) :
      (i < n)%nat -> (j < n)%nat -> (forall b, inRange n (k b)) ->
      inRange n (Less i j k)
  | inRange_Swap (i j : nat) (k : lessSwap) :
      (i < n)%nat -> (j < n)%nat -> inRange n k -> inRange n (Swap i j k).

Section WithCollaborators.

(** What the package takes from outside the sources at hand: the
    collaborators of the evaluation engine, the procedure that [sort.Slice]
    runs on a slice of a given length, the number and the text that
    [mysql.NewSQLErrorFromError] and [error.Error] give for an error, and the
    routing of information_schema queries ([paramsSystemQuery] evaluates
    expressions of the evaluation engine and asks the cursor for routed
    tables; it changes the bind variables in place, so it also hands back the
    bind variables as it leaves them). *)
Variable ee : evalengine.Collaborators.
Variable sortSlice : nat -> lessSwap.
Variable SQLError_Num : error -> Z.
Variable Error_text : error -> string.
Variable paramsSystemQuery :
  Route -> VCursor -> gmap string BindVariable ->
  res (list ResolvedShard * list (gmap string BindVariable))
  * gmap string BindVariable.

(** Modelled from the spec: the slice expression [xs[:l]] of
    [Result.Truncate]; a slice cannot be cut beyond its length. *)
Definition truncateSlice {A : Type} (l : Z) (xs : list A) : option (list A) :=
  if (0 <=? l) && (l <=? Z.of_nat (length xs)) then Some (take (Z.to_nat l) xs)
  else None.

(** Modelled from the spec: [Result.Truncate] belongs to [sqltypes]. Section
    3: "0 means no truncation; else each result is trimmed to this many
    leading columns". A nil result cannot be trimmed; an empty [Fields]
    stands for the nil slice, which is left alone. *)
Definition Truncate (result : option Result) (l : Z)
  : outcome (option Result) :=
  if l =? 0 then Returns result
  else
    match result with
    | None => Panics
    | Some r =>
        let fields :=
          match Fields r with
          | [] => Some []
          | fs => truncateSlice l fs
          end in
        match fields, mapM (truncateSlice l) (Rows r) with
        | Some fs, Some rows =>
            Returns (Some {| Fields := fs; RowsAffected := RowsAffected r;
                             InsertID := InsertID r; Rows := rows |})
        | _, _ => Panics
        end
    end.

(** Modelled from the spec: the column that a comparer reads. Section 4.3
    ("Row comparator"): "the column at weight_string_col if that field is
    >= 0 and /= col, else at col (or star_col_fixed_index if it exceeds
    col)". *)
Definition comparerColumn (c : OrderByParams) : Z :=
  if (0 <=? WeightStringCol c) && negb (WeightStringCol c =? Col c) then
    WeightStringCol c
  else if Col c <? StarColFixedIndex c then StarColFixedIndex c
  else Col c.

(** The index expression [r[i]]; [None] is the panic of an index out of
    range. *)
Definition column (r : list Value) (i : Z) : option Value :=
  if i <? 0 then None else r !! Z.to_nat i.

(** Modelled from the spec: [extractSlices] and [comparer.compare] are defined
    in another file of the package. Section 4.3 ("Row comparator"): "compare
    row[i] vs row[j] using the column [...]. Direction inverted when
    descending", the comparison being [NullsafeCompare] under the collation of
    the [OrderByParams]. *)
Definition compare (c : OrderByParams) (r1 r2 : list Value)
  : outcome (res Z) :=
  match column r1 (comparerColumn c), column r2 (comparerColumn c) with
  | Some x, Some y =>
      match evalengine.NullsafeCompare ee x y (CollationID c) with
      | Fail err => Returns (Fail err)
      | Ok cmp => Returns (Ok (if Desc c then - cmp else cmp))
      end
  | _, _ => Panics
  end.

(** A row that has every column the comparers look at. *)
Definition wide (comparers : list OrderByParams) (r : list Value) : Prop :=
  Forall (fun c => is_Some (column r (comparerColumn c))) comparers.

(** Two rows tie when every comparer finds them equal. *)
Definition tie (comparers : list OrderByParams) (r1 r2 : list Value) : Prop :=
  Forall (fun c => compare c r1 r2 = Returns (Ok 0)) comparers.

(** Stability of a sort from the rows [inp] to the rows [out]: two rows that
    tie and arrive in one order leave in that order. *)
Definition stable (comparers : list OrderByParams)
    (inp out : list (list Value)) : Prop :=
  forall (i j : nat) (r1 r2 : list Value),
    (i < j)%nat -> inp !! i = Some r1 -> inp !! j = Some r2 ->
    tie comparers r1 r2 ->
    exists i' j' : nat,
      (i' < j')%nat /\ out !! i' = Some r1 /\ out !! j' = Some r2.

(** The state that the closure given to [sort.Slice] works on: the rows being
    sorted and the captured [err]. [calls] is not in the Go code: it keeps the
    results of the comparator calls made so far, for the statements below. *)
Record sortState : Type := {
  rows : list (list Value);
  err : option error;
  calls : list (res Z);
}.

(** What [calls] looks like while the closure keeps its promise: with no
    error captured every call so far succeeded; with the error [e] captured,
    the last call made is the one that failed with [e], and it is the only
    failure. *)
Definition firstErrorKept (st : sortState) : Prop :=
  match err st with
  | None => Forall is_Ok (calls st)
  | Some e => exists l, calls st = l ++ [Fail e] /\ Forall is_Ok l
  end.

(** The body of the loop over the comparers: the answer of [less], the error
    it leaves in [err], and the comparator calls it made. *)
Fixpoint lessLoop (comparers : list OrderByParams) (ri rj : list Value)
  : outcome (bool * option error * list (res Z)) :=
  match comparers with
  | [] => Returns (true, None, [])
  | c :: cs =>
      match compare c ri rj with
      | Panics => Panics
      | Returns (Fail e) => Returns (true, Some e, [Fail e])
      | Returns (Ok cmp) =>
          if cmp =? 0 then
            match lessLoop cs ri rj with
            | Panics => Panics
            | Returns (b, e, l) => Returns (b, e, Ok cmp :: l)
            end
          else Returns (cmp <? 0, None, [Ok cmp])
      end
  end.

(** The closure [func(i, j int) bool] of [Route.sort]. *)
Definition less (comparers : list OrderByParams) (i j : nat) (st : sortState)
  : outcome (bool * sortState) :=
  match err st with
  | Some _ => Returns (true, st)
  | None =>
      match rows st !! i, rows st !! j with
      | Some ri, Some rj =>
          match lessLoop comparers ri rj with
          | Panics => Panics
          | Returns (b, e, l) =>
              Returns (b, {| rows := rows st; err := e;
                             calls := calls st ++ l |})
          end
      | _, _ => Panics
      end
  end.

(** The swapper that [sort.Slice] builds for the slice. *)
Definition swap (i j : nat) (st : sortState) : outcome sortState :=
  match rows st !! i, rows st !! j with
  | Some ri, Some rj =>
      Returns {| rows := <[j := ri]> (<[i := rj]> (rows st));
                 err := err st; calls := calls st |}
  | _, _ => Panics
  end.

Fixpoint run (comparers : list OrderByParams) (p : lessSwap) (st : sortState)
  : outcome sortState :=
  match p with
  | Stop => Returns st
  | Less i j k =>
      match less comparers i j st with
      | Panics => Panics
      | Returns (b, st') => run comparers (k b) st'
      end
  | Swap i j k =>
      match swap i j st with
      | Panics => Panics
      | Returns st' => run comparers k st'
      end
  end.

(** [Route.sort], with the final state of the closure; [sort] below drops
    it. *)
Definition sortRun (route : Route) (inp : Result) : outcome sortState :=
  run (OrderBy route) (sortSlice (length (Rows inp)))
    {| rows := Rows inp; err := None; calls := [] |}.

Definition sort (route : Route) (inp : Result)
  : outcome (option Result * option error) :=
  match sortRun route inp with
  | Panics => Panics
  | Returns st =>
      Returns (Some {| Fields := Fields inp; RowsAffected := RowsAffected inp;
                       InsertID := InsertID inp; Rows := rows st |},
               err st)
  end.

(** *** Shard resolution and parameter fan-out *)

Definition resolveShards (vcursor : VCursor) (vindex : SingleColumn)
    (keyspace : Keyspace) (vindexKeys : list Value)
  : res (list ResolvedShard * list (list querypb_Value)) :=
  let ids := ValueToProto <$> vindexKeys in
  let* destinations := Map vindex vindexKeys in
  ResolveDestinations vcursor (Keyspace_Name keyspace) (Some ids) destinations.

Definition shardVars (bv : gmap string BindVariable)
    (mapVals : list (list querypb_Value)) : list (gmap string BindVariable) :=
  (fun vals =>
     <[ListVarName := {| bv_Type := Tuple; bv_Value := ""; bv_Values := vals |}]>
       bv) <$> mapVals.

(** The tuple that the bind variables of a shard carry under
    [ListVarName]. *)
Definition listVarTuple (bv : gmap string BindVariable)
  : list querypb_Value :=
  match bv !! ListVarName with
  | Some b => bv_Values b
  | None => []
  end.

Definition getQueries (query : string) (bvs : list (gmap string BindVariable))
  : list BoundQuery :=
  (fun bv => {| Sql := query; BindVariables := bv |}) <$> bvs.

Definition paramsAllShards (route : Route) (vcursor : VCursor)
    (bindVars : gmap string BindVariable)
  : res (list ResolvedShard * list (gmap string BindVariable)) :=
  let* '(rss, _) :=
    ResolveDestinations vcursor (Keyspace_Name (Route_Keyspace route)) None
      [DestinationAllShards] in
  Ok (rss, replicate (length rss) bindVars).

Definition paramsAnyShard (route : Route) (vcursor : VCursor)
    (bindVars : gmap string BindVariable)
  : res (list ResolvedShard * list (gmap string BindVariable)) :=
  let* '(rss, _) :=
    ResolveDestinations vcursor (Keyspace_Name (Route_Keyspace route)) None
      [DestinationAnyShard] in
  Ok (rss, replicate (length rss) bindVars).

Definition paramsSelectEqual (route : Route) (vcursor : VCursor)
    (bindVars : gmap string BindVariable)
  : res (list ResolvedShard * list (gmap string BindVariable)) :=
  let* value := ResolveValue (Route_Value route) bindVars in
  let* '(rss, _) :=
    resolveShards vcursor (Vindex route) (Route_Keyspace route) [value] in
  Ok (rss, replicate (length rss) bindVars).

Definition paramsSelectIn (route : Route) (vcursor : VCursor)
    (bindVars : gmap string BindVariable)
  : res (list ResolvedShard * list (gmap string BindVariable)) :=
  let* value := ResolveList (Route_Value route) bindVars in
  let* '(rss, values) :=
    resolveShards vcursor (Vindex route) (Route_Keyspace route) value in
  Ok (rss, shardVars bindVars values).

Definition paramsSelectMultiEqual (route : Route) (vcursor : VCursor)
    (bindVars : gmap string BindVariable)
  : res (list ResolvedShard * list (gmap string BindVariable)) :=
  let* value := ResolveList (Route_Value route) bindVars in
  let* '(rss, _) :=
    resolveShards vcursor (Vindex route) (Route_Keyspace route) value in
  Ok (rss, replicate (length rss) bindVars).

(** *** Blocking execution *)

Fixpoint filterNil (errs : list (option error)) : list (option error) :=
  match errs with
  | [] => []
  | Some e :: rest => Some e :: filterNil rest
  | None :: rest => filterNil rest
  end.

(** [filterOutNilErrors]: the result is the nil slice when nothing is kept. *)
Definition filterOutNilErrors (errs : slice (option error))
  : slice (option error) :=
  match errs with
  | None => None
  | Some l =>
      match filterNil l with
      | [] => None
      | l' => Some l'
      end
  end.

(** [vterrors.Aggregate] on a slice. *)
Definition Aggregate_slice (errs : slice (option error)) : option error :=
  Aggregate (omap id (default [] errs)).

Definition execShard (vcursor : VCursor) (query : string)
    (bindVars : gmap string BindVariable) (rs : ResolvedShard)
    (rollbackOnError canAutocommit : bool) : option Result * option error :=
  let autocommit := canAutocommit && AutocommitApproval vcursor in
  let '(result, errs) :=
    ExecuteMultiShard vcursor [rs]
      [{| Sql := query; BindVariables := bindVars |}]
      rollbackOnError autocommit in
  (result, Aggregate_slice errs).

(** [Route.GetFields] fetches the field info. *)
Definition GetFields (route : Route) (vcursor : VCursor)
    (bindVars : gmap string BindVariable)
  : outcome (option Result * option error) :=
  match ResolveDestinations vcursor (Keyspace_Name (Route_Keyspace route))
          None [DestinationAnyShard] with
  | Fail e => Returns (None, Some e)
  | Ok (rss, _) =>
      match rss with
      | [rs] =>
          match execShard vcursor (FieldQuery route) bindVars rs false false
          with
          | (_, Some e) => Returns (None, Some e)
          | (qr, None) =>
              match Truncate qr (TruncateColumnCount route) with
              | Panics => Panics
              | Returns r => Returns (r, None)
              end
          end
      | _ => Returns (None, Some (fmtError "no shards for keyspace: %s"))
      end
  end.

(** The warning recorded for a shard error. *)
Definition warningOf (e : error) : QueryWarning :=
  {| Code := SQLError_Num e; Message := Error_text e |}.

Definition recordWarnings (errs : slice (option error)) (w : World) : World :=
  foldl (fun w e => RecordWarning (warningOf e) w) w
    (omap id (default [] errs)).

(** The switch on the opcode that opens [executeInternal]: the shards, the
    bind variables of each shard, and the bind variables of the call as the
    switch leaves them. *)
Definition routeParams (route : Route) (vcursor : VCursor)
    (bindVars : gmap string BindVariable)
  : res (list ResolvedShard * list (gmap string BindVariable))
    * gmap string BindVariable :=
  match Opcode route with
  | SelectDBA => paramsSystemQuery route vcursor bindVars
  | SelectUnsharded | SelectNext | SelectReference =>
      (paramsAnyShard route vcursor bindVars, bindVars)
  | SelectScatter => (paramsAllShards route vcursor bindVars, bindVars)
  | SelectEqual | SelectEqualUnique =>
      (paramsSelectEqual route vcursor bindVars, bindVars)
  | SelectIN => (paramsSelectIn route vcursor bindVars, bindVars)
  | SelectMultiEqual =>
      (paramsSelectMultiEqual route vcursor bindVars, bindVars)
  | SelectNone => (Ok ([], []), bindVars)
  | NumRouteOpcodes =>
      (Fail (Errorf Code_INTERNAL "unsupported query route: %v"), bindVars)
  end.

Definition executeInternal (route : Route) (vcursor : VCursor)
    (bindVars : gmap string BindVariable) (wantfields : bool) (w : World)
  : outcome (option Result * option error) * World :=
  let '(params, bindVars) := routeParams route vcursor bindVars in
  match params with
  | Fail e => (Returns (None, Some e), w)
  | Ok (rss, bvs) =>
      if bool_decide (length rss = 0%nat) then
        if wantfields then (GetFields route vcursor bindVars, w)
        else (Returns (Some emptyResult, None), w)
      else
        let queries := getQueries (Query route) bvs in
        let '(result, errs) :=
          ExecuteMultiShard vcursor rss queries false false in
        let continue (w : World) :=
          if bool_decide (length (OrderBy route) = 0%nat) then
            (Returns (result, None), w)
          else
            match result with
            | None => (Panics, w)
            | Some r => (sort route r, w)
            end in
        match errs with
        | None => continue w
        | Some _ =>
            let errs := filterOutNilErrors errs in
            if negb (ScatterErrorsAsWarnings route)
               || bool_decide (len errs = length rss) then
              (Returns (None, Aggregate_slice errs), w)
            else
              continue
                (recordWarnings errs (partialSuccessScatterQueries_Add 1 w))
        end
  end.

(** [Route.TryExecute] performs a non-streaming exec. The deferred [cancel]
    runs on every way out. *)
Definition TryExecute (route : Route) (vcursor : VCursor)
    (bindVars : gmap string BindVariable) (wantfields : bool) (w : World)
  : outcome (option Result * option error) * World :=
  let timed := negb (QueryTimeout route =? 0) in
  let w := if timed then SetContextTimeout (QueryTimeout route) w else w in
  let '(out, w) := executeInternal route vcursor bindVars wantfields w in
  let w := if timed then cancel w else w in
  match out with
  | Panics => (Panics, w)
  | Returns (_, Some e) => (Returns (None, Some e), w)
  | Returns (qr, None) =>
      match Truncate qr (TruncateColumnCount route) with
      | Panics => (Panics, w)
      | Returns r => (Returns (r, None), w)
      end
  end.

End WithCollaborators.

(** *** The other helpers of the file *)

(** Modelled from the spec: the two reserved bind-variable names are
    constants of [sqltypes], declared outside the sources at hand; section 6
    gives their literals. *)
Definition BvSchemaName : string := "__vtschemaname".
Definition BvReplaceSchemaName : string := "__replacevtschemaname".

(** Modelled from the spec: [sqltypes.Int64BindVariable] is declared outside
    the sources at hand; scenario 6 binds [__replacevtschemaname = 1], an
    [Int64] with the decimal bytes of the number. *)
Definition Int64BindVariable (v : Z) : BindVariable :=
  {| bv_Type := Int64; bv_Value := AppendInt v; bv_Values := [] |}.

(** [setReplaceSchemaName]: [delete(bindVars, BvSchemaName)], then
    [bindVars[BvReplaceSchemaName] = Int64BindVariable(1)]. *)
Definition setReplaceSchemaName (bindVars : gmap string BindVariable)
  : gmap string BindVariable :=
  <[BvReplaceSchemaName := Int64BindVariable 1]> (delete BvSchemaName bindVars).

(** [resolveSingleShard]: the shard, the keyspace id and the error. The index
    expression [destinations[0]] panics on an empty slice. *)
Definition resolveSingleShard (vcursor : VCursor) (vindex : SingleColumn)
    (keyspace : Keyspace) (vindexKey : Value)
  : outcome (option ResolvedShard * option string * option error) :=
  match Map vindex [vindexKey] with
  | Fail e => Returns (None, None, Some e)
  | Ok destinations =>
      match destinations with
      | [] => Panics
      | DestinationKeyspaceID ksid :: _ =>
          match ResolveDestinations vcursor (Keyspace_Name keyspace) None
                  destinations with
          | Fail e => Returns (None, None, Some e)
          | Ok (rss, _) =>
              match rss with
              | [rs] => Returns (Some rs, Some ksid, None)
              | _ =>
                  Returns (None, None,
                           Some (fmtError "ResolveDestinations maps to %v shards"))
              end
          end
      | DestinationNone :: _ => Returns (None, None, None)
      | _ :: _ =>
          Returns (None, None,
                   Some (fmtError "cannot map vindex to unique keyspace id: %v"))
      end
  end.

(** [resolveMultiShard]. *)
Definition resolveMultiShard (vcursor : VCursor) (vindex : SingleColumn)
    (keyspace : Keyspace) (vindexKey : list Value)
  : res (list ResolvedShard) :=
  let* destinations := Map vindex vindexKey in
  let* '(rss, _) :=
    ResolveDestinations vcursor (Keyspace_Name keyspace) None destinations in
  Ok rss.

(** [resolveKeyspaceID]: the keyspace id (nil for [DestinationNone]) and the
    error. *)
Definition resolveKeyspaceID (vindex : SingleColumn) (vindexKey : Value)
  : outcome (option string * option error) :=
  match Map vindex [vindexKey] with
  | Fail e => Returns (None, Some e)
  | Ok destinations =>
      match destinations with
      | [] => Panics
      | DestinationKeyspaceID ksid :: _ => Returns (Some ksid, None)
      | DestinationNone :: _ => Returns (None, None)
      | _ :: _ =>
          Returns (None,
                   Some (fmtError "cannot map vindex to unique keyspace id: %v"))
      end
  end.

End engine.

(* ------------------------------------------------------------------------- *)
(** ** [planbuilder]: the route of the gen4 planner *)

Module planbuilder.
Import engine.

Section WithCollaborators.

(** What the package takes from outside the sources at hand: the expressions
    of [evalengine] and of [sqlparser], the comparison [valEqual] of two
    conditions, and the equality [==] of two vindexes as interface values. *)
Variable evalengine_Expr : Type.
Variable sqlparser_Expr : Type.
Variable valEqual : sqlparser_Expr -> sqlparser_Expr -> bool.
Variable sameVindex : SingleColumn -> SingleColumn -> bool.

(** [routeGen4], with the fields that the functions below read. The two
    fields [SysTableTableSchema] and [SysTableTableName] belong to
    [engine.Route], where the record above leaves them out; they are kept
    here, next to the route. *)
Record routeGen4 : Type := {
  eroute : Route;
  SysTableTableSchema : list evalengine_Expr;
  SysTableTableName : list (string * evalengine_Expr);
  condition : sqlparser_Expr;
}.

#[local] Instance RouteOpcode_eq_dec : EqDecision RouteOpcode.
Proof. solve_decision. Defined.

Definition isSingleShard (rb : routeGen4) : bool :=
  match Opcode (eroute rb) with
  | SelectUnsharded | SelectDBA | SelectNext | SelectEqualUnique
  | SelectReference => true
  | _ => false
  end.

Definition unionCanMerge (rb other : routeGen4) (distinct : bool) : bool :=
  if negb (String.eqb (Keyspace_Name (Route_Keyspace (eroute rb)))
                      (Keyspace_Name (Route_Keyspace (eroute other)))) then
    false
  else
    match Opcode (eroute rb) with
    | SelectUnsharded | SelectReference =>
        bool_decide (Opcode (eroute rb) = Opcode (eroute other))
    | SelectDBA =>
        bool_decide (Opcode (eroute other) = SelectDBA)
        && bool_decide (length (SysTableTableSchema rb) = 0%nat)
        && bool_decide (length (SysTableTableName rb) = 0%nat)
        && bool_decide (length (SysTableTableSchema other) = 0%nat)
        && bool_decide (length (SysTableTableName other) = 0%nat)
    | SelectEqualUnique =>
        if bool_decide (Opcode (eroute other) = SelectEqualUnique)
           && sameVindex (Vindex (eroute rb)) (Vindex (eroute other))
           && valEqual (condition rb) (condition other)
        then true else false
    | SelectScatter =>
        bool_decide (Opcode (eroute other) = SelectScatter) && negb distinct
    | SelectNext => false
    | _ => false
    end.

End WithCollaborators.

Arguments eroute {_ _} _.
Arguments SysTableTableSchema {_ _} _.
Arguments SysTableTableName {_ _} _.
Arguments condition {_ _} _.
Arguments isSingleShard {_ _} _.
Arguments unionCanMerge {_ _} _ _ _ _ _.

End planbuilder.

(* ------------------------------------------------------------------------- *)
(** ** The vocabulary of the statements *)

(** The three numeric forms that the arithmetic dispatches on. *)
Definition numericForm (t : sqltypes.querypb_Type) : Prop :=
  t = sqltypes.Int64 \/ t = sqltypes.Uint64 \/ t = sqltypes.Float64.

(** A call that succeeds, or fails with the out-of-range error and with no
    other. *)
Definition failsOnlyOutOfRange {A : Type} (r : vterrors.res A) : Prop :=
  vterrors.is_Ok r \/ vterrors.is_DataOutOfRange r.

(* ------------------------------------------------------------------------- *)
(** ** Concrete routes and cursors for the scenarios *)

Module scenarios.
Import Go sqltypes vterrors engine.

Definition ks : Keyspace := {| Keyspace_Name := "ks"; Sharded := true |}.
Definition s1 : ResolvedShard := {| rs_Keyspace := "ks"; rs_Shard := "s1" |}.
Definition s2 : ResolvedShard := {| rs_Keyspace := "ks"; rs_Shard := "s2" |}.
Definition s3 : ResolvedShard := {| rs_Keyspace := "ks"; rs_Shard := "s3" |}.

(** A keyspace of three shards: the keyspace ids [1] and [3] live on [s1],
    [2] on [s2], every other id on [s3]. *)
Definition topo (keyspace : string) (d : Destination) : res (list string) :=
  match d with
  | DestinationKeyspaceID ksid =>
      if String.eqb ksid "1" || String.eqb ksid "3" then Ok ["s1"]
      else if String.eqb ksid "2" then Ok ["s2"]
      else Ok ["s3"]
  | DestinationAllShards => Ok ["s1"; "s2"; "s3"]
  | DestinationAnyShard => Ok ["s1"]
  | DestinationNone => Ok []
  end.

(** A vindex that maps a key to the keyspace id it spells (scenario 2), and
    one that has no entry for the key [2], as a lookup vindex may. *)
Definition spelled : SingleColumn :=
  {| Map := fun keys =>
       Ok ((fun k => DestinationKeyspaceID (Value_val k)) <$> keys) |}.

Definition sparse : SingleColumn :=
  {| Map := fun keys =>
       Ok ((fun k => if String.eqb (Value_val k) "2" then DestinationNone
                     else DestinationKeyspaceID (Value_val k)) <$> keys) |}.

Definition int64s (l : list string) : list Value := mkValue Int64 <$> l.

Definition inList : RouteValue :=
  {| ResolveValue := fun _ => Fail (fmtError "not a scalar");
     ResolveList := fun _ => Ok (int64s ["1"; "2"; "3"]) |}.

Definition route (opcode : RouteOpcode) (vindex : SingleColumn)
    (orderBy : list OrderByParams) (scatterErrorsAsWarnings : bool) : Route :=
  {| Opcode := opcode; Route_Keyspace := ks;
     TargetDestination := None; TargetTabletType := 0;
     Query := "select c from t"; TableName := "t";
     FieldQuery := "select c from t where 1 != 1";
     Vindex := vindex; Route_Value := inList; OrderBy := orderBy;
     TruncateColumnCount := 0; QueryTimeout := 0;
     ScatterErrorsAsWarnings := scatterErrorsAsWarnings |}.

(** Ascending order on column 0, with no weight string and no collation. *)
Definition byCol0 : OrderByParams :=
  {| Col := 0; WeightStringCol := -1; Desc := false; StarColFixedIndex := 0;
     FromGroupBy := false; CollationID := collations.Unknown |}.

Definition result (rows : list (list Value)) : Result :=
  {| Fields := []; RowsAffected := 0; InsertID := 0; Rows := rows |}.

(** A cursor on that keyspace whose shards answer with [rows] and [errs]. *)
Definition cursor (rows : list (list Value)) (errs : slice (option error))
  : VCursor :=
  {| Topo := topo;
     ExecuteMultiShard := fun _ _ _ _ => (Some (result rows), errs);
     AutocommitApproval := false |}.

Definition shardDown : error :=
  vterror Code_UNKNOWN Undefined "target: ks.s2.primary: connection refused".

(** The second of three shards fails. *)
Definition s2Fails : slice (option error) := Some [None; Some shardDown; None].

Definition noSystemQuery (r : Route) (vc : VCursor)
    (bv : gmap string BindVariable)
  : res (list ResolvedShard * list (gmap string BindVariable))
    * gmap string BindVariable :=
  (Fail (Errorf Code_INTERNAL "no information_schema routing here"), bv).

Definition sqlErrorNum (e : error) : Z := 1105.
Definition errorText (e : error) : string :=
  match e with
  | vterror _ _ format => format
  | _ => "error"
  end.

Definition emptyWorld : World :=
  {| warnings := []; partialSuccessScatterQueries := 0; timeouts := [];
     cancelled := 0 |}.

Definition ee : evalengine.Collaborators := evalengine.integerCollaborators.

(** Every shard answers, and the cursor still hands back a slice of errors:
    three nil entries. *)
Definition allAnswer : slice (option error) := Some [None; None; None].

(** A route of the gen4 planner around an engine route, with no predicate on
    the system tables; conditions are compared as text and every two vindexes
    are taken to be the same. *)
Definition gen4 (r : Route) (cond : string) : planbuilder.routeGen4 unit string :=
  {| planbuilder.eroute := r;
     planbuilder.SysTableTableSchema := [];
     planbuilder.SysTableTableName := [];
     planbuilder.condition := cond |}.

Definition sameVindex (v1 v2 : SingleColumn) : bool := true.

End scenarios.

(* ------------------------------------------------------------------------- *)
(** ** Properties of the evaluation engine *)

Import Go sqltypes vterrors.

Section EvalEngineProperties.
Import evalengine.

Lemma uint64_range (x : Z) : 0 <= uint64 x < 2 ^ 64.
Proof. unfold uint64. apply Z.mod_pos_bound. lia. Qed.

Lemma int64_range (x : Z) : - 2 ^ 63 <= int64 x < 2 ^ 63.
Proof.
  unfold int64. pose proof (Z.mod_pos_bound (x + 2 ^ 63) (2 ^ 64)). lia.
Qed.

Lemma int64_small (x : Z) : - 2 ^ 63 <= x < 2 ^ 63 -> int64 x = x.
Proof.
  intros H. unfold int64. rewrite Z.mod_small by lia. lia.
Qed.

Lemma uint64_small (x : Z) : 0 <= x < 2 ^ 64 -> uint64 x = x.
Proof. intros H. unfold uint64. apply Z.mod_small. lia. Qed.

(** Above the signed range the sum wraps by [2 ^ 64]. *)
Lemma int64_wrap_high (x : Z) :
  2 ^ 63 <= x < 2 ^ 64 -> int64 x = x - 2 ^ 64.
Proof.
  intros H. unfold int64.
  replace (x + 2 ^ 63) with (x - 2 ^ 63 + 1 * 2 ^ 64) by lia.
  rewrite Z.mod_add by lia. rewrite Z.mod_small by lia. lia.
Qed.

Lemma int64_wrap_low (x : Z) :
  - 2 ^ 64 <= x < - 2 ^ 63 -> int64 x = x + 2 ^ 64.
Proof.
  intros H. unfold int64.
  replace (x + 2 ^ 63) with (x + 2 ^ 64 + 2 ^ 63 + (-1) * 2 ^ 64) by lia.
  rewrite Z.mod_add by lia. rewrite Z.mod_small by lia. lia.
Qed.

(** The signed reading of raw bits, on the two halves of the unsigned
    range. *)
Lemma int64_of_uint64_low (x : Z) : 0 <= x < 2 ^ 63 -> int64 x = x.
Proof. intros H. apply int64_small. lia. Qed.

(** X1. [intPlusIntWithError] is exact: it fails on every overflow and on
    nothing else. *)
Lemma intPlusIntWithError_exact (a b : Z) :
  is_int64 a -> is_int64 b ->
  (is_int64 (a + b) ->
   intPlusIntWithError (uint64 a) (uint64 b) = Ok (evalNum Int64 (uint64 (a + b))))
  /\ (~ is_int64 (a + b) ->
      is_DataOutOfRange (intPlusIntWithError (uint64 a) (uint64 b))).
Proof.
  unfold is_int64. intros Ha Hb.
  assert (Ea : int64 (uint64 a) = a).
  { unfold int64, uint64. rewrite Zplus_mod_idemp_l.
    fold (int64 a). by apply int64_small. }
  assert (Eb : int64 (uint64 b) = b).
  { unfold int64, uint64. rewrite Zplus_mod_idemp_l.
    fold (int64 b). by apply int64_small. }
  unfold intPlusIntWithError. rewrite Ea, Eb. split.
  - intros Hs. rewrite (int64_small (a + b)) by done.
    destruct (Z.ltb_spec a (a + b)), (Z.ltb_spec 0 b); simpl; try lia; done.
  - intros Hs. unfold is_DataOutOfRange, dataOutOfRangeError, NewErrorf.
    destruct (Z_lt_ge_dec (a + b) 0) as [Hn | Hp].
    + rewrite (int64_wrap_low (a + b)) by lia.
      destruct (Z.ltb_spec a (a + b + 2 ^ 64)), (Z.ltb_spec 0 b); simpl;
        try lia; eauto.
    + rewrite (int64_wrap_high (a + b)) by lia.
      destruct (Z.ltb_spec a (a + b - 2 ^ 64)), (Z.ltb_spec 0 b); simpl;
        try lia; eauto.
Qed.

(** Raw bits that hold a signed value read back as that value. *)
Lemma int64_uint64 (a : Z) : is_int64 a -> int64 (uint64 a) = a.
Proof.
  intros Ha. unfold int64, uint64. rewrite Zplus_mod_idemp_l.
  fold (int64 a). by apply int64_small.
Qed.

(** X2. [intPlusInt] keeps the sum when it fits, and promotes an overflow to
    the float sum, except for the one overflow whose wrapped result is
    zero. *)
Lemma intPlusInt_cases (a b : Z) :
  is_int64 a -> is_int64 b ->
  (is_int64 (a + b) ->
   intPlusInt (uint64 a) (uint64 b) = evalNum Int64 (uint64 (a + b)))
  /\ (~ is_int64 (a + b) -> a + b <> - 2 ^ 64 ->
      intPlusInt (uint64 a) (uint64 b)
      = evalNum Float64 (Float64bits (fadd (float64_of_Z a) (float64_of_Z b)))).
Proof.
  intros Ha Hb. unfold intPlusInt.
  rewrite !int64_uint64 by done. unfold is_int64 in *. split.
  - intros Hs. rewrite (int64_small (a + b)) by done.
    destruct (Z.ltb_spec 0 a), (Z.ltb_spec 0 b), (Z.ltb_spec (a + b) 0),
      (Z.ltb_spec a 0), (Z.ltb_spec b 0), (Z.ltb_spec 0 (a + b));
      simpl; try lia; done.
  - intros Hs Hm. destruct (Z_lt_ge_dec (a + b) 0) as [Hn | Hp].
    + rewrite (int64_wrap_low (a + b)) by lia.
      destruct (Z.ltb_spec 0 a), (Z.ltb_spec 0 b),
        (Z.ltb_spec (a + b + 2 ^ 64) 0),
        (Z.ltb_spec a 0), (Z.ltb_spec b 0), (Z.ltb_spec 0 (a + b + 2 ^ 64));
        simpl; try lia; done.
    + rewrite (int64_wrap_high (a + b)) by lia.
      destruct (Z.ltb_spec 0 a), (Z.ltb_spec 0 b),
        (Z.ltb_spec (a + b - 2 ^ 64) 0);
        simpl; try lia; done.
Qed.

(** The overflow of scenario 4: [MaxInt64 + 1] is refused by the checked
    variant and becomes the float [2 ^ 63] in the promoting one. *)
Example intPlusInt_MaxInt64_plus_1 :
  is_DataOutOfRange (intPlusIntWithError (uint64 MaxInt64) (uint64 1))
  /\ intPlusInt (uint64 MaxInt64) (uint64 1)
     = evalNum Float64 (Float64bits (float64_of_Z (2 ^ 63))).
Proof.
  split; [| by vm_compute].
  unfold is_DataOutOfRange. vm_compute. eauto.
Qed.

(** C5 (the code departs from the claim). The sum [MinInt64 + MinInt64]
    overflows [int64]; the checked addition refuses it, but [intPlusInt], and
    [addNumeric] through it, does not promote it to a float: the wrapped
    result is 0, which the test [result > 0] lets through, and the call
    returns [Int64 0]. *)
Theorem intPlusInt_MinInt64_twice :
  ~ is_int64 (MinInt64 + MinInt64)
  /\ is_DataOutOfRange
       (intPlusIntWithError (uint64 MinInt64) (uint64 MinInt64))
  /\ intPlusInt (uint64 MinInt64) (uint64 MinInt64) = evalNum Int64 0
  /\ (forall env,
        addNumeric env (evalNum Int64 (uint64 MinInt64))
          (evalNum Int64 (uint64 MinInt64))
        = Some (evalNum Int64 0))
  /\ evalNum Int64 0
     <> evalNum Float64
          (Float64bits (fadd (float64_of_Z MinInt64) (float64_of_Z MinInt64))).
Proof.
  split; [unfold is_int64, MinInt64; lia |].
  split; [unfold is_DataOutOfRange; vm_compute; eauto |].
  split; [by vm_compute |].
  split; [intros env; by vm_compute | by vm_compute].
Qed.

(** X12. [uintTimesIntWithError] refuses a negative signed operand and an
    unsigned operand of [2 ^ 63] or more, whatever the other operand is. *)
Lemma uintTimesIntWithError_rejects (v1 v2 : Z) :
  is_uint64 v1 -> is_int64 v2 ->
  v2 < 0 \/ 2 ^ 63 <= v1 ->
  is_DataOutOfRange (uintTimesIntWithError v1 (uint64 v2)).
Proof.
  unfold is_uint64. intros H1 H2 H. unfold uintTimesIntWithError.
  rewrite int64_uint64 by done.
  assert (E : (v2 <? 0) || (int64 v1 <? 0) = true).
  { destruct H as [H | H].
    - apply orb_true_iff. left. by apply Z.ltb_lt.
    - apply orb_true_iff. right. rewrite int64_wrap_high by lia.
      apply Z.ltb_lt. lia. }
  rewrite E. unfold is_DataOutOfRange, dataOutOfRangeError, NewErrorf. eauto.
Qed.

(** C9 (the code departs from the claim). On operands that pass the two
    guards, [uintTimesIntWithError] is not the unsigned product with overflow
    refused: the test [result < v2 || result < v1] of
    [uintTimesUintWithError] lets the overflowing product
    [(2^32 + 1) * (2^32 + 1)] through, wrapped to [2^33 + 1], and refuses the
    product [0 * 5], which fits. *)
Theorem uintTimesIntWithError_overflow_test_slips :
  2 ^ 64 <= (2 ^ 32 + 1) * (2 ^ 32 + 1)
  /\ uintTimesIntWithError (2 ^ 32 + 1) (2 ^ 32 + 1)
     = Ok (evalNum Uint64 (2 ^ 33 + 1))
  /\ 0 * 5 < 2 ^ 64
  /\ is_DataOutOfRange (uintTimesIntWithError 0 5)
  /\ is_DataOutOfRange (uintTimesUintWithError 0 5).
Proof.
  split; [lia |]. split; [by vm_compute |]. split; [lia |].
  split; unfold is_DataOutOfRange; vm_compute; eauto.
Qed.

(** The public [Add] on the operands of scenario 4. *)
Example Add_MaxInt64_plus_1 (env : Collaborators) :
  exists code format,
    Add env (mkValue Int64 "9223372036854775807") (mkValue Int64 "1")
    = (NULL, Some (vterror code DataOutOfRange format)).
Proof. vm_compute. eauto. Qed.

(** C8 (amended). [CoerceTo] follows the promotion ladder, each rung applying when the
    rungs above it do not: equal types come back unchanged; otherwise a NULL
    side gives [Null]; otherwise two textual or binary sides give [VarChar];
    otherwise, when a side is numeric, a textual or binary side gives
    [Float64], a float or decimal side gives [Float64], signed against
    unsigned in either order gives [Uint64], signed against signed gives
    [Int64] and unsigned against unsigned gives [Uint64]; every pair that no
    rung takes fails with the [Code_UNIMPLEMENTED] error "types does not
    support hashcode yet", which reports the pair and is not the
    [UnsupportedComparisonError] of [NullsafeCompare]. *)
Theorem CoerceTo_promotion_ladder (t1 t2 : querypb_Type) :
  (t1 = t2 -> CoerceTo t1 t2 = Ok t1)
  /\ (t1 <> t2 ->
      (IsNull t1 || IsNull t2 = true -> CoerceTo t1 t2 = Ok Null)
      /\ (IsNull t1 || IsNull t2 = false ->
          (textual t1 && textual t2 = true -> CoerceTo t1 t2 = Ok VarChar)
          /\ (IsNumber t1 || IsNumber t2 = true ->
              (textual t1 || textual t2 = true -> CoerceTo t1 t2 = Ok Float64)
              /\ (floating t1 || floating t2 = true ->
                  CoerceTo t1 t2 = Ok Float64)
              /\ (IsSigned t1 && IsUnsigned t2 = true ->
                  CoerceTo t1 t2 = Ok Uint64)
              /\ (IsUnsigned t1 && IsSigned t2 = true ->
                  CoerceTo t1 t2 = Ok Uint64)
              /\ (IsSigned t1 && IsSigned t2 = true ->
                  CoerceTo t1 t2 = Ok Int64)
              /\ (IsUnsigned t1 && IsUnsigned t2 = true ->
                  CoerceTo t1 t2 = Ok Uint64))
          /\ (textual t1 && textual t2 = false ->
              (IsNumber t1 || IsNumber t2)
              && (textual t1 || textual t2 || floating t1 || floating t2
                  || (IsIntegral t1 && IsIntegral t2)) = false ->
              CoerceTo t1 t2 = Fail unsupportedCoercion))).
Proof.
  destruct t1, t2;
    (split; [intros E; first [discriminate E | reflexivity] |]);
    (intros Hne; first [by destruct Hne | clear Hne]);
    cbv; repeat split; intros; first [discriminate | reflexivity].
Qed.

(** C8, at a signed and an unsigned type. *)
Lemma CoerceTo_promotion_ladder_witness :
  CoerceTo Int32 Uint64 = Ok Uint64.
Proof.
  destruct (CoerceTo_promotion_ladder Int32 Uint64) as [_ H].
  destruct (H ltac:(discriminate)) as [_ H1].
  destruct (H1 eq_refl) as [_ [H2 _]].
  destruct (H2 eq_refl) as (_ & _ & H3 & _).
  exact (H3 eq_refl).
Defined.

(** C8 as stated fails: a signed integer against a date is a pair that no
    rung takes, and [CoerceTo] fails on it with the [Code_UNIMPLEMENTED]
    error of [vterrors], not with an [UnsupportedComparisonError]; so does
    [NullsafeCompare] on two such values, which returns the error of
    [CoerceTo] as it is. *)
Lemma CoerceTo_fails_with_unimplemented :
  CoerceTo Int64 Date
  = Fail (vterror Code_UNIMPLEMENTED Undefined
            "types does not support hashcode yet: %v vs %v")
  /\ (forall ty1 ty2,
        CoerceTo Int64 Date <> Fail (UnsupportedComparisonError ty1 ty2))
  /\ NullsafeCompare integerCollaborators (mkValue Int64 "1")
       (mkValue Date "2020-01-01") collations.Unknown
     = Fail (vterror Code_UNIMPLEMENTED Undefined
               "types does not support hashcode yet: %v vs %v").
Proof.
  split; [reflexivity |]. split; [| reflexivity].
  intros ty1 ty2 H. discriminate H.
Qed.

(** C6. [NullsafeCompare] has NULL as the strict minimum, whatever the
    collation: NULL is below every non-NULL value, every non-NULL value is
    above NULL, NULL equals NULL, and none of the three raises an error. *)
Theorem NullsafeCompare_NULL_least (env : Collaborators) (v : Value)
    (c : collations.ID) :
  Value_IsNull v = false ->
  NullsafeCompare env NULL v c = Ok (-1)
  /\ NullsafeCompare env v NULL c = Ok 1
  /\ NullsafeCompare env NULL NULL c = Ok 0.
Proof.
  intros H. unfold NullsafeCompare. rewrite H. simpl. done.
Qed.

(** C6, at [Int64 0] (scenario 5). *)
Lemma NullsafeCompare_NULL_least_witness :
  NullsafeCompare integerCollaborators NULL (mkValue Int64 "0") 33 = Ok (-1)
  /\ NullsafeCompare integerCollaborators (mkValue Int64 "0") NULL 33 = Ok 1
  /\ NullsafeCompare integerCollaborators NULL NULL 33 = Ok 0.
Proof.
  apply (NullsafeCompare_NULL_least integerCollaborators
           (mkValue Int64 "0") 33).
  reflexivity.
Defined.

(** An [Int64] zero is already numeric. *)
Lemma makeNumeric_number (env : Collaborators) (v : EvalResult) :
  IsNumber (typ v) = true -> makeNumeric env v = v.
Proof. intros H. unfold makeNumeric. by rewrite H. Qed.





(** What [newEvalResult] hands to the arithmetic becomes one of the three
    numeric forms. *)
Lemma newEvalResult_makeNumeric (env : Collaborators) (v : Value)
    (lv : EvalResult) :
  newEvalResult env v = Ok lv ->
  typ (makeNumeric env lv) = Int64
  \/ typ (makeNumeric env lv) = Uint64
  \/ typ (makeNumeric env lv) = Float64.
Proof.
  unfold newEvalResult, Value_IsBinary, Value_IsText, Value_IsSigned,
    Value_IsUnsigned, Value_IsFloat, Value_Type, Value_Raw.
  destruct v as [t raw]. simpl.
  assert (P : forall b, IsNumber (typ (evalBytes b raw)) = false ->
              typ (makeNumeric env (evalBytes b raw)) = Int64
              \/ typ (makeNumeric env (evalBytes b raw)) = Uint64
              \/ typ (makeNumeric env (evalBytes b raw)) = Float64).
  { intros b Hb. unfold makeNumeric. rewrite Hb. simpl.
    destruct (ParseInt raw); [by left |].
    destruct (ParseFloat env raw); [by right; right | by left]. }
  destruct (IsBinary t || IsText t) eqn:E1.
  { intros [= <-]. by apply P. }
  destruct (IsSigned t) eqn:E2.
  { destruct (ParseInt raw); intros [= <-]. by left. }
  destruct (IsUnsigned t) eqn:E3.
  { destruct (ParseUint raw); intros [= <-]. by right; left. }
  destruct (IsFloat t || bool_decide (t = Decimal)) eqn:E4.
  { destruct (ParseFloat env raw); intros [= <-]. by right; right. }
  intros [= <-]. apply P. simpl. unfold IsNumber, IsIntegral.
  rewrite E2, E3. simpl. apply orb_false_iff in E4 as [-> E4].
  simpl. exact E4.
Qed.

(** On the three numeric forms the dividend of [divideNumericWithError] is
    the float reading of the operand. *)
Lemma divideNumericWithError_coerce (env : Collaborators) (i1 i2 : EvalResult) :
  typ (makeNumeric env i1) = Int64
  \/ typ (makeNumeric env i1) = Uint64
  \/ typ (makeNumeric env i1) = Float64 ->
  divideNumericWithError env i1 i2
  = floatDivideAnyWithError (coerceToFloat (makeNumeric env i1))
      (makeNumeric env i2).
Proof.
  unfold divideNumericWithError, coerceToFloat.
  intros [-> | [-> | ->]]; reflexivity.
Qed.

(** A successful [ToFloat64] has read its value through [newEvalResult]. *)
Lemma ToFloat64_newEvalResult (env : Collaborators) (v : Value) (f : float64) :
  ToFloat64 env v = (f, None) -> exists lv, newEvalResult env v = Ok lv.
Proof.
  unfold ToFloat64. destruct (newEvalResult env v); [eauto | discriminate].
Qed.

(** The conversions fail with errors that carry no error state. *)
Lemma newEvalResult_error (env : Collaborators) (v : Value) (e : error) :
  newEvalResult env v = Fail e -> ErrState e = Undefined.
Proof.
  unfold newEvalResult.
  repeat match goal with
         | |- context [if ?b then _ else _] => destruct b
         | |- context [match ?o with Some _ => _ | None => _ end] => destruct o
         end; intros [= <-]; reflexivity.
Qed.

Lemma ToFloat64_error (env : Collaborators) (v : Value) (f : float64)
    (e : error) :
  ToFloat64 env v = (f, Some e) -> ErrState e = Undefined.
Proof.
  unfold ToFloat64.
  destruct (newEvalResult env v) as [num | e'] eqn:E.
  - destruct (typ num); try discriminate;
      destruct (IsText _ || IsBinary _); try discriminate;
      try (destruct (ParseFloat env (Value_Raw v)); try discriminate);
      intros [= _ <-]; reflexivity.
  - intros [= _ <-]. by eapply newEvalResult_error.
Qed.

(** C4. For non-NULL operands: when the divisor does not convert to a float,
    [Divide] returns that error, which is not [DataOutOfRange]; when it
    converts to the float zero, [Divide] returns NULL and no error; otherwise
    [Divide] returns [DataOutOfRange] exactly when the float divisor is below
    1 and the divisor times the quotient differs from the dividend, and
    returns a [Float64] value and no error when it is not. *)
Theorem Divide_zero_and_range (env : Collaborators) (v1 v2 : Value) :
  Value_IsNull v1 = false -> Value_IsNull v2 = false ->
  (forall f e, ToFloat64 env v2 = (f, Some e) ->
     Divide env v1 v2 = (NULL, Some e) /\ ErrState e = Undefined)
  /\ (forall f, ToFloat64 env v2 = (f, None) -> feq f fzero = true ->
      Divide env v1 v2 = (NULL, None))
  /\ (forall f, ToFloat64 env v2 = (f, None) -> feq f fzero = false ->
      exists lv2, newEvalResult env v2 = Ok lv2 /\
      match newEvalResult env v1 with
      | Fail e => Divide env v1 v2 = (NULL, Some e) /\ ErrState e = Undefined
      | Ok lv1 =>
          let dividend := coerceToFloat (makeNumeric env lv1) in
          let divisor := coerceToFloat (makeNumeric env lv2) in
          let result := fdiv dividend divisor in
          if flt divisor (float64_of_Z 1)
             && negb (feq (fmul divisor result) dividend)
          then exists code format,
                 Divide env v1 v2
                 = (NULL, Some (vterror code DataOutOfRange format))
          else exists raw,
                 Divide env v1 v2 = (mkValue Float64 raw, None)
      end).
Proof.
  intros N1 N2. unfold Divide. rewrite N1, N2. simpl.
  split; [| split].
  - intros f e Hf. rewrite Hf. rewrite orb_true_r.
    split; [done |]. by eapply ToFloat64_error.
  - intros f -> ->. done.
  - intros f Hf Hz. destruct (ToFloat64_newEvalResult env v2 f Hf) as [lv2 E2].
    exists lv2. split; [done |]. rewrite Hf, Hz. simpl.
    destruct (newEvalResult env v1) as [lv1 | e] eqn:E1;
      [| split; [done | by eapply newEvalResult_error]].
    rewrite E2.
    rewrite divideNumericWithError_coerce
      by (by eapply newEvalResult_makeNumeric).
    unfold floatDivideAnyWithError.
    destruct (flt _ _ && negb _); [unfold NewErrorf; eauto |].
    simpl. unfold toSQLValue. simpl. eauto.
Qed.

(** C4, at [1 / 0] and [1 / 4]. *)
Lemma Divide_zero_and_range_witness :
  Divide integerCollaborators (mkValue Int64 "1") (mkValue Int64 "0")
  = (NULL, None)
  /\ exists raw,
       Divide integerCollaborators (mkValue Int64 "1") (mkValue Int64 "4")
       = (mkValue Float64 raw, None).
Proof.
  split.
  - destruct (Divide_zero_and_range integerCollaborators (mkValue Int64 "1")
                (mkValue Int64 "0") eq_refl eq_refl) as (_ & H & _).
    exact (H (float64_of_Z 0) eq_refl eq_refl).
  - destruct (Divide_zero_and_range integerCollaborators (mkValue Int64 "1")
                (mkValue Int64 "4") eq_refl eq_refl) as (_ & _ & H).
    destruct (H (float64_of_Z 4) eq_refl eq_refl) as (lv2 & E & H').
    assert (lv2 = evalNum Int64 4) as -> by (vm_compute in E; injection E as <-; reflexivity).
    exact H'.
Defined.

(** C7 (the code departs from the claim). [Int64 -1] and
    [Uint64 18446744073709551615] compare equal (both are cast to the unsigned
    bits [2^64 - 1]), both hash without error under the coercion type
    [Float64], and the two hash codes differ: the bits of [-1.0] and of
    [2^64]. Likewise the floats [0] and [-0] compare equal and hash, under
    [Float64], to their different bit patterns. *)
Theorem NullsafeHashcode_differs_on_equal_values (env : Collaborators)
    (c : collations.ID) :
  let a := mkValue Int64 "-1" in
  let b := mkValue Uint64 "18446744073709551615" in
  let z := mkValue Float64 "0" in
  let nz := mkValue Float64 "-0" in
  NullsafeCompare env a b c = Ok 0
  /\ NullsafeHashcode env a c Float64 = Ok 13830554455654793216
  /\ NullsafeHashcode env b c Float64 = Ok 4895412794951729152
  /\ NullsafeCompare integerCollaborators z nz c = Ok 0
  /\ NullsafeHashcode integerCollaborators z c Float64 = Ok 0
  /\ NullsafeHashcode integerCollaborators nz c Float64
     = Ok 9223372036854775808.
Proof. repeat split; by vm_compute. Qed.

End EvalEngineProperties.

(* ------------------------------------------------------------------------- *)
(** ** Properties of the Route primitive *)

Section FanOutProperties.
Import engine.

(** *** Grouping keys by shard *)

Lemma addToShard_values (groups : list (ResolvedShard * list querypb_Value))
    (shard : ResolvedShard) (id : list querypb_Value) :
  concat (addToShard groups shard id).*2 ≡ₚ concat groups.*2 ++ id.
Proof.
  induction groups as [| [s vals] rest IH]; simpl.
  - by rewrite app_nil_r.
  - case_bool_decide; simpl.
    + rewrite <- !(assoc_L (++)). f_equiv. apply Permutation_app_comm.
    + rewrite IH. by rewrite (assoc_L (++)).
Qed.

Lemma addToShard_member (groups : list (ResolvedShard * list querypb_Value))
    (shard : ResolvedShard) (id : list querypb_Value)
    (rs : ResolvedShard) (vals : list querypb_Value) (x : querypb_Value) :
  (rs, vals) ∈ addToShard groups shard id -> x ∈ vals ->
  (exists vals', (rs, vals') ∈ groups /\ x ∈ vals') \/ (rs = shard /\ x ∈ id).
Proof.
  induction groups as [| [s vs] rest IH]; simpl; intros Hin Hx.
  - apply list_elem_of_singleton in Hin as [= -> ->]. by right.
  - case_bool_decide as Hs.
    + apply elem_of_cons in Hin as [[= -> ->] | Hin].
      * apply elem_of_app in Hx as [Hx | Hx]; [left | by right].
        exists vs. split; [apply elem_of_cons; by left | done].
      * left. exists vals. split; [apply elem_of_cons; by right | done].
    + apply elem_of_cons in Hin as [[= -> ->] | Hin].
      * left. exists vs. split; [apply elem_of_cons; by left | done].
      * destruct (IH Hin Hx) as [(vals' & H1 & H2) | H]; [left | by right].
        exists vals'. split; [apply elem_of_cons; by right | done].
Qed.

Lemma addToShards_member (keyspace : string) (shards : list string)
    (id : list querypb_Value)
    (groups : list (ResolvedShard * list querypb_Value))
    (rs : ResolvedShard) (vals : list querypb_Value) (x : querypb_Value) :
  (rs, vals) ∈ addToShards keyspace shards id groups -> x ∈ vals ->
  (exists vals', (rs, vals') ∈ groups /\ x ∈ vals')
  \/ (rs_Keyspace rs = keyspace /\ rs_Shard rs ∈ shards /\ x ∈ id).
Proof.
  unfold addToShards. revert groups vals.
  induction shards as [| sh shards IH]; simpl; intros groups vals Hin Hx.
  - left. by exists vals.
  - destruct (IH _ _ Hin Hx) as [(vals' & H1 & H2) | (Hk & Hs & Hi)].
    + destruct (addToShard_member _ _ _ _ _ _ H1 H2)
        as [(vals'' & H3 & H4) | [-> Hi]].
      * left. by exists vals''.
      * right. simpl. split; [done |]. split; [| done].
        apply elem_of_cons. by left.
    + right. split; [done |]. split; [| done]. apply elem_of_cons. by right.
Qed.

(** Every key of a group was sent there by its destination. *)
Lemma resolveLoop_member (vc : VCursor) (keyspace : string)
    (destinations : list Destination) :
  forall (ids : list querypb_Value)
         (groups groups' : list (ResolvedShard * list querypb_Value))
         (rs : ResolvedShard) (vals : list querypb_Value) (x : querypb_Value),
    resolveLoop vc keyspace (Some ids) destinations groups = Ok groups' ->
    (rs, vals) ∈ groups' -> x ∈ vals ->
    (exists vals', (rs, vals') ∈ groups /\ x ∈ vals')
    \/ (exists (j : nat) (d : Destination) (shards : list string),
          ids !! j = Some x /\ destinations !! j = Some d
          /\ Topo vc keyspace d = Ok shards
          /\ rs_Keyspace rs = keyspace /\ rs_Shard rs ∈ shards).
Proof.
  induction destinations as [| d ds IH]; simpl;
    intros ids groups groups' rs vals x Hrun Hin Hx.
  - injection Hrun as <-. left. by exists vals.
  - destruct (Topo vc keyspace d) as [shards | e] eqn:Ht; [| discriminate].
    simpl in Hrun.
    destruct (IH _ _ _ _ _ _ Hrun Hin Hx)
      as [(vals' & H1 & H2) | (j & d' & shards' & H1 & H2 & H3 & H4 & H5)].
    + destruct (addToShards_member _ _ _ _ _ _ _ H1 H2)
        as [H | (Hk & Hs & Hi)]; [by left |].
      right. exists 0%nat, d, shards.
      destruct ids as [| i ids']; [by apply elem_of_nil in Hi |].
      apply list_elem_of_singleton in Hi as ->. done.
    + right. exists (S j), d', shards'.
      split; [| done]. destruct ids as [| i ids']; [done | exact H1].
Qed.

(** When every destination denotes exactly one shard, the resolver succeeds
    and the groups hold the keys once each. *)
Lemma resolveLoop_single (vc : VCursor) (keyspace : string)
    (destinations : list Destination) :
  Forall (fun d => exists s, Topo vc keyspace d = Ok [s]) destinations ->
  forall (ids : list querypb_Value)
         (groups : list (ResolvedShard * list querypb_Value)),
  exists groups',
    resolveLoop vc keyspace (Some ids) destinations groups = Ok groups'
    /\ concat groups'.*2 ≡ₚ concat groups.*2 ++ take (length destinations) ids.
Proof.
  induction 1 as [| d ds [s Hs] _ IH]; simpl; intros ids groups.
  - exists groups. split; [done |]. by rewrite app_nil_r.
  - rewrite Hs. simpl.
    destruct (IH (tail ids)
                (addToShard groups {| rs_Keyspace := keyspace; rs_Shard := s |}
                   match ids with i :: _ => [i] | [] => [] end))
      as (groups' & Hrun & Hperm).
    exists groups'. split; [exact Hrun |].
    rewrite Hperm, addToShard_values, <- (assoc_L (++)).
    f_equiv. destruct ids as [| i t]; simpl; [by rewrite take_nil | done].
Qed.

Lemma listVarTuple_insert (bv : gmap string BindVariable)
    (vals : list querypb_Value) :
  listVarTuple
    (<[ListVarName := {| bv_Type := Tuple; bv_Value := ""; bv_Values := vals |}]>
       bv) = vals.
Proof. unfold listVarTuple. by rewrite lookup_insert_eq. Qed.

Lemma listVarTuple_shardVars (bv : gmap string BindVariable)
    (values : list (list querypb_Value)) :
  listVarTuple <$> shardVars bv values = values.
Proof.
  unfold shardVars.
  induction values as [| v vs IH]; [done |].
  rewrite !fmap_cons, IH. by rewrite listVarTuple_insert.
Qed.

(** C3 (amended). For the [IN] opcode, whatever [paramsSelectIn] produces for
    the resolved list: there is one bind map per shard, each is the base
    binds plus the single [ListVar] tuple, and every key of a shard's tuple is
    a key of the list whose destination denotes that shard. When every
    destination denotes exactly one shard, [paramsSelectIn] succeeds and the
    tuples together are the resolved list, as a multiset. *)
Theorem paramsSelectIn_fanout (route : Route) (vcursor : VCursor)
    (bindVars : gmap string BindVariable) (value : list Value)
    (destinations : list Destination) :
  ResolveList (Route_Value route) bindVars = Ok value ->
  Map (Vindex route) value = Ok destinations ->
  length destinations = length value ->
  let keyspace := Keyspace_Name (Route_Keyspace route) in
  let ids := ValueToProto <$> value in
  (forall rss bvs,
     paramsSelectIn route vcursor bindVars = Ok (rss, bvs) ->
     length bvs = length rss
     /\ (forall (i : nat) (bv : gmap string BindVariable),
           bvs !! i = Some bv ->
           bv = <[ListVarName := {| bv_Type := Tuple; bv_Value := "";
                                    bv_Values := listVarTuple bv |}]> bindVars)
     /\ (forall (i : nat) (rs : ResolvedShard) (bv : gmap string BindVariable)
                (id : querypb_Value),
           rss !! i = Some rs -> bvs !! i = Some bv -> id ∈ listVarTuple bv ->
           exists (j : nat) (d : Destination) (shards : list string),
             ids !! j = Some id /\ destinations !! j = Some d
             /\ Topo vcursor keyspace d = Ok shards
             /\ rs_Keyspace rs = keyspace /\ rs_Shard rs ∈ shards))
  /\ (Forall (fun d => exists s, Topo vcursor keyspace d = Ok [s]) destinations ->
      exists rss bvs,
        paramsSelectIn route vcursor bindVars = Ok (rss, bvs)
        /\ concat (listVarTuple <$> bvs) ≡ₚ ids).
Proof.
  intros Hlist Hmap Hlen keyspace ids.
  unfold paramsSelectIn, resolveShards, ResolveDestinations.
  rewrite Hlist. simpl. rewrite Hmap. simpl. fold keyspace ids. split.
  - intros rss bvs Hrun.
    destruct (resolveLoop vcursor keyspace (Some ids) destinations [])
      as [groups | e] eqn:Hloop; [| discriminate].
    simpl in Hrun. injection Hrun as <- <-.
    split; [| split].
    + unfold shardVars. by rewrite !length_fmap.
    + intros i bv Hbv. unfold shardVars in Hbv.
      apply list_lookup_fmap_Some in Hbv as (vals & -> & Hvals).
      by rewrite listVarTuple_insert.
    + intros i rs bv id Hrs Hbv Hid. unfold shardVars in Hbv.
      apply list_lookup_fmap_Some in Hbv as (vals & -> & Hvals).
      rewrite listVarTuple_insert in Hid.
      apply list_lookup_fmap_Some in Hrs as ([rs' vals'] & -> & Hg).
      apply list_lookup_fmap_Some in Hvals as ([rs'' vals''] & -> & Hg').
      rewrite Hg in Hg'. injection Hg' as <- <-. simpl in *.
      destruct (resolveLoop_member _ _ _ _ _ _ rs' vals' id Hloop)
        as [(v & Hnil & _) | H]; [by eapply list_elem_of_lookup_2 | done | |].
      * by apply elem_of_nil in Hnil.
      * exact H.
  - intros Hsingle.
    destruct (resolveLoop_single vcursor keyspace destinations Hsingle ids [])
      as (groups & Hloop & Hperm).
    rewrite Hloop. simpl. eexists _, _. split; [done |].
    rewrite listVarTuple_shardVars, Hperm. simpl.
    rewrite take_ge; [done |]. unfold ids. rewrite length_fmap. lia.
Qed.

End FanOutProperties.

Section SortProperties.
Import engine.
Variable ee : evalengine.Collaborators.

(** *** Swapping two rows *)

Lemma insert_head_Permutation {A : Type} (l : list A) (j : nat) (y a : A) :
  l !! j = Some y -> y :: <[j := a]> l ≡ₚ a :: l.
Proof.
  revert j. induction l as [| b l IH]; intros [| j] Hj; simplify_eq/=.
  - apply perm_swap.
  - rewrite perm_swap. rewrite (IH j Hj). apply perm_swap.
Qed.

Lemma swap_Permutation {A : Type} (l : list A) (i j : nat) (x y : A) :
  l !! i = Some x -> l !! j = Some y -> <[j := x]> (<[i := y]> l) ≡ₚ l.
Proof.
  revert i j. induction l as [| b l IH]; intros [| i] [| j] Hi Hj;
    simplify_eq/=.
  - done.
  - by apply insert_head_Permutation.
  - by apply insert_head_Permutation.
  - f_equiv. by apply IH.
Qed.

Lemma swap_rows (i j : nat) (st st' : sortState) :
  swap i j st = Returns st' ->
  rows st' ≡ₚ rows st /\ err st' = err st /\ calls st' = calls st.
Proof.
  unfold swap.
  destruct (rows st !! i) as [ri |] eqn:Hi; [| discriminate].
  destruct (rows st !! j) as [rj |] eqn:Hj; [| discriminate].
  intros [= <-]. simpl. split; [| done]. by apply swap_Permutation.
Qed.

Lemma less_rows (comparers : list OrderByParams) (i j : nat)
    (st st' : sortState) (b : bool) :
  less ee comparers i j st = Returns (b, st') -> rows st' = rows st.
Proof.
  unfold less. destruct (err st); [by intros [= _ <-] |].
  destruct (rows st !! i); [| discriminate].
  destruct (rows st !! j); [| discriminate].
  destruct (lessLoop ee comparers l l0) as [[[b' e] c] |]; [| discriminate].
  by intros [= _ <-].
Qed.

(** Whatever the sorting procedure does, it leaves a permutation of the
    rows. *)
Lemma run_Permutation (comparers : list OrderByParams) (p : lessSwap) :
  forall st st', run ee comparers p st = Returns st' -> rows st' ≡ₚ rows st.
Proof.
  induction p as [| i j k IH | i j k IH]; simpl; intros st st' Hrun.
  - by injection Hrun as <-.
  - destruct (less ee comparers i j st) as [[b st1] |] eqn:Hl; [| discriminate].
    rewrite (IH b _ _ Hrun). by rewrite (less_rows _ _ _ _ _ _ Hl).
  - destruct (swap i j st) as [st1 |] eqn:Hs; [| discriminate].
    rewrite (IH _ _ Hrun). by apply swap_rows in Hs as [-> _].
Qed.

(** *** The captured error *)

Lemma lessLoop_calls (comparers : list OrderByParams) (ri rj : list Value) :
  forall b e l,
    lessLoop ee comparers ri rj = Returns (b, e, l) ->
    match e with
    | None => Forall is_Ok l
    | Some e' => exists l', l = l' ++ [Fail e'] /\ Forall is_Ok l'
    end.
Proof.
  induction comparers as [| c cs IH]; simpl; intros b e l Hl.
  - injection Hl as <- <- <-. constructor.
  - destruct (compare ee c ri rj) as [[cmp | e'] |]; [| | discriminate].
    + destruct (cmp =? 0).
      * destruct (lessLoop ee cs ri rj) as [[[b' e''] l'] |]; [| discriminate].
        injection Hl as <- <- <-. specialize (IH _ _ _ eq_refl).
        destruct e'' as [e'' |].
        -- destruct IH as (l0 & -> & Hok). exists (Ok cmp :: l0).
           split; [done |]. constructor; [by exists cmp | done].
        -- constructor; [by exists cmp | done].
      * injection Hl as <- <- <-. constructor; [by exists cmp | constructor].
    + injection Hl as <- <- <-. exists []. split; [done | constructor].
Qed.

Lemma less_firstErrorKept (comparers : list OrderByParams) (i j : nat)
    (st st' : sortState) (b : bool) :
  firstErrorKept st -> less ee comparers i j st = Returns (b, st') ->
  firstErrorKept st'.
Proof.
  unfold less, firstErrorKept.
  destruct (err st) as [e |] eqn:He.
  { intros H [= _ <-]. by rewrite He. }
  destruct (rows st !! i) as [ri |]; [| discriminate].
  destruct (rows st !! j) as [rj |]; [| discriminate].
  destruct (lessLoop ee comparers ri rj) as [[[b' e] l] |] eqn:Hl;
    [| discriminate].
  intros Hok [= _ <-]. simpl. apply lessLoop_calls in Hl.
  destruct e as [e |].
  - destruct Hl as (l' & -> & Hl'). exists (calls st ++ l').
    split; [by rewrite (assoc_L (++)) | by apply Forall_app].
  - by apply Forall_app.
Qed.

(** Once an error is captured, [less] answers true and calls no comparator. *)
Lemma less_after_error (comparers : list OrderByParams) (i j : nat)
    (st : sortState) (e : error) :
  err st = Some e -> less ee comparers i j st = Returns (true, st).
Proof. intros He. unfold less. by rewrite He. Qed.

Lemma run_firstErrorKept (comparers : list OrderByParams) (p : lessSwap) :
  forall st st',
    firstErrorKept st -> run ee comparers p st = Returns st' ->
    firstErrorKept st'.
Proof.
  induction p as [| i j k IH | i j k IH]; simpl; intros st st' Hinv Hrun.
  - by injection Hrun as <-.
  - destruct (less ee comparers i j st) as [[b st1] |] eqn:Hl; [| discriminate].
    eapply IH; [| exact Hrun]. by eapply less_firstErrorKept.
  - destruct (swap i j st) as [st1 |] eqn:Hs; [| discriminate].
    eapply IH; [| exact Hrun]. apply swap_rows in Hs as (_ & He & Hc).
    unfold firstErrorKept in *. by rewrite He, Hc.
Qed.

(** *** The sort returns *)

Lemma lessLoop_returns (comparers : list OrderByParams) (ri rj : list Value) :
  wide comparers ri -> wide comparers rj ->
  exists x, lessLoop ee comparers ri rj = Returns x.
Proof.
  unfold wide. induction comparers as [| c cs IH]; simpl; intros Hi Hj.
  - eauto.
  - apply Forall_cons in Hi as [[x Hx] Hi]. apply Forall_cons in Hj as [[y Hy] Hj].
    unfold compare. rewrite Hx, Hy.
    destruct (evalengine.NullsafeCompare ee x y (CollationID c)) as [cmp | e];
      [| eauto].
    destruct (_ =? 0); [| eauto].
    destruct (IH Hi Hj) as [[[b e] l] ->]. eauto.
Qed.

Lemma run_returns (comparers : list OrderByParams) (n : nat) (p : lessSwap) :
  inRange n p ->
  forall st,
    length (rows st) = n -> Forall (wide comparers) (rows st) ->
    exists st', run ee comparers p st = Returns st'.
Proof.
  induction 1 as [| i j k Hi Hj _ IH | i j k Hi Hj _ IH]; simpl;
    intros st Hlen Hwide.
  - eauto.
  - assert (exists b st1, less ee comparers i j st = Returns (b, st1))
      as (b & st1 & Hl).
    { unfold less. destruct (err st); [eauto |].
      destruct (lookup_lt_is_Some_2 (rows st) i) as [ri Hri]; [lia |].
      destruct (lookup_lt_is_Some_2 (rows st) j) as [rj Hrj]; [lia |].
      rewrite Hri, Hrj.
      destruct (lessLoop_returns comparers ri rj) as [[[b e] l] ->]; [| | eauto].
      - eapply Forall_lookup_1; [exact Hwide | exact Hri].
      - eapply Forall_lookup_1; [exact Hwide | exact Hrj]. }
    rewrite Hl. apply IH; rewrite (less_rows _ _ _ _ _ _ Hl); done.
  - destruct (lookup_lt_is_Some_2 (rows st) i) as [ri Hri]; [lia |].
    destruct (lookup_lt_is_Some_2 (rows st) j) as [rj Hrj]; [lia |].
    unfold swap. rewrite Hri, Hrj. apply IH; simpl.
    + by rewrite !length_insert.
    + by rewrite (swap_Permutation _ _ _ _ _ Hri Hrj).
Qed.

(** Go's insertion sort stays within the slice. *)
Lemma insertionInner_inRange (n a j : nat) (k : lessSwap) :
  (j < n)%nat -> inRange n k -> inRange n (insertionInner a j k).
Proof.
  induction j as [| j IH]; simpl; intros Hj Hk; [done |].
  destruct (a <? S j)%nat; [| done].
  constructor; [lia | lia |]. intros [|]; [| done].
  constructor; [lia | lia |]. apply IH; [lia | done].
Qed.

Lemma insertionOuter_inRange (n a : nat) (count i : nat) :
  (i + count <= n)%nat -> inRange n (insertionOuter a i count).
Proof.
  revert i. induction count as [| c IH]; simpl; intros i Hi; [constructor |].
  apply insertionInner_inRange; [lia |]. apply IH. lia.
Qed.

Lemma sortSlice_short_inRange (n : nat) : inRange n (sortSlice_short n).
Proof.
  unfold sortSlice_short, insertionSort_func.
  destruct n as [| n]; [constructor |].
  apply insertionOuter_inRange. simpl. lia.
Qed.

Variable sortSlice : nat -> lessSwap.

(** C2 (amended). When the procedure of [sort.Slice] stays within the slice
    and every row has the columns that the comparers read, the blocking sort
    returns; its rows are a permutation of the input rows (stability is not
    promised); the error it returns is the first comparator error: that
    failing call is the last comparator call made, every call before it
    succeeded, and with no error returned every call succeeded. *)
Theorem sort_permutes_and_returns_first_error (route : Route) (inp : Result) :
  inRange (length (Rows inp)) (sortSlice (length (Rows inp))) ->
  Forall (wide (OrderBy route)) (Rows inp) ->
  exists st,
    sortRun ee sortSlice route inp = Returns st
    /\ sort ee sortSlice route inp
       = Returns (Some {| Fields := Fields inp;
                          RowsAffected := RowsAffected inp;
                          InsertID := InsertID inp; Rows := rows st |},
                  err st)
    /\ rows st ≡ₚ Rows inp
    /\ firstErrorKept st.
Proof.
  intros Hrange Hwide.
  destruct (run_returns (OrderBy route) _ _ Hrange
              {| rows := Rows inp; err := None; calls := [] |} eq_refl Hwide)
    as [st Hrun].
  exists st. unfold sort, sortRun. rewrite Hrun.
  split; [done |]. split; [done |]. split.
  - by apply run_Permutation in Hrun.
  - eapply run_firstErrorKept; [| exact Hrun]. constructor.
Qed.

End SortProperties.

Section ExecuteProperties.
Import engine.
Variable ee : evalengine.Collaborators.
Variable sortSlice : nat -> lessSwap.
Variable SQLError_Num : error -> Z.
Variable Error_text : error -> string.
Variable paramsSystemQuery :
  Route -> VCursor -> gmap string BindVariable ->
  res (list ResolvedShard * list (gmap string BindVariable))
  * gmap string BindVariable.

Lemma filterNil_omap (errs : list (option error)) :
  omap id (filterNil errs) = omap id errs
  /\ length (filterNil errs) = length (omap id errs).
Proof.
  induction errs as [| [e |] errs [IH1 IH2]]; [done | | done].
  change (e :: omap id (filterNil errs) = e :: omap id errs
          /\ S (length (filterNil errs)) = S (length (omap id errs))).
  by rewrite IH1, IH2.
Qed.

(** The filtered slice holds the errors of the failed shards and nothing
    else. *)
Lemma filterOutNilErrors_failed (errs : list (option error)) :
  len (filterOutNilErrors (Some errs)) = length (omap id errs)
  /\ omap id (default [] (filterOutNilErrors (Some errs))) = omap id errs.
Proof.
  destruct (filterNil_omap errs) as [H1 H2]. unfold filterOutNilErrors.
  rewrite <- H2, <- H1. by destruct (filterNil errs).
Qed.

Lemma recordWarnings_world (failed : list error) :
  forall w : World,
    let w' := foldl (fun w e =>
                       RecordWarning (warningOf SQLError_Num Error_text e) w)
                w failed in
    warnings w' = warnings w ++ (warningOf SQLError_Num Error_text <$> failed)
    /\ partialSuccessScatterQueries w' = partialSuccessScatterQueries w
    /\ timeouts w' = timeouts w /\ cancelled w' = cancelled w.
Proof.
  induction failed as [| e failed IH]; simpl; intros w.
  - by rewrite app_nil_r.
  - destruct (IH (RecordWarning (warningOf SQLError_Num Error_text e) w))
      as (-> & -> & -> & ->).
    simpl. by rewrite <- (assoc_L (++)).
Qed.

(** [Route.sort] never hands back a nil result. *)
Lemma sort_result (route : Route) (inp : Result) (r : option Result)
    (e : option error) :
  sort ee sortSlice route inp = Returns (r, e) -> is_Some r.
Proof.
  unfold sort. destruct (sortRun ee sortSlice route inp); [| discriminate].
  intros [= <- _]. eauto.
Qed.

(** C1 (amended). Let a blocking execute dispatch to the shards [rss], and
    let the cursor answer with a result and with the errors [failed] of at
    least one shard. If [ScatterErrorsAsWarnings] is set and fewer shards
    failed than were asked, the call records exactly one warning per failed
    shard, adds one to the partial-success counter, and returns the partial
    result with no error when there is no [OrderBy], and what [Route.sort]
    makes of it otherwise: a non-null result whenever it returns, with the
    error of the sort if a comparator failed. If [ScatterErrorsAsWarnings] is
    not set, or every shard failed, the call returns no result and the
    aggregate of the shard errors, and records nothing. *)
Theorem executeInternal_partial_failure (route : Route) (vcursor : VCursor)
    (bindVars bindVars' : gmap string BindVariable) (wantfields : bool)
    (w : World) (rss : list ResolvedShard)
    (bvs : list (gmap string BindVariable)) (result : Result)
    (errs : list (option error)) :
  routeParams paramsSystemQuery route vcursor bindVars
  = (Ok (rss, bvs), bindVars') ->
  rss <> [] ->
  ExecuteMultiShard vcursor rss (getQueries (Query route) bvs) false false
  = (Some result, Some errs) ->
  let failed := omap id errs in
  (1 <= length failed)%nat ->
  let call :=
    executeInternal ee sortSlice SQLError_Num Error_text paramsSystemQuery
      route vcursor bindVars wantfields w in
  (ScatterErrorsAsWarnings route = true ->
   (length failed < length rss)%nat ->
   call.1 = (if bool_decide (OrderBy route = [])
             then Returns (Some result, None)
             else sort ee sortSlice route result)
   /\ (forall r e, call.1 = Returns (r, e) -> is_Some r)
   /\ warnings call.2
      = warnings w ++ (warningOf SQLError_Num Error_text <$> failed)
   /\ partialSuccessScatterQueries call.2
      = partialSuccessScatterQueries w + 1)
  /\ (ScatterErrorsAsWarnings route = false
      \/ length failed = length rss ->
      call = (Returns (None, Some (Aggregated failed)), w)).
Proof.
  intros Hparams Hrss Hexec failed Hk call.
  destruct (filterOutNilErrors_failed errs) as [Hlen Hfailed].
  fold failed in Hlen, Hfailed.
  assert (Hcall : call =
    if negb (ScatterErrorsAsWarnings route)
       || bool_decide (length failed = length rss)
    then (Returns (None, Aggregate failed), w)
    else
      let w' := foldl (fun w e =>
                         RecordWarning (warningOf SQLError_Num Error_text e) w)
                  (partialSuccessScatterQueries_Add 1 w) failed in
      if bool_decide (length (OrderBy route) = 0%nat)
      then (Returns (Some result, None), w')
      else (sort ee sortSlice route result, w')).
  { unfold call, executeInternal. rewrite Hparams.
    rewrite bool_decide_eq_false_2 by (by destruct rss).
    rewrite Hexec. rewrite Hlen.
    unfold Aggregate_slice, recordWarnings. rewrite Hfailed. done. }
  assert (Hagg : Aggregate failed = Some (Aggregated failed)).
  { destruct failed; [simpl in Hk; lia | done]. }
  split.
  - intros Hseaw Hlt. rewrite Hcall, Hseaw. simpl.
    rewrite bool_decide_eq_false_2 by lia.
    destruct (recordWarnings_world failed (partialSuccessScatterQueries_Add 1 w))
      as (Hw & Hc & _).
    destruct (OrderBy route) as [| c cs] eqn:Hob; simpl.
    + split; [done |]. split; [| by split].
      intros r e [= <- _]. eauto.
    + split; [done |]. split; [| by split].
      intros r e Hs. by eapply sort_result.
  - intros Hcase. rewrite Hcall, Hagg.
    destruct Hcase as [-> | ->]; simpl; [done |].
    rewrite bool_decide_eq_true_2 by done. by rewrite orb_true_r.
Qed.

End ExecuteProperties.

(* ------------------------------------------------------------------------- *)
(** ** The scenarios, run *)

Section Scenarios.
Import engine scenarios.

(** C3, on scenario 2: the keys 1, 2, 3 with 1 and 3 on [s1] and 2 on [s2]. *)
Lemma paramsSelectIn_fanout_witness :
  exists rss bvs,
    paramsSelectIn (route SelectIN spelled [] false) (cursor [] None) ∅
    = Ok (rss, bvs)
    /\ concat (listVarTuple <$> bvs)
       ≡ₚ ValueToProto <$> int64s ["1"; "2"; "3"].
Proof.
  destruct (paramsSelectIn_fanout (route SelectIN spelled [] false)
              (cursor [] None) ∅ (int64s ["1"; "2"; "3"])
              (DestinationKeyspaceID <$> ["1"; "2"; "3"])
              ltac:(reflexivity) ltac:(reflexivity) ltac:(reflexivity))
    as [_ H].
  apply H. repeat constructor; eexists; reflexivity.
Defined.

(** C3 as stated fails: the vindex has no shard for the key 2, which no
    tuple receives; the tuples together are (1, 3), not the list (1, 2, 3). *)
Lemma paramsSelectIn_key_without_shard :
  let keys := int64s ["1"; "2"; "3"] in
  let tuple13 := ValueToProto <$> int64s ["1"; "3"] in
  ResolveList (Route_Value (route SelectIN sparse [] false)) ∅ = Ok keys
  /\ paramsSelectIn (route SelectIN sparse [] false) (cursor [] None) ∅
     = Ok ([s1], shardVars ∅ [tuple13])
  /\ ~ (concat (listVarTuple <$> shardVars ∅ [tuple13])
        ≡ₚ ValueToProto <$> keys).
Proof.
  split; [reflexivity |]. split; [reflexivity |].
  rewrite listVarTuple_shardVars. intros H.
  apply Permutation_length in H. discriminate H.
Qed.

(** C2, on three rows in disorder. *)
Lemma sort_permutes_and_returns_first_error_witness :
  let rows3 := [int64s ["3"]; int64s ["1"]; int64s ["2"]] in
  exists st,
    sortRun ee sortSlice_short (route SelectScatter spelled [byCol0] false)
      (result rows3) = Returns st
    /\ rows st ≡ₚ rows3 /\ firstErrorKept st.
Proof.
  intros rows3.
  destruct (sort_permutes_and_returns_first_error ee sortSlice_short
              (route SelectScatter spelled [byCol0] false) (result rows3))
    as (st & H1 & _ & H2 & H3).
  - apply sortSlice_short_inRange.
  - repeat constructor; eexists; reflexivity.
  - exists st. done.
Defined.

(** C2 as stated fails: two rows that tie on the ordering column leave the
    sort in the opposite order of their arrival. *)
Lemma sort_reverses_tied_rows :
  let r1 := [NULL; mkValue Int64 "1"] in
  let r2 := [NULL; mkValue Int64 "2"] in
  sort ee sortSlice_short (route SelectScatter spelled [byCol0] false)
    (result [r1; r2])
  = Returns (Some (result [r2; r1]), None)
  /\ tie ee [byCol0] r1 r2
  /\ ~ stable ee [byCol0] [r1; r2] [r2; r1].
Proof.
  intros r1 r2. split; [reflexivity |].
  assert (Ht : tie ee [byCol0] r1 r2) by (repeat constructor).
  split; [exact Ht |]. intros Hs.
  destruct (Hs 0%nat 1%nat r1 r2 ltac:(lia) eq_refl eq_refl Ht)
    as (i' & j' & Hlt & Hi & Hj).
  destruct i' as [| [| i']]; destruct j' as [| [| j']];
    simpl in Hi, Hj; try discriminate; lia.
Qed.

(** C1, on scenario 3: three shards, the second fails, the rows 1, 4, 2, 3
    are merged in order, one warning is recorded and the counter moves by
    one. *)
Lemma executeInternal_partial_failure_witness :
  let r := route SelectScatter spelled [byCol0] true in
  let rows4 := [int64s ["1"]; int64s ["4"]; int64s ["2"]; int64s ["3"]] in
  let call :=
    executeInternal ee sortSlice_short sqlErrorNum errorText noSystemQuery
      r (cursor rows4 s2Fails) ∅ false emptyWorld in
  call.1 = sort ee sortSlice_short r (result rows4)
  /\ warnings call.2 = [warningOf sqlErrorNum errorText shardDown]
  /\ partialSuccessScatterQueries call.2 = 1.
Proof.
  intros r rows4 call.
  destruct (executeInternal_partial_failure ee sortSlice_short sqlErrorNum
              errorText noSystemQuery r (cursor rows4 s2Fails) ∅ ∅ false
              emptyWorld [s1; s2; s3] [∅; ∅; ∅] (result rows4)
              [None; Some shardDown; None]
              eq_refl ltac:(discriminate) eq_refl ltac:(simpl; lia))
    as [H _].
  destruct (H eq_refl ltac:(simpl; lia)) as (H1 & _ & H2 & H3).
  exact (conj H1 (conj H2 H3)).
Defined.

(** C1 as stated fails: with [ScatterErrorsAsWarnings] set, one shard of
    three failing and the others answering, an [OrderBy] on a text column
    without collation makes the sort fail; [executeInternal] returns the rows
    together with that error, and [TryExecute] returns the error and no
    result. *)
Lemma executeInternal_partial_failure_sort_error :
  let r := route SelectScatter spelled [byCol0] true in
  let a := [mkValue VarChar "a"] in
  let b := [mkValue VarChar "b"] in
  let c := cursor [a; b] s2Fails in
  routeParams noSystemQuery r c ∅ = (Ok ([s1; s2; s3], [∅; ∅; ∅]), ∅)
  /\ ExecuteMultiShard c [s1; s2; s3] (getQueries (Query r) [∅; ∅; ∅])
       false false
     = (Some (result [a; b]), Some [None; Some shardDown; None])
  /\ (executeInternal ee sortSlice_short sqlErrorNum errorText noSystemQuery
        r c ∅ false emptyWorld).1
     = Returns (Some (result [b; a]),
                Some (UnsupportedCollationError collations.Unknown))
  /\ (TryExecute ee sortSlice_short sqlErrorNum errorText noSystemQuery
        r c ∅ false emptyWorld).1
     = Returns (None, Some (UnsupportedCollationError collations.Unknown)).
Proof. repeat split; reflexivity. Qed.

End Scenarios.

(* ------------------------------------------------------------------------- *)
(** ** The integer arithmetic, operation by operation *)

Section IntegerArithmetic.
Import evalengine.

Lemma DataOutOfRange_error {A : Type} (v1 v2 : Z) (t sign : string) :
  @is_DataOutOfRange A (Fail (dataOutOfRangeError v1 v2 t sign)).
Proof. unfold is_DataOutOfRange, dataOutOfRangeError, NewErrorf. eauto. Qed.

Lemma uint64_neg (b : Z) : - 2 ^ 64 <= b < 0 -> uint64 b = b + 2 ^ 64.
Proof.
  intros H. unfold uint64.
  replace b with (b + 2 ^ 64 + (-1) * 2 ^ 64) at 1 by lia.
  rewrite Z.mod_add by lia. apply Z.mod_small. lia.
Qed.

Lemma uint64_high (x : Z) : 2 ^ 64 <= x < 2 ^ 65 -> uint64 x = x - 2 ^ 64.
Proof.
  intros H. unfold uint64.
  replace x with (x - 2 ^ 64 + 1 * 2 ^ 64) at 1 by lia.
  rewrite Z.mod_add by lia. apply Z.mod_small. lia.
Qed.

(** The wrapped value differs from the exact one by a multiple of [2 ^ 64]. *)
Lemma int64_congruent (x : Z) : exists k, int64 x = x + k * 2 ^ 64.
Proof.
  unfold int64. exists (- ((x + 2 ^ 63) / 2 ^ 64)).
  pose proof (Z.div_mod (x + 2 ^ 63) (2 ^ 64)). lia.
Qed.

(** X3. [intMinusIntWithError] is exact: on two signed operands it returns
    their difference as [Int64] when the difference fits [int64], and fails
    with the out-of-range error when it does not. *)
Theorem intMinusIntWithError_exact (a b : Z) :
  is_int64 a -> is_int64 b ->
  (is_int64 (a - b) ->
   intMinusIntWithError (uint64 a) (uint64 b)
   = Ok (evalNum Int64 (uint64 (a - b))))
  /\ (~ is_int64 (a - b) ->
      is_DataOutOfRange (intMinusIntWithError (uint64 a) (uint64 b))).
Proof.
  intros Ha Hb. unfold intMinusIntWithError.
  rewrite !int64_uint64 by done. unfold is_int64 in *. split.
  - intros Hs. rewrite (int64_small (a - b)) by done.
    destruct (Z.ltb_spec (a - b) a), (Z.ltb_spec 0 b); simpl; try lia; done.
  - intros Hs. destruct (Z_lt_ge_dec (a - b) 0) as [Hn | Hp].
    + rewrite (int64_wrap_low (a - b)) by lia.
      destruct (Z.ltb_spec (a - b + 2 ^ 64) a), (Z.ltb_spec 0 b); simpl;
        try lia; apply DataOutOfRange_error.
    + rewrite (int64_wrap_high (a - b)) by lia.
      destruct (Z.ltb_spec (a - b - 2 ^ 64) a), (Z.ltb_spec 0 b); simpl;
        try lia; apply DataOutOfRange_error.
Qed.

(** X4. [intTimesIntWithError] returns the product of two signed operands
    when it fits [int64], and fails with the out-of-range error when it does
    not, with one exception: [-1 * MinInt64] overflows and is returned as
    [MinInt64], because the division [result / v1] of the test overflows as
    well. With the operands in the other order the same product is
    refused. *)
Theorem intTimesIntWithError_exact_but_one (a b : Z) :
  is_int64 a -> is_int64 b ->
  (is_int64 (a * b) ->
   intTimesIntWithError (uint64 a) (uint64 b)
   = Ok (evalNum Int64 (uint64 (a * b))))
  /\ (~ is_int64 (a * b) -> a <> -1 ->
      is_DataOutOfRange (intTimesIntWithError (uint64 a) (uint64 b)))
  /\ (a = -1 -> b = MinInt64 ->
      ~ is_int64 (a * b)
      /\ intTimesIntWithError (uint64 a) (uint64 b)
         = Ok (evalNum Int64 (uint64 MinInt64))
      /\ is_DataOutOfRange (intTimesIntWithError (uint64 b) (uint64 a))).
Proof.
  intros Ha Hb. split; [| split].
  - intros Hs. unfold intTimesIntWithError.
    rewrite !int64_uint64 by done. rewrite (int64_small (a * b)) by done.
    destruct (Z.eqb_spec a 0) as [-> | Hnz]; [done |]. simpl.
    unfold quo. rewrite (Z.mul_comm a b), Z.quot_mul by done.
    rewrite int64_small by done. by rewrite Z.eqb_refl.
  - intros Hs Hm1. unfold intTimesIntWithError.
    rewrite !int64_uint64 by done.
    assert (Hnz : a <> 0) by (intros ->; apply Hs; unfold is_int64; lia).
    assert (Hn1 : a <> 1).
    { intros ->. apply Hs. by rewrite Z.mul_1_l. }
    destruct (Z.eqb_spec a 0) as [| _]; [done |]. simpl.
    destruct (int64_congruent (a * b)) as [k Hk].
    pose proof (int64_range (a * b)) as Hr.
    set (r := int64 (a * b)) in *.
    assert (Hk0 : k <> 0).
    { intros ->. apply Hs. unfold is_int64. lia. }
    pose proof (Z.quot_rem' r a) as Hqr.
    pose proof (Z.rem_bound_abs r a Hnz) as Hrem.
    set (q := Z.quot r a) in *. set (rm := Z.rem r a) in *.
    unfold is_int64 in *.
    assert (Hq : - 2 ^ 63 <= q < 2 ^ 63) by nia.
    unfold quo. fold q. rewrite (int64_small q) by done.
    destruct (Z.eqb_spec q b) as [E | _]; [| apply DataOutOfRange_error].
    exfalso. subst q. nia.
  - intros -> ->. split; [unfold is_int64, MinInt64; lia |].
    split; [by vm_compute |]. unfold is_DataOutOfRange. vm_compute. eauto.
Qed.

(** X5. [uintPlusUintWithError] is exact: the sum of two unsigned operands as
    [Uint64] when it is below [2 ^ 64], the out-of-range error otherwise. *)
Theorem uintPlusUintWithError_exact (v1 v2 : Z) :
  is_uint64 v1 -> is_uint64 v2 ->
  (v1 + v2 < 2 ^ 64 ->
   uintPlusUintWithError v1 v2 = Ok (evalNum Uint64 (v1 + v2)))
  /\ (2 ^ 64 <= v1 + v2 -> is_DataOutOfRange (uintPlusUintWithError v1 v2)).
Proof.
  unfold is_uint64, uintPlusUintWithError. intros H1 H2. split; intros H.
  - rewrite uint64_small by lia.
    destruct (Z.ltb_spec (v1 + v2) v1), (Z.ltb_spec (v1 + v2) v2); simpl;
      try lia; done.
  - rewrite uint64_high by lia.
    destruct (Z.ltb_spec (v1 + v2 - 2 ^ 64) v1); simpl;
      [apply DataOutOfRange_error | lia].
Qed.

(** X6. [uintPlusUint] keeps the sum of two unsigned operands as [Uint64]
    when it is below [2 ^ 64], and promotes it to the float sum of the
    operands exactly when it is not. *)
Theorem uintPlusUint_promotes_overflow (v1 v2 : Z) :
  is_uint64 v1 -> is_uint64 v2 ->
  (v1 + v2 < 2 ^ 64 -> uintPlusUint v1 v2 = evalNum Uint64 (v1 + v2))
  /\ (2 ^ 64 <= v1 + v2 ->
      uintPlusUint v1 v2
      = evalNum Float64 (Float64bits (fadd (float64_of_Z v1) (float64_of_Z v2)))).
Proof.
  unfold is_uint64, uintPlusUint. intros H1 H2. split; intros H.
  - rewrite uint64_small by lia.
    destruct (Z.ltb_spec (v1 + v2) v2); [lia | done].
  - rewrite uint64_high by lia.
    destruct (Z.ltb_spec (v1 + v2 - 2 ^ 64) v2); [done | lia].
Qed.

Lemma uintMinusUintWithError_difference (v1 v2 : Z) :
  is_uint64 v1 -> is_uint64 v2 ->
  (v2 <= v1 -> uintMinusUintWithError v1 v2 = Ok (evalNum Uint64 (v1 - v2)))
  /\ (v1 < v2 -> is_DataOutOfRange (uintMinusUintWithError v1 v2)).
Proof.
  unfold is_uint64, uintMinusUintWithError. intros H1 H2. split; intros H.
  - rewrite uint64_small by lia. destruct (Z.ltb_spec v1 v2); [lia | done].
  - destruct (Z.ltb_spec v1 v2); [apply DataOutOfRange_error | lia].
Qed.

(** X7. [uintMinusUintWithError] is exact: the difference of two unsigned
    operands as [Uint64] when the second does not exceed the first, the
    out-of-range error otherwise. *)
Theorem uintMinusUintWithError_exact (v1 v2 : Z) :
  is_uint64 v1 -> is_uint64 v2 ->
  (v2 <= v1 -> uintMinusUintWithError v1 v2 = Ok (evalNum Uint64 (v1 - v2)))
  /\ (v1 < v2 -> is_DataOutOfRange (uintMinusUintWithError v1 v2)).
Proof. exact (uintMinusUintWithError_difference v1 v2). Qed.

Lemma uintPlusIntWithError_sum (v1 b : Z) :
  is_uint64 v1 -> is_int64 b ->
  (0 <= v1 + b < 2 ^ 64 ->
   uintPlusIntWithError v1 (uint64 b) = Ok (evalNum Uint64 (v1 + b)))
  /\ (~ 0 <= v1 + b < 2 ^ 64 ->
      is_DataOutOfRange (uintPlusIntWithError v1 (uint64 b))).
Proof.
  unfold is_uint64. intros H1 Hb. unfold uintPlusIntWithError.
  rewrite int64_uint64 by done. unfold is_int64 in Hb.
  destruct (Z_lt_ge_dec b 0) as [Hn | Hp].
  - rewrite (uint64_neg b) by lia.
    rewrite (uint64_small (- b)) by lia.
    rewrite (proj2 (Z.ltb_lt b 0)) by lia.
    rewrite (proj2 (Z.ltb_ge 0 b)) by lia.
    simpl. rewrite orb_false_r. split; intros Hr.
    + rewrite uint64_high by lia.
      rewrite (proj2 (Z.ltb_ge v1 (- b))) by lia.
      f_equal. f_equal. lia.
    + rewrite (proj2 (Z.ltb_lt v1 (- b))) by lia.
      apply DataOutOfRange_error.
  - rewrite (uint64_small b) by lia.
    rewrite (proj2 (Z.ltb_ge b 0)) by lia. simpl. split; intros Hr.
    + rewrite uint64_small by lia.
      rewrite (proj2 (Z.ltb_ge (v1 + b) v1)) by lia.
      rewrite (proj2 (Z.ltb_ge (v1 + b) b)) by lia.
      by rewrite andb_false_r.
    + rewrite uint64_high by lia.
      rewrite (proj2 (Z.ltb_lt 0 b)) by lia.
      rewrite (proj2 (Z.ltb_lt (v1 + b - 2 ^ 64) v1)) by lia.
      apply DataOutOfRange_error.
Qed.

(** X8. [uintPlusIntWithError] is exact: on an unsigned and a signed operand
    it returns their sum as [Uint64] when the sum lies in [0, 2 ^ 64), and
    fails with the out-of-range error when it does not. *)
Theorem uintPlusIntWithError_exact (v1 b : Z) :
  is_uint64 v1 -> is_int64 b ->
  (0 <= v1 + b < 2 ^ 64 ->
   uintPlusIntWithError v1 (uint64 b) = Ok (evalNum Uint64 (v1 + b)))
  /\ (~ 0 <= v1 + b < 2 ^ 64 ->
      is_DataOutOfRange (uintPlusIntWithError v1 (uint64 b))).
Proof. exact (uintPlusIntWithError_sum v1 b). Qed.

(** X9. [uintPlusInt] hands its signed operand to [uintPlusUint] as raw bits.
    With a negative signed operand it therefore never returns the sum: where
    the sum is non-negative, and the checked variant returns it, [uintPlusInt]
    returns a float, the unsigned operand plus [2 ^ 64 + b]; where the sum is
    negative, and the checked variant refuses it, [uintPlusInt] returns the
    wrapped [Uint64]. *)
Theorem uintPlusInt_negative (v1 b : Z) :
  is_uint64 v1 -> - 2 ^ 63 <= b < 0 ->
  (0 <= v1 + b ->
   uintPlusIntWithError v1 (uint64 b) = Ok (evalNum Uint64 (v1 + b))
   /\ uintPlusInt v1 (uint64 b)
      = evalNum Float64
          (Float64bits (fadd (float64_of_Z v1) (float64_of_Z (b + 2 ^ 64)))))
  /\ (v1 + b < 0 ->
      is_DataOutOfRange (uintPlusIntWithError v1 (uint64 b))
      /\ uintPlusInt v1 (uint64 b) = evalNum Uint64 (v1 + b + 2 ^ 64)).
Proof.
  unfold is_uint64. intros H1 Hb.
  destruct (uintPlusIntWithError_sum v1 b) as [Hok Herr];
    [done | unfold is_int64; lia |].
  unfold uintPlusInt, uintPlusUint. split.
  - intros H. split; [apply Hok; lia |].
    rewrite (uint64_neg b) by lia.
    rewrite (uint64_high (v1 + (b + 2 ^ 64))) by lia.
    by rewrite (proj2 (Z.ltb_lt _ _)) by lia.
  - intros H. split; [apply Herr; lia |].
    rewrite (uint64_neg b) by lia.
    rewrite (uint64_small (v1 + (b + 2 ^ 64))) by lia.
    rewrite (proj2 (Z.ltb_ge _ _)) by lia. f_equal. lia.
Qed.

(** X10. [uintMinusIntWithError], by the sign of the signed operand [b]. For
    [b > 0] it returns the difference only when [b <= v1 < 2 ^ 63] and
    refuses every unsigned operand of [2 ^ 63] or more, although the
    difference fits. For [MinInt64 < b <= 0] it is exact. For [b = MinInt64]
    it refuses an unsigned operand below [2 ^ 63], whose difference fits, and
    returns [v1 - 2 ^ 63] for the others, whose difference [v1 + 2 ^ 63] does
    not fit. *)
Theorem uintMinusIntWithError_cases (v1 b : Z) :
  is_uint64 v1 -> is_int64 b ->
  (0 < b ->
   (b <= v1 < 2 ^ 63 ->
    uintMinusIntWithError v1 (uint64 b) = Ok (evalNum Uint64 (v1 - b)))
   /\ (v1 < b \/ 2 ^ 63 <= v1 ->
       is_DataOutOfRange (uintMinusIntWithError v1 (uint64 b))))
  /\ (MinInt64 < b <= 0 ->
      (v1 - b < 2 ^ 64 ->
       uintMinusIntWithError v1 (uint64 b) = Ok (evalNum Uint64 (v1 - b)))
      /\ (2 ^ 64 <= v1 - b ->
          is_DataOutOfRange (uintMinusIntWithError v1 (uint64 b))))
  /\ (b = MinInt64 ->
      (v1 < 2 ^ 63 -> is_DataOutOfRange (uintMinusIntWithError v1 (uint64 b)))
      /\ (2 ^ 63 <= v1 ->
          uintMinusIntWithError v1 (uint64 b)
          = Ok (evalNum Uint64 (v1 - 2 ^ 63)))).
Proof.
  unfold is_uint64. intros H1 Hb. unfold uintMinusIntWithError.
  rewrite int64_uint64 by done. unfold is_int64, MinInt64 in *.
  split; [| split].
  - intros Hpos. rewrite (proj2 (Z.ltb_lt 0 b)) by lia. rewrite andb_true_r.
    split.
    + intros Hr. rewrite (int64_small v1) by lia.
      rewrite (proj2 (Z.ltb_ge v1 b)) by lia.
      rewrite (proj2 (Z.ltb_ge b 0)) by lia.
      rewrite (uint64_small b) by lia.
      apply uintMinusUintWithError_difference; unfold is_uint64; lia.
    + intros Hr.
      assert (E : (int64 v1 <? b) = true).
      { apply Z.ltb_lt. destruct (Z_lt_ge_dec v1 (2 ^ 63)).
        - rewrite int64_small by lia. lia.
        - rewrite int64_wrap_high by lia. lia. }
      rewrite E. apply DataOutOfRange_error.
  - intros Hr. rewrite (proj2 (Z.ltb_ge 0 b)) by lia. rewrite andb_false_r.
    destruct (Z.ltb_spec b 0) as [Hneg | Hz].
    + replace (v1 - b) with (v1 + - b) by lia.
      pose proof (uintPlusIntWithError_sum v1 (- b)) as [P1 P2];
        [done | unfold is_int64; lia |].
      split; intros Hc; [apply P1 | apply P2]; lia.
    + assert (b = 0) as -> by lia. simpl. change (uint64 0) with 0.
      replace (v1 - 0) with v1 by lia. split; [| lia]. intros _.
      pose proof (uintMinusUintWithError_difference v1 0) as [P _];
        [done | unfold is_uint64; lia |].
      replace (v1 - 0) with v1 in P by lia. apply P. lia.
  - intros ->. change (0 <? - 2 ^ 63) with false. rewrite andb_false_r.
    change (- 2 ^ 63 <? 0) with true. cbv iota.
    change (uint64 (- (- 2 ^ 63))) with (uint64 (- 2 ^ 63)).
    pose proof (uintPlusIntWithError_sum v1 (- 2 ^ 63)) as [P1 P2];
      [done | unfold is_int64; lia |].
    split; intros Hc.
    + apply P2. lia.
    + replace (v1 - 2 ^ 63) with (v1 + - 2 ^ 63) by lia. apply P1. lia.
Qed.

(** X11. [intMinusUintWithError] is exact: on a signed and an unsigned
    operand it returns their difference as [Uint64] when the unsigned one
    does not exceed the signed one, and fails with the out-of-range error
    otherwise, an unsigned operand of [2 ^ 63] or more included. *)
Theorem intMinusUintWithError_exact (a v2 : Z) :
  is_int64 a -> is_uint64 v2 ->
  (v2 <= a -> intMinusUintWithError (uint64 a) v2 = Ok (evalNum Uint64 (a - v2)))
  /\ (a < v2 -> is_DataOutOfRange (intMinusUintWithError (uint64 a) v2)).
Proof.
  unfold is_uint64. intros Ha H2. unfold intMinusUintWithError.
  rewrite int64_uint64 by done. unfold is_int64 in Ha. split; intros Hr.
  - rewrite (int64_small v2) by lia. rewrite (uint64_small a) by lia.
    rewrite (proj2 (Z.ltb_ge a 0)) by lia.
    rewrite (proj2 (Z.ltb_ge a v2)) by lia. simpl.
    apply uintMinusUintWithError_difference; unfold is_uint64; lia.
  - destruct (Z.ltb_spec a 0) as [Hneg | Hpos]; simpl;
      [apply DataOutOfRange_error |].
    destruct (Z.ltb_spec a (int64 v2)) as [Hlt | Hge]; simpl;
      [apply DataOutOfRange_error |].
    rewrite (uint64_small a) by lia.
    apply uintMinusUintWithError_difference; unfold is_uint64; lia.
Qed.

(** X13. On two unsigned operands whose product fits, the test
    [result < v2 || result < v1] of [uintTimesUintWithError] accepts the
    product when both operands are zero or both are at least one, and refuses
    it, with the out-of-range error, when exactly one operand is zero. *)
Theorem uintTimesUintWithError_fitting (v1 v2 : Z) :
  is_uint64 v1 -> is_uint64 v2 -> v1 * v2 < 2 ^ 64 ->
  (v1 = 0 /\ v2 = 0 \/ 1 <= v1 /\ 1 <= v2 ->
   uintTimesUintWithError v1 v2 = Ok (evalNum Uint64 (v1 * v2)))
  /\ (v1 = 0 /\ 1 <= v2 \/ 1 <= v1 /\ v2 = 0 ->
      is_DataOutOfRange (uintTimesUintWithError v1 v2)).
Proof.
  unfold is_uint64. intros H1 H2 Hfit. unfold uintTimesUintWithError.
  rewrite (uint64_small (v1 * v2)) by nia. split.
  - intros H.
    rewrite (proj2 (Z.ltb_ge (v1 * v2) v2)) by nia.
    by rewrite (proj2 (Z.ltb_ge (v1 * v2) v1)) by nia.
  - intros [[-> H] | [H ->]].
    + rewrite (proj2 (Z.ltb_lt (0 * v2) v2)) by lia. apply DataOutOfRange_error.
    + rewrite (proj2 (Z.ltb_lt (v1 * 0) v1)) by lia. rewrite orb_true_r.
      apply DataOutOfRange_error.
Qed.

End IntegerArithmetic.

(* ------------------------------------------------------------------------- *)
(** ** The dispatch on the numeric forms, coercion, comparison and hashing *)

Section Dispatch.
Import evalengine.

Lemma intPlusIntWithError_comm (x y : Z) :
  intPlusIntWithError x y = intPlusIntWithError y x.
Proof.
  unfold intPlusIntWithError, dataOutOfRangeError.
  pose proof (int64_range x) as Hx. pose proof (int64_range y) as Hy.
  set (a := int64 x) in *. set (b := int64 y) in *.
  rewrite (Z.add_comm b a).
  destruct (Z_lt_ge_dec (a + b) (- 2 ^ 63)) as [Hlow | Hge].
  - rewrite (int64_wrap_low (a + b)) by lia.
    rewrite (proj2 (Z.ltb_lt a (a + b + 2 ^ 64))) by lia.
    rewrite (proj2 (Z.ltb_lt b (a + b + 2 ^ 64))) by lia.
    rewrite (proj2 (Z.ltb_ge 0 b)) by lia.
    by rewrite (proj2 (Z.ltb_ge 0 a)) by lia.
  - destruct (Z_lt_ge_dec (a + b) (2 ^ 63)) as [Hfit | Hhigh].
    + rewrite (int64_small (a + b)) by lia.
      destruct (Z.ltb_spec a (a + b)), (Z.ltb_spec 0 b),
        (Z.ltb_spec b (a + b)), (Z.ltb_spec 0 a); simpl; try lia; done.
    + rewrite (int64_wrap_high (a + b)) by lia.
      rewrite (proj2 (Z.ltb_ge a (a + b - 2 ^ 64))) by lia.
      rewrite (proj2 (Z.ltb_ge b (a + b - 2 ^ 64))) by lia.
      rewrite (proj2 (Z.ltb_lt 0 b)) by lia.
      by rewrite (proj2 (Z.ltb_lt 0 a)) by lia.
Qed.

Lemma uintPlusUintWithError_comm (x y : Z) :
  uintPlusUintWithError x y = uintPlusUintWithError y x.
Proof.
  unfold uintPlusUintWithError, dataOutOfRangeError.
  by rewrite (Z.add_comm y x), orb_comm.
Qed.

(** What [makeNumeric] returns is in one of the three numeric forms, when its
    argument is in one of them or is not a number at all. *)
Lemma makeNumeric_numericForm (env : Collaborators) (v : EvalResult) :
  numericForm (typ v) \/ IsNumber (typ v) = false ->
  numericForm (typ (makeNumeric env v)).
Proof.
  unfold numericForm, makeNumeric. intros [H | H].
  - destruct H as [H | [H | H]]; rewrite H; simpl; rewrite H; auto.
  - rewrite H. destruct (ParseInt (bytes v)); [by left |].
    destruct (ParseFloat env (bytes v)); [by right; right | by left].
Qed.


(** X15. [addNumericWithError] does not depend on the order of its operands,
    when [makeNumeric] brings them to numeric forms that are not both
    [Float64]: it returns a result in one order exactly when it returns the
    same result in the other, and it fails with the out-of-range error in one
    order exactly when it does in the other. *)
Theorem addNumericWithError_comm (env : Collaborators) (a b : EvalResult) :
  numericForm (typ (makeNumeric env a)) ->
  numericForm (typ (makeNumeric env b)) ->
  typ (makeNumeric env a) <> Float64 \/ typ (makeNumeric env b) <> Float64 ->
  (forall r,
     addNumericWithError env a b = Ok r <-> addNumericWithError env b a = Ok r)
  /\ (is_DataOutOfRange (addNumericWithError env a b)
      <-> is_DataOutOfRange (addNumericWithError env b a)).
Proof.
  intros Ha Hb Hf.
  assert (E : addNumericWithError env a b = addNumericWithError env b a).
  { unfold numericForm, addNumericWithError, makeNumericAndPrioritize in *.
    destruct Ha as [Ha | [Ha | Ha]], Hb as [Hb | [Hb | Hb]];
      rewrite Ha, Hb in *; simpl; rewrite ?Ha, ?Hb; simpl; try reflexivity.
    - apply intPlusIntWithError_comm.
    - apply uintPlusUintWithError_comm.
    - by destruct Hf as [Hf | Hf]. }
  rewrite E. done.
Qed.

Lemma failsOnlyOutOfRange_Ok {A : Type} (a : A) : failsOnlyOutOfRange (Ok a).
Proof. left. by exists a. Qed.

Lemma failsOnlyOutOfRange_if {A : Type} (b : bool) (v1 v2 : Z) (t s : string)
    (r : res A) :
  failsOnlyOutOfRange r ->
  failsOnlyOutOfRange (if b then Fail (dataOutOfRangeError v1 v2 t s) else r).
Proof. destruct b; [right; apply DataOutOfRange_error | done]. Qed.

(** X16. On operands that are in one of the three numeric forms, or are not
    numbers at all (their bytes are then parsed), the promoting addition
    [addNumeric] does not reach its [panic("unreachable")], and the checked
    addition, subtraction, multiplication and division fail with the
    out-of-range error or not at all: the error "invalid arithmetic" is out
    of reach. *)
Theorem arithmetic_fails_only_out_of_range (env : Collaborators)
    (a b : EvalResult) :
  numericForm (typ a) \/ IsNumber (typ a) = false ->
  numericForm (typ b) \/ IsNumber (typ b) = false ->
  is_Some (addNumeric env a b)
  /\ failsOnlyOutOfRange (addNumericWithError env a b)
  /\ failsOnlyOutOfRange (subtractNumericWithError env a b)
  /\ failsOnlyOutOfRange (multiplyNumericWithError env a b)
  /\ failsOnlyOutOfRange (divideNumericWithError env a b).
Proof.
  intros Ha Hb.
  apply (makeNumeric_numericForm env) in Ha, Hb.
  unfold addNumeric, addNumericWithError, subtractNumericWithError,
    multiplyNumericWithError, divideNumericWithError, makeNumericAndPrioritize.
  unfold numericForm in Ha, Hb.
  destruct Ha as [Ha | [Ha | Ha]], Hb as [Hb | [Hb | Hb]];
    rewrite Ha, Hb; rewrite ?Ha, ?Hb;
    (split; [eauto |]);
    unfold intPlusIntWithError, uintPlusIntWithError, uintPlusUintWithError,
      intMinusIntWithError, intMinusUintWithError, uintMinusIntWithError,
      uintMinusUintWithError, intTimesIntWithError, uintTimesIntWithError,
      uintTimesUintWithError, uintPlusIntWithError, floatDivideAnyWithError;
    repeat split;
    repeat first [ apply failsOnlyOutOfRange_Ok | apply failsOnlyOutOfRange_if
                 | match goal with
                   | |- failsOnlyOutOfRange (if ?c then _ else _) => destruct c
                   end
                 | right; apply DataOutOfRange_error
                 | right; unfold is_DataOutOfRange, NewErrorf; by eauto ].
Qed.

(** X17. [CoerceTo] does not depend on the order of the two types: it gives
    a common type in one order exactly when it gives the same type in the
    other, and it fails in one order exactly when it fails in the other. *)
Theorem CoerceTo_symmetric (t1 t2 : querypb_Type) :
  (forall t, CoerceTo t1 t2 = Ok t <-> CoerceTo t2 t1 = Ok t)
  /\ ((exists e, CoerceTo t1 t2 = Fail e) <-> (exists e, CoerceTo t2 t1 = Fail e)).
Proof.
  assert (E : CoerceTo t1 t2 = CoerceTo t2 t1) by (destruct t1, t2; reflexivity).
  rewrite E. done.
Qed.

(** X18. [castTo] between the integral types does not check the range. If a
    value casts to an integral type, it casts to every integral type, with
    the same 64 bits in [numval] and the tag [Int64] or [Uint64] of the
    target's signedness: a negative signed value cast to an unsigned type is
    its two's complement. *)
Theorem castTo_integral_reinterprets (env : Collaborators) (v : Value)
    (t1 t2 : querypb_Type) (er1 : EvalResult) :
  IsIntegral t1 = true -> IsIntegral t2 = true ->
  castTo env v t1 = Ok er1 ->
  typ er1 = (if IsSigned t1 then Int64 else Uint64)
  /\ castTo env v t2
     = Ok (evalNum (if IsSigned t2 then Int64 else Uint64) (numval er1)).
Proof.
  intros H1 H2.
  destruct t1; try discriminate H1; destruct t2; try discriminate H2;
    unfold castTo; simpl;
    (destruct (Value_IsSigned v);
     [ destruct (ParseInt (Value_RawStr v)); [| discriminate]
     | destruct (Value_IsUnsigned v); [| discriminate];
       destruct (ParseUint (Value_RawStr v)); [| discriminate] ]);
    intros [= <-]; done.
Qed.

Lemma string_compare_refl (s : string) : String.compare s s = Eq.
Proof.
  induction s as [| a s IH]; [done |]. simpl.
  unfold Ascii.compare. by rewrite N.compare_refl.
Qed.

Lemma bytes_Compare_antisym (a b : string) :
  bytes_Compare b a = - bytes_Compare a b.
Proof.
  unfold bytes_Compare. rewrite (String.compare_antisym a b).
  by destruct (String.compare b a).
Qed.

Lemma bytes_Compare_eq (a b : string) : bytes_Compare a b = 0 <-> a = b.
Proof.
  unfold bytes_Compare. split.
  - destruct (String.compare a b) eqn:E; try discriminate.
    intros _. by apply String.compare_eq_iff.
  - intros ->. by rewrite string_compare_refl.
Qed.

Lemma isByteComparable_not_Null (t : querypb_Type) :
  isByteComparable t = true -> IsNull t = false /\ t <> Expression.
Proof. destruct t; try discriminate; done. Qed.

(** X19. On two byte-comparable values (binary, temporal, enum, set, JSON,
    bit) [NullsafeCompare] is the order of their bytes, whatever the
    collation id and the two types: it never fails, swapping the operands
    negates the result, and the result is 0 exactly when the bytes are
    equal. *)
Theorem NullsafeCompare_byte_order (env : Collaborators) (v1 v2 : Value)
    (c : collations.ID) :
  isByteComparable (Value_Type v1) = true ->
  isByteComparable (Value_Type v2) = true ->
  NullsafeCompare env v1 v2 c
  = Ok (bytes_Compare (Value_val v1) (Value_val v2))
  /\ NullsafeCompare env v2 v1 c
     = Ok (- bytes_Compare (Value_val v1) (Value_val v2))
  /\ (NullsafeCompare env v1 v2 c = Ok 0 <-> Value_val v1 = Value_val v2).
Proof.
  intros B1 B2.
  assert (E : forall a b, isByteComparable (Value_Type a) = true ->
               isByteComparable (Value_Type b) = true ->
               NullsafeCompare env a b c
               = Ok (bytes_Compare (Value_val a) (Value_val b))).
  { intros a b Ba Bb.
    destruct (isByteComparable_not_Null _ Ba) as [Na Xa].
    destruct (isByteComparable_not_Null _ Bb) as [Nb Xb].
    unfold NullsafeCompare, Value_IsNull, Value_ToBytes.
    unfold Value_Type in *. rewrite Na, Nb, Ba, Bb. simpl.
    rewrite !bool_decide_eq_false_2 by done. done. }
  rewrite !E by done. rewrite (bytes_Compare_antisym (Value_val v1)).
  split; [done |]. split; [done |].
  rewrite <- bytes_Compare_eq. split; [by intros [= ->] | by intros ->].
Qed.

(** X20. [Min] and [Max] return complementary operands. With a NULL operand
    both return the other operand. Otherwise, when the comparison fails both
    return NULL and its error; when the first operand compares below the
    second, [Min] returns the first and [Max] the second; in every other
    case, equality included, [Min] returns the second and [Max] the first. *)
Theorem Min_Max_complementary (env : Collaborators) (v1 v2 : Value)
    (c : collations.ID) :
  (Value_IsNull v1 = true ->
   Min env v1 v2 c = (v2, None) /\ Max env v1 v2 c = (v2, None))
  /\ (Value_IsNull v1 = false -> Value_IsNull v2 = true ->
      Min env v1 v2 c = (v1, None) /\ Max env v1 v2 c = (v1, None))
  /\ (Value_IsNull v1 = false -> Value_IsNull v2 = false ->
      match NullsafeCompare env v1 v2 c with
      | Fail e =>
          Min env v1 v2 c = (NULL, Some e) /\ Max env v1 v2 c = (NULL, Some e)
      | Ok n =>
          if n <? 0
          then Min env v1 v2 c = (v1, None) /\ Max env v1 v2 c = (v2, None)
          else Min env v1 v2 c = (v2, None) /\ Max env v1 v2 c = (v1, None)
      end).
Proof.
  unfold Min, Max, minmax. split; [| split].
  - by intros ->.
  - by intros -> ->.
  - intros -> ->. destruct (NullsafeCompare env v1 v2 c) as [n | e]; [| done].
    by destruct (n <? 0).
Qed.

(** X21. What [NullsafeHashcode] cannot hash. Under every coercion type but
    [Null], a temporal, enum, set, JSON or bit value (byte-comparable and not
    binary) has no hash code, and a binary value has one only under a float
    or decimal coercion type: the call returns an error. *)
Theorem NullsafeHashcode_unhashable (env : Collaborators) (v : Value)
    (c : collations.ID) (t : querypb_Type) :
  t <> Null ->
  (isByteComparable (Value_Type v) = true -> IsBinary (Value_Type v) = false ->
   exists e, NullsafeHashcode env v c t = Fail e)
  /\ (IsBinary (Value_Type v) = true -> floating t = false ->
      exists e, NullsafeHashcode env v c t = Fail e).
Proof.
  intros Ht. destruct v as [tv raw]. unfold Value_Type. simpl. split.
  - intros B1 B2.
    destruct tv; try discriminate B1; try discriminate B2;
      destruct t; try (by destruct Ht); unfold NullsafeHashcode, castTo;
      simpl; eauto.
  - intros B1 B2.
    destruct tv; try discriminate B1;
      destruct t; try (by destruct Ht); try discriminate B2;
      unfold NullsafeHashcode, castTo; simpl; eauto.
Qed.

End Dispatch.

(* ------------------------------------------------------------------------- *)
(** ** The blocking execution, beyond the partial failure *)

Section RouteCoverage.
Import engine.
Variable ee : evalengine.Collaborators.
Variable sortSlice : nat -> lessSwap.
Variable SQLError_Num : error -> Z.
Variable Error_text : error -> string.
Variable paramsSystemQuery :
  Route -> VCursor -> gmap string BindVariable ->
  res (list ResolvedShard * list (gmap string BindVariable))
  * gmap string BindVariable.

Lemma filterNil_keeps (errs : list (option error)) :
  filterNil errs = Some <$> omap id errs.
Proof.
  induction errs as [| [e |] errs IH]; [done | | done].
  change (Some e :: filterNil errs = Some e :: (Some <$> omap id errs)).
  by rewrite IH.
Qed.

Lemma omap_id_Some (es : list error) : omap id (Some <$> es) = es.
Proof.
  induction es as [| x xs IH]; [done |].
  change (x :: omap id (Some <$> xs) = x :: xs). by rewrite IH.
Qed.

(** X22. [filterOutNilErrors] keeps the non-nil errors of the slice, in their
    order, and nothing else; when there is none, of a nil or of a non-nil
    slice, the result is the nil slice. Its length is the number of errors,
    and it aggregates to what the errors aggregate to. *)
Theorem filterOutNilErrors_keeps_errors (errs : slice (option error)) :
  let failed := omap id (default [] errs) in
  filterOutNilErrors errs
  = (if bool_decide (failed = []) then None else Some (Some <$> failed))
  /\ len (filterOutNilErrors errs) = length failed
  /\ Aggregate_slice (filterOutNilErrors errs) = Aggregate failed.
Proof.
  destruct errs as [l |]; [| done]. simpl.
  unfold Aggregate_slice, filterOutNilErrors. rewrite filterNil_keeps.
  destruct (omap id l) as [| e es] eqn:E; [done |].
  rewrite bool_decide_eq_false_2 by done.
  pose proof (omap_id_Some (e :: es)) as Hr. rewrite fmap_cons in Hr |- *.
  split; [done |]. split.
  - change (S (length (Some <$> es)) = S (length es)). by rewrite length_fmap.
  - change (Aggregate (omap id (Some e :: (Some <$> es))) = Aggregate (e :: es)).
    by rewrite Hr.
Qed.

Lemma recordWarnings_frame (errs : slice (option error)) (w : World) :
  let w' := recordWarnings SQLError_Num Error_text errs w in
  warnings w'
  = warnings w ++ (warningOf SQLError_Num Error_text <$> omap id (default [] errs))
  /\ partialSuccessScatterQueries w' = partialSuccessScatterQueries w
  /\ timeouts w' = timeouts w /\ cancelled w' = cancelled w.
Proof.
  unfold recordWarnings. generalize (omap id (default [] errs)) as failed.
  intros failed. revert w.
  induction failed as [| e failed IH]; simpl; intros w.
  - by rewrite app_nil_r.
  - destruct (IH (RecordWarning (warningOf SQLError_Num Error_text e) w))
      as (-> & -> & -> & ->).
    simpl. by rewrite <- (assoc_L (++)).
Qed.

(** The world after [executeInternal]: untouched, or, on a route with
    [ScatterErrorsAsWarnings], the counter moved by one and warnings
    recorded. *)
Lemma executeInternal_world (route : Route) (vcursor : VCursor)
    (bindVars : gmap string BindVariable) (wantfields : bool) (w : World) :
  let w' :=
    (executeInternal ee sortSlice SQLError_Num Error_text paramsSystemQuery
       route vcursor bindVars wantfields w).2 in
  w' = w
  \/ ScatterErrorsAsWarnings route = true
     /\ exists errs,
          w' = recordWarnings SQLError_Num Error_text errs
                 (partialSuccessScatterQueries_Add 1 w).
Proof.
  unfold executeInternal.
  destruct (routeParams paramsSystemQuery route vcursor bindVars)
    as [[[rss bvs] | e] bindVars']; [| by left].
  destruct (bool_decide (length rss = 0%nat));
    [destruct wantfields; by left |].
  destruct (ExecuteMultiShard vcursor rss (getQueries (Query route) bvs)
              false false) as [result errs].
  destruct errs as [l |].
  - destruct (ScatterErrorsAsWarnings route) eqn:Hs; cbn [negb orb];
      [| by left].
    destruct (bool_decide (len (filterOutNilErrors (Some l)) = length rss));
      [by left |].
    right. split; [done |]. exists (filterOutNilErrors (Some l)).
    destruct (bool_decide (length (OrderBy route) = 0%nat)); [done |].
    by destruct result.
  - left. destruct (bool_decide (length (OrderBy route) = 0%nat)); [done |].
    by destruct result.
Qed.

Lemma executeInternal_deadlines (route : Route) (vcursor : VCursor)
    (bindVars : gmap string BindVariable) (wantfields : bool) (w : World) :
  let w' :=
    (executeInternal ee sortSlice SQLError_Num Error_text paramsSystemQuery
       route vcursor bindVars wantfields w).2 in
  timeouts w' = timeouts w /\ cancelled w' = cancelled w.
Proof.
  intros w'.
  destruct (executeInternal_world route vcursor bindVars wantfields w)
    as [H | (_ & errs & H)]; fold w' in H; rewrite H; [done |].
  destruct (recordWarnings_frame errs (partialSuccessScatterQueries_Add 1 w))
    as (_ & _ & Ht & Hx).
  done.
Qed.

(** X23. What [executeInternal] does to the session and to the counter,
    whatever the route, the cursor and the outcome (a panic included): it
    installs and releases no deadline, it only appends to the warnings of the
    session, and either it leaves everything as it was, or the route has
    [ScatterErrorsAsWarnings] and the partial-success counter moved by
    exactly one. *)
Theorem executeInternal_world_frame (route : Route) (vcursor : VCursor)
    (bindVars : gmap string BindVariable) (wantfields : bool) (w : World) :
  let w' :=
    (executeInternal ee sortSlice SQLError_Num Error_text paramsSystemQuery
       route vcursor bindVars wantfields w).2 in
  timeouts w' = timeouts w
  /\ cancelled w' = cancelled w
  /\ (exists ws, warnings w' = warnings w ++ ws)
  /\ (w' = w
      \/ ScatterErrorsAsWarnings route = true
         /\ partialSuccessScatterQueries w'
            = partialSuccessScatterQueries w + 1).
Proof.
  intros w'.
  destruct (executeInternal_world route vcursor bindVars wantfields w)
    as [H | (Hs & errs & H)]; fold w' in H; rewrite H.
  - repeat split; [by exists []; rewrite app_nil_r | by left].
  - destruct (recordWarnings_frame errs (partialSuccessScatterQueries_Add 1 w))
      as (Hw & Hc & Ht & Hx).
    simpl in Hw, Hc, Ht, Hx.
    split; [exact Ht |]. split; [exact Hx |]. split; [eauto |].
    right. split; [done | exact Hc].
Qed.

(** X24. The cursor may answer a dispatch with a non-nil slice of errors all
    of whose entries are nil: every shard answered. Without
    [ScatterErrorsAsWarnings] the call then returns neither a result nor an
    error, and the result of the cursor is dropped. With it, the
    partial-success counter moves by one although no shard failed, no warning
    is recorded, and a route without [OrderBy] returns the result of the
    cursor. *)
Theorem executeInternal_all_shards_answer_nil_errors (route : Route)
    (vcursor : VCursor) (bindVars bindVars' : gmap string BindVariable)
    (wantfields : bool) (w : World) (rss : list ResolvedShard)
    (bvs : list (gmap string BindVariable)) (result : option Result)
    (errs : list (option error)) :
  routeParams paramsSystemQuery route vcursor bindVars
  = (Ok (rss, bvs), bindVars') ->
  rss <> [] ->
  ExecuteMultiShard vcursor rss (getQueries (Query route) bvs) false false
  = (result, Some errs) ->
  Forall (fun e => e = None) errs ->
  let call :=
    executeInternal ee sortSlice SQLError_Num Error_text paramsSystemQuery
      route vcursor bindVars wantfields w in
  (ScatterErrorsAsWarnings route = false ->
   call = (Returns (None, None), w))
  /\ (ScatterErrorsAsWarnings route = true ->
      warnings call.2 = warnings w
      /\ partialSuccessScatterQueries call.2
         = partialSuccessScatterQueries w + 1
      /\ (OrderBy route = [] -> call.1 = Returns (result, None))).
Proof.
  intros Hparams Hrss Hexec Hnil call.
  assert (Hfailed : omap id errs = []).
  { clear -Hnil. induction Hnil as [| x l -> _ IH]; [done | exact IH]. }
  assert (Hf : filterOutNilErrors (Some errs) = None).
  { unfold filterOutNilErrors. by rewrite filterNil_keeps, Hfailed. }
  assert (Hlen : length rss <> 0%nat) by (by destruct rss).
  unfold call, executeInternal. rewrite Hparams.
  rewrite bool_decide_eq_false_2 by done.
  rewrite Hexec, Hf. split.
  - by intros ->.
  - intros ->. simpl. rewrite bool_decide_eq_false_2 by (simpl; lia).
    split; [| split].
    + case_bool_decide; [done |]. by destruct result.
    + case_bool_decide; [done |]. by destruct result.
    + intros ->. done.
Qed.

(** X25. [TryExecute] never returns a result together with an error: the
    error of [executeInternal] is returned as it is, with no result, and a
    panic stays a panic. A deadline is installed exactly when [QueryTimeout]
    is not zero, before [executeInternal] runs, and is released exactly once
    on every way out, a panic included. *)
Theorem TryExecute_result_or_error (route : Route) (vcursor : VCursor)
    (bindVars : gmap string BindVariable) (wantfields : bool) (w : World) :
  let inner :=
    executeInternal ee sortSlice SQLError_Num Error_text paramsSystemQuery
      route vcursor bindVars wantfields
      (if QueryTimeout route =? 0 then w
       else SetContextTimeout (QueryTimeout route) w) in
  let call :=
    TryExecute ee sortSlice SQLError_Num Error_text paramsSystemQuery
      route vcursor bindVars wantfields w in
  (forall r e, call.1 = Returns (r, Some e) -> r = None)
  /\ (forall r e, inner.1 = Returns (r, Some e) ->
        call.1 = Returns (None, Some e))
  /\ (inner.1 = Panics -> call.1 = Panics)
  /\ timeouts call.2
     = timeouts w
       ++ (if QueryTimeout route =? 0 then [] else [QueryTimeout route])
  /\ cancelled call.2
     = cancelled w + (if QueryTimeout route =? 0 then 0 else 1).
Proof.
  intros inner call. unfold call, TryExecute.
  pose proof (executeInternal_deadlines route vcursor bindVars wantfields
                (if QueryTimeout route =? 0 then w
                 else SetContextTimeout (QueryTimeout route) w))
    as (Ht & Hc).
  fold inner in Ht, Hc.
  replace (if negb (QueryTimeout route =? 0)
           then SetContextTimeout (QueryTimeout route) w else w)
    with (if QueryTimeout route =? 0 then w
          else SetContextTimeout (QueryTimeout route) w)
    by (by destruct (QueryTimeout route =? 0)).
  fold inner. destruct inner as [out w1]. simpl in Ht, Hc |- *.
  assert (Hw : forall o : outcome (option Result * option error),
    let w2 := if negb (QueryTimeout route =? 0) then cancel w1 else w1 in
    timeouts (o, w2).2
    = timeouts w ++ (if QueryTimeout route =? 0 then [] else [QueryTimeout route])
    /\ cancelled (o, w2).2
       = cancelled w + (if QueryTimeout route =? 0 then 0 else 1)).
  { intros o. simpl. rewrite <- (app_nil_r (timeouts w)) at 1.
    destruct (QueryTimeout route =? 0); simpl; rewrite Ht, Hc; simpl.
    - by rewrite !app_nil_r, Z.add_0_r.
    - by rewrite app_nil_r. }
  destruct out as [[qr [e |]] |]; simpl.
  - split; [by intros r e' [= <- _] |]. split; [by intros r e' [= _ <-] |].
    split; [done |]. apply (Hw Panics).
  - destruct (Truncate qr (TruncateColumnCount route)) as [r' |]; simpl;
      (split; [intros r e' H; discriminate H |]);
      (split; [intros r e' H; discriminate H |]);
      (split; [done |]); apply (Hw Panics).
  - split; [intros r e' H; discriminate H |].
    split; [intros r e' H; discriminate H |]. split; [done |].
    apply (Hw Panics).
Qed.

(** X26. For every opcode but [SelectIN] and [SelectDBA], when the switch of
    [executeInternal] yields shards, every shard is sent the same thing: the
    bind variables of the call are left as they were, there is one map of
    bind variables per shard and each is the map of the call, and
    [getQueries] pairs each with the query of the route. *)
Theorem routeParams_same_binds_for_every_shard (route : Route)
    (vcursor : VCursor) (bindVars bindVars' : gmap string BindVariable)
    (rss : list ResolvedShard) (bvs : list (gmap string BindVariable)) :
  Opcode route <> SelectDBA -> Opcode route <> SelectIN ->
  routeParams paramsSystemQuery route vcursor bindVars
  = (Ok (rss, bvs), bindVars') ->
  bindVars' = bindVars
  /\ bvs = replicate (length rss) bindVars
  /\ getQueries (Query route) bvs
     = replicate (length rss)
         {| Sql := Query route; BindVariables := bindVars |}.
Proof.
  intros Hdba Hin Hp.
  assert (H : bindVars' = bindVars /\ bvs = replicate (length rss) bindVars).
  { unfold routeParams in Hp.
    destruct (Opcode route); try done;
      pose proof (f_equal snd Hp) as Hb; apply (f_equal fst) in Hp;
      cbn [fst snd] in Hp, Hb; destruct Hb;
      unfold paramsAnyShard, paramsAllShards, paramsSelectEqual,
        paramsSelectMultiEqual in Hp;
      repeat match type of Hp with
             | bind ?c _ = _ => destruct c as [? | ?]; simpl in Hp
             | (let* x := ?c in _) = _ => destruct c as [? | ?]; simpl in Hp
             | (let '(_, _) := ?p in _) = _ => destruct p; simpl in Hp
             end;
      try discriminate Hp;
      by injection Hp as <- <-. }
  destruct H as [-> ->]. split; [done |]. split; [done |].
  unfold getQueries. by rewrite fmap_replicate.
Qed.

End RouteCoverage.

(* ------------------------------------------------------------------------- *)
(** ** The helpers of the Route and the merge test of the planner *)

Section ShardHelpers.
Import engine.

(** X27. [resolveSingleShard] and [resolveKeyspaceID] agree on one key. When
    the second panics (the vindex maps the key to no destination), returns an
    error, or returns the nil keyspace id of [DestinationNone] with no error,
    so does the first, with a nil shard. When the second returns a keyspace
    id, the first returns a shard with that same keyspace id, or an error
    with neither. *)
Theorem resolveSingleShard_agrees_with_resolveKeyspaceID (vcursor : VCursor)
    (vindex : SingleColumn) (keyspace : Keyspace) (vindexKey : Value) :
  match resolveKeyspaceID vindex vindexKey with
  | Panics => resolveSingleShard vcursor vindex keyspace vindexKey = Panics
  | Returns (_, Some e) =>
      resolveSingleShard vcursor vindex keyspace vindexKey
      = Returns (None, None, Some e)
  | Returns (None, None) =>
      resolveSingleShard vcursor vindex keyspace vindexKey
      = Returns (None, None, None)
  | Returns (Some ksid, None) =>
      (exists rs,
         resolveSingleShard vcursor vindex keyspace vindexKey
         = Returns (Some rs, Some ksid, None))
      \/ (exists e,
            resolveSingleShard vcursor vindex keyspace vindexKey
            = Returns (None, None, Some e))
  end.
Proof.
  unfold resolveKeyspaceID, resolveSingleShard.
  destruct (Map vindex [vindexKey]) as [[| [ksid | | |] ds] | e]; try done.
  destruct (ResolveDestinations vcursor (Keyspace_Name keyspace) None
              (DestinationKeyspaceID ksid :: ds)) as [[rss vals] | e];
    [| right; eauto].
  destruct rss as [| rs [| rs' rss]]; [right | left | right]; eauto.
Qed.

(** X28. After [setReplaceSchemaName] the bind variables hold no
    [__vtschemaname], hold the [Int64] 1 under [__replacevtschemaname], and
    are as before under every other name; a second call changes nothing. *)
Theorem setReplaceSchemaName_binds (bindVars : gmap string BindVariable) :
  let bv := setReplaceSchemaName bindVars in
  bv !! BvSchemaName = None
  /\ bv !! BvReplaceSchemaName = Some (Int64BindVariable 1)
  /\ (forall k, k <> BvSchemaName -> k <> BvReplaceSchemaName ->
                bv !! k = bindVars !! k)
  /\ setReplaceSchemaName bv = bv.
Proof.
  unfold setReplaceSchemaName. simpl. split; [| split; [| split]].
  - rewrite lookup_insert_ne by done. apply lookup_delete_eq.
  - apply lookup_insert_eq.
  - intros k H1 H2. rewrite lookup_insert_ne by done.
    by rewrite lookup_delete_ne.
  - rewrite delete_insert_ne by done. rewrite delete_delete_eq.
    by rewrite insert_insert_eq.
Qed.

End ShardHelpers.

Section PlanProperties.
Import engine planbuilder.

(** X29. When [unionCanMerge] accepts two routes, they target the same
    keyspace by name and have the same opcode; the opcode is one of the
    single-shard ones other than [SelectNext], or it is [SelectScatter] and
    the union is not distinct. Two [SelectDBA] routes are merged only when
    neither has a predicate on the system tables, and two
    [SelectEqualUnique] routes only on the same vindex with equal
    conditions. *)
Theorem unionCanMerge_sound (evalengine_Expr sqlparser_Expr : Type)
    (valEqual : sqlparser_Expr -> sqlparser_Expr -> bool)
    (sameVindex : SingleColumn -> SingleColumn -> bool)
    (rb other : routeGen4 evalengine_Expr sqlparser_Expr) (distinct : bool) :
  unionCanMerge valEqual sameVindex rb other distinct = true ->
  Keyspace_Name (Route_Keyspace (eroute rb))
  = Keyspace_Name (Route_Keyspace (eroute other))
  /\ Opcode (eroute rb) = Opcode (eroute other)
  /\ (isSingleShard rb = true /\ Opcode (eroute rb) <> SelectNext
      \/ Opcode (eroute rb) = SelectScatter /\ distinct = false)
  /\ (Opcode (eroute rb) = SelectDBA ->
      SysTableTableSchema rb = [] /\ SysTableTableName rb = []
      /\ SysTableTableSchema other = [] /\ SysTableTableName other = [])
  /\ (Opcode (eroute rb) = SelectEqualUnique ->
      sameVindex (Vindex (eroute rb)) (Vindex (eroute other)) = true
      /\ valEqual (condition rb) (condition other) = true).
Proof.
  unfold unionCanMerge, isSingleShard.
  destruct (String.eqb_spec (Keyspace_Name (Route_Keyspace (eroute rb)))
              (Keyspace_Name (Route_Keyspace (eroute other)))) as [Hk | Hk];
    simpl; [| discriminate].
  intros H. split; [exact Hk |].
  destruct (Opcode (eroute rb)) eqn:Hop; try discriminate H.
  - apply bool_decide_eq_true in H. split; [done |].
    split; [left; done |]. split; intros; discriminate.
  - destruct (bool_decide (Opcode (eroute other) = SelectEqualUnique)) eqn:Ho;
      [| discriminate H].
    apply bool_decide_eq_true in Ho.
    destruct (sameVindex _ _) eqn:Hv; [| discriminate H].
    destruct (valEqual _ _) eqn:Hc; [| discriminate H].
    split; [done |]. split; [left; done |]. split; [intros; discriminate |].
    done.
  - apply andb_true_iff in H as [Ho Hd]. apply bool_decide_eq_true in Ho.
    apply negb_true_iff in Hd.
    split; [done |]. split; [right; done |]. split; intros; discriminate.
  - repeat (apply andb_true_iff in H as [H ?]).
    repeat match goal with
           | H : bool_decide _ = true |- _ => apply bool_decide_eq_true in H
           end.
    split; [done |]. split; [left; done |].
    split; [| intros; discriminate].
    intros _. repeat split; by apply nil_length_inv.
  - apply bool_decide_eq_true in H. split; [done |].
    split; [left; done |]. split; intros; discriminate.
Qed.

(** X30. [unionCanMerge] does not depend on which of the two routes is the
    receiver, as long as the comparison of the conditions and the equality
    of the vindexes do not depend on the order of their arguments. *)
Theorem unionCanMerge_symmetric (evalengine_Expr sqlparser_Expr : Type)
    (valEqual : sqlparser_Expr -> sqlparser_Expr -> bool)
    (sameVindex : SingleColumn -> SingleColumn -> bool)
    (rb other : routeGen4 evalengine_Expr sqlparser_Expr) (distinct : bool) :
  (forall a b, valEqual a b = valEqual b a) ->
  (forall a b, sameVindex a b = sameVindex b a) ->
  unionCanMerge valEqual sameVindex rb other distinct
  = unionCanMerge valEqual sameVindex other rb distinct.
Proof.
  intros Hv Hs. unfold unionCanMerge.
  rewrite (String.eqb_sym (Keyspace_Name (Route_Keyspace (eroute other)))).
  destruct (String.eqb _ _); simpl; [| done].
  rewrite (Hs (Vindex (eroute other))), (Hv (condition other)).
  destruct (Opcode (eroute rb)) eqn:E1, (Opcode (eroute other)) eqn:E2;
    simpl; try reflexivity;
    repeat case_bool_decide; simpl; try reflexivity; try congruence;
    try by destruct (sameVindex _ _), (valEqual _ _).
Qed.

End PlanProperties.

(* ------------------------------------------------------------------------- *)
(** ** The further properties, run on concrete operands *)

Section ArithmeticRuns.
Import evalengine.

Ltac in_range := unfold is_int64, is_uint64, MinInt64, MaxInt64; lia.

(** [1 + 2] is returned; [MaxInt64 + 1] is refused. *)
Lemma intPlusIntWithError_exact_witness :
  intPlusIntWithError (uint64 1) (uint64 2) = Ok (evalNum Int64 (uint64 (1 + 2)))
  /\ is_DataOutOfRange (intPlusIntWithError (uint64 MaxInt64) (uint64 1)).
Proof.
  split.
  - apply (proj1 (intPlusIntWithError_exact 1 2 ltac:(in_range) ltac:(in_range))).
    in_range.
  - apply (proj2 (intPlusIntWithError_exact MaxInt64 1 ltac:(in_range) ltac:(in_range))).
    in_range.
Defined.

(** [3 + 4] stays an [Int64]; [MaxInt64 + 1] becomes a float. *)
Lemma intPlusInt_cases_witness :
  intPlusInt (uint64 3) (uint64 4) = evalNum Int64 (uint64 (3 + 4))
  /\ intPlusInt (uint64 MaxInt64) (uint64 1)
     = evalNum Float64
         (Float64bits (fadd (float64_of_Z MaxInt64) (float64_of_Z 1))).
Proof.
  split.
  - apply (proj1 (intPlusInt_cases 3 4 ltac:(in_range) ltac:(in_range))).
    in_range.
  - apply (proj2 (intPlusInt_cases MaxInt64 1 ltac:(in_range) ltac:(in_range)));
      in_range.
Defined.

(** [5 - (-7)] is returned; [MinInt64 - 1] is refused. *)
Lemma intMinusIntWithError_exact_witness :
  intMinusIntWithError (uint64 5) (uint64 (-7))
  = Ok (evalNum Int64 (uint64 (5 - -7)))
  /\ is_DataOutOfRange (intMinusIntWithError (uint64 MinInt64) (uint64 1)).
Proof.
  split.
  - apply (proj1 (intMinusIntWithError_exact 5 (-7) ltac:(in_range) ltac:(in_range))).
    in_range.
  - apply (proj2 (intMinusIntWithError_exact MinInt64 1 ltac:(in_range) ltac:(in_range))).
    in_range.
Defined.

(** [3 * (-4)] is returned, [2 ^ 62 * 2] is refused, and [-1 * MinInt64] is
    let through while [MinInt64 * -1] is refused. *)
Lemma intTimesIntWithError_exact_but_one_witness :
  intTimesIntWithError (uint64 3) (uint64 (-4))
  = Ok (evalNum Int64 (uint64 (3 * -4)))
  /\ is_DataOutOfRange (intTimesIntWithError (uint64 (2 ^ 62)) (uint64 2))
  /\ intTimesIntWithError (uint64 (-1)) (uint64 MinInt64)
     = Ok (evalNum Int64 (uint64 MinInt64))
  /\ is_DataOutOfRange (intTimesIntWithError (uint64 MinInt64) (uint64 (-1))).
Proof.
  split; [| split].
  - apply (proj1 (intTimesIntWithError_exact_but_one 3 (-4)
                    ltac:(in_range) ltac:(in_range))).
    in_range.
  - apply (proj1 (proj2 (intTimesIntWithError_exact_but_one (2 ^ 62) 2
                           ltac:(in_range) ltac:(in_range))));
      in_range.
  - apply (proj2 (proj2 (intTimesIntWithError_exact_but_one (-1) MinInt64
                           ltac:(in_range) ltac:(in_range))));
      reflexivity.
Defined.

(** [1 + 2] is returned; [(2 ^ 64 - 1) + 1] is refused. *)
Lemma uintPlusUintWithError_exact_witness :
  uintPlusUintWithError 1 2 = Ok (evalNum Uint64 (1 + 2))
  /\ is_DataOutOfRange (uintPlusUintWithError MaxUint64 1).
Proof.
  split.
  - apply (proj1 (uintPlusUintWithError_exact 1 2 ltac:(in_range) ltac:(in_range))).
    in_range.
  - apply (proj2 (uintPlusUintWithError_exact MaxUint64 1 ltac:(unfold MaxUint64; in_range)
                    ltac:(in_range))).
    unfold MaxUint64. in_range.
Defined.

(** [1 + 2] stays a [Uint64]; [(2 ^ 64 - 1) + 1] becomes a float. *)
Lemma uintPlusUint_promotes_overflow_witness :
  uintPlusUint 1 2 = evalNum Uint64 (1 + 2)
  /\ uintPlusUint MaxUint64 1
     = evalNum Float64
         (Float64bits (fadd (float64_of_Z MaxUint64) (float64_of_Z 1))).
Proof.
  split.
  - apply (proj1 (uintPlusUint_promotes_overflow 1 2 ltac:(in_range) ltac:(in_range))).
    in_range.
  - apply (proj2 (uintPlusUint_promotes_overflow MaxUint64 1 ltac:(unfold MaxUint64; in_range)
                    ltac:(in_range))).
    unfold MaxUint64. in_range.
Defined.

(** [7 - 3] is returned; [3 - 7] is refused. *)
Lemma uintMinusUintWithError_exact_witness :
  uintMinusUintWithError 7 3 = Ok (evalNum Uint64 (7 - 3))
  /\ is_DataOutOfRange (uintMinusUintWithError 3 7).
Proof.
  split.
  - apply (proj1 (uintMinusUintWithError_exact 7 3 ltac:(in_range) ltac:(in_range))).
    in_range.
  - apply (proj2 (uintMinusUintWithError_exact 3 7 ltac:(in_range) ltac:(in_range))).
    in_range.
Defined.

(** [5 + (-1)] is returned; [0 + (-1)] is refused. *)
Lemma uintPlusIntWithError_exact_witness :
  uintPlusIntWithError 5 (uint64 (-1)) = Ok (evalNum Uint64 (5 + -1))
  /\ is_DataOutOfRange (uintPlusIntWithError 0 (uint64 (-1))).
Proof.
  split.
  - apply (proj1 (uintPlusIntWithError_exact 5 (-1) ltac:(in_range) ltac:(in_range))).
    in_range.
  - apply (proj2 (uintPlusIntWithError_exact 0 (-1) ltac:(in_range) ltac:(in_range))).
    in_range.
Defined.

(** [5 + (-1)]: the checked variant returns 4, the promoting one the float
    [5 + (2 ^ 64 - 1)]. *)
Lemma uintPlusInt_negative_witness :
  uintPlusIntWithError 5 (uint64 (-1)) = Ok (evalNum Uint64 (5 + -1))
  /\ uintPlusInt 5 (uint64 (-1))
     = evalNum Float64
         (Float64bits (fadd (float64_of_Z 5) (float64_of_Z (-1 + 2 ^ 64)))).
Proof.
  apply (proj1 (uintPlusInt_negative 5 (-1) ltac:(in_range) ltac:(lia))).
  lia.
Defined.

(** [10 - 3] is returned; [2 ^ 63 - 1], which fits, is refused. *)
Lemma uintMinusIntWithError_cases_witness :
  uintMinusIntWithError 10 (uint64 3) = Ok (evalNum Uint64 (10 - 3))
  /\ is_DataOutOfRange (uintMinusIntWithError (2 ^ 63) (uint64 1)).
Proof.
  split.
  - apply (proj1 (proj1 (uintMinusIntWithError_cases 10 3
                           ltac:(in_range) ltac:(in_range))
                    ltac:(lia))).
    lia.
  - apply (proj2 (proj1 (uintMinusIntWithError_cases (2 ^ 63) 1
                           ltac:(in_range) ltac:(in_range))
                    ltac:(lia))).
    right. lia.
Defined.

(** [7 - 3] is returned; [(-1) - 0] is refused. *)
Lemma intMinusUintWithError_exact_witness :
  intMinusUintWithError (uint64 7) 3 = Ok (evalNum Uint64 (7 - 3))
  /\ is_DataOutOfRange (intMinusUintWithError (uint64 (-1)) 0).
Proof.
  split.
  - apply (proj1 (intMinusUintWithError_exact 7 3 ltac:(in_range) ltac:(in_range))).
    in_range.
  - apply (proj2 (intMinusUintWithError_exact (-1) 0 ltac:(in_range) ltac:(in_range))).
    in_range.
Defined.

(** [5 * (-1)] and [2 ^ 63 * 1] are refused. *)
Lemma uintTimesIntWithError_rejects_witness :
  is_DataOutOfRange (uintTimesIntWithError 5 (uint64 (-1)))
  /\ is_DataOutOfRange (uintTimesIntWithError (2 ^ 63) (uint64 1)).
Proof.
  split.
  - apply (uintTimesIntWithError_rejects 5 (-1)); [in_range .. | left; lia].
  - apply (uintTimesIntWithError_rejects (2 ^ 63) 1); [in_range .. | right; lia].
Defined.

(** [3 * 4] is returned; [0 * 5] is refused. *)
Lemma uintTimesUintWithError_fitting_witness :
  uintTimesUintWithError 3 4 = Ok (evalNum Uint64 (3 * 4))
  /\ is_DataOutOfRange (uintTimesUintWithError 0 5).
Proof.
  split.
  - apply (proj1 (uintTimesUintWithError_fitting 3 4
                    ltac:(in_range) ltac:(in_range) ltac:(lia))).
    right. lia.
  - apply (proj2 (uintTimesUintWithError_fitting 0 5
                    ltac:(in_range) ltac:(in_range) ltac:(lia))).
    left. lia.
Defined.


(** [Int64 5 + Uint64 7] in both orders. *)
Lemma addNumericWithError_comm_witness :
  (forall r,
     addNumericWithError scenarios.ee (evalNum Int64 5) (evalNum Uint64 7)
     = Ok r
     <-> addNumericWithError scenarios.ee (evalNum Uint64 7) (evalNum Int64 5)
         = Ok r)
  /\ (is_DataOutOfRange
        (addNumericWithError scenarios.ee (evalNum Int64 5) (evalNum Uint64 7))
      <-> is_DataOutOfRange
            (addNumericWithError scenarios.ee (evalNum Uint64 7)
               (evalNum Int64 5))).
Proof.
  apply (addNumericWithError_comm scenarios.ee
           (evalNum Int64 5) (evalNum Uint64 7)).
  - left. reflexivity.
  - right. left. reflexivity.
  - left. discriminate.
Defined.

(** [Int64 5] and the text "abc". *)
Lemma arithmetic_fails_only_out_of_range_witness :
  let a := evalNum Int64 5 in
  let b := evalBytes VarChar "abc" in
  is_Some (addNumeric scenarios.ee a b)
  /\ failsOnlyOutOfRange (addNumericWithError scenarios.ee a b)
  /\ failsOnlyOutOfRange (subtractNumericWithError scenarios.ee a b)
  /\ failsOnlyOutOfRange (multiplyNumericWithError scenarios.ee a b)
  /\ failsOnlyOutOfRange (divideNumericWithError scenarios.ee a b).
Proof.
  apply (arithmetic_fails_only_out_of_range scenarios.ee).
  - left. left. reflexivity.
  - right. reflexivity.
Defined.

(** The signed [-1] cast to [Uint64] is [2 ^ 64 - 1]. *)
Lemma castTo_integral_reinterprets_witness :
  castTo scenarios.ee (mkValue Int64 "-1") Uint64
  = Ok (evalNum Uint64 (2 ^ 64 - 1)).
Proof.
  apply (proj2 (castTo_integral_reinterprets scenarios.ee
                  (mkValue Int64 "-1") Int64 Uint64
                  (evalNum Int64 (2 ^ 64 - 1)) eq_refl eq_refl eq_refl)).
Defined.

(** Two dates. *)
Lemma NullsafeCompare_byte_order_witness :
  let d1 := mkValue Date "2020-01-01" in
  let d2 := mkValue Date "2021-06-30" in
  NullsafeCompare scenarios.ee d1 d2 collations.Unknown
  = Ok (bytes_Compare "2020-01-01" "2021-06-30")
  /\ NullsafeCompare scenarios.ee d2 d1 collations.Unknown
     = Ok (- bytes_Compare "2020-01-01" "2021-06-30")
  /\ (NullsafeCompare scenarios.ee d1 d2 collations.Unknown = Ok 0
      <-> "2020-01-01" = "2021-06-30").
Proof.
  apply (NullsafeCompare_byte_order scenarios.ee
           (mkValue Date "2020-01-01") (mkValue Date "2021-06-30"));
    reflexivity.
Defined.

(** A date has no hash code as an [Int64], a binary value none as a
    [VarBinary]. *)
Lemma NullsafeHashcode_unhashable_witness :
  (exists e,
     NullsafeHashcode scenarios.ee (mkValue Date "2020-01-01")
       collations.Unknown Int64 = Fail e)
  /\ (exists e,
        NullsafeHashcode scenarios.ee (mkValue VarBinary "ab")
          collations.Unknown VarBinary = Fail e).
Proof.
  split.
  - apply (proj1 (NullsafeHashcode_unhashable scenarios.ee
                    (mkValue Date "2020-01-01") collations.Unknown Int64
                    ltac:(discriminate)));
      reflexivity.
  - apply (proj2 (NullsafeHashcode_unhashable scenarios.ee
                    (mkValue VarBinary "ab") collations.Unknown VarBinary
                    ltac:(discriminate)));
      reflexivity.
Defined.

End ArithmeticRuns.

Section RouteRuns.
Import engine scenarios.

(** Three shards, all answering, and a slice of three nil errors: without
    [ScatterErrorsAsWarnings] the rows are lost and nothing is reported; with
    it the rows are returned and the counter moves. *)
Lemma executeInternal_all_shards_answer_nil_errors_witness :
  let rows2 := [int64s ["1"]; int64s ["2"]] in
  let call (scatterErrorsAsWarnings : bool) :=
    executeInternal ee sortSlice_short sqlErrorNum errorText noSystemQuery
      (route SelectScatter spelled [] scatterErrorsAsWarnings)
      (cursor rows2 allAnswer) ∅ false emptyWorld in
  call false = (Returns (None, None), emptyWorld)
  /\ warnings (call true).2 = []
  /\ partialSuccessScatterQueries (call true).2 = 1
  /\ (call true).1 = Returns (Some (result rows2), None).
Proof.
  intros rows2 call.
  destruct (executeInternal_all_shards_answer_nil_errors ee sortSlice_short
              sqlErrorNum errorText noSystemQuery
              (route SelectScatter spelled [] false) (cursor rows2 allAnswer)
              ∅ ∅ false emptyWorld [s1; s2; s3] [∅; ∅; ∅]
              (Some (result rows2)) [None; None; None]
              eq_refl ltac:(discriminate) eq_refl
              ltac:(repeat constructor))
    as [H1 _].
  destruct (executeInternal_all_shards_answer_nil_errors ee sortSlice_short
              sqlErrorNum errorText noSystemQuery
              (route SelectScatter spelled [] true) (cursor rows2 allAnswer)
              ∅ ∅ false emptyWorld [s1; s2; s3] [∅; ∅; ∅]
              (Some (result rows2)) [None; None; None]
              eq_refl ltac:(discriminate) eq_refl
              ltac:(repeat constructor))
    as [_ H2].
  destruct (H2 eq_refl) as (Hw & Hc & Hr).
  exact (conj (H1 eq_refl) (conj Hw (conj Hc (Hr eq_refl)))).
Defined.

(** A scatter over three shards: each is sent the bind variables of the
    call. *)
Lemma routeParams_same_binds_for_every_shard_witness :
  let r := route SelectScatter spelled [] false in
  let binds : gmap string BindVariable := {["id" := Int64BindVariable 7]} in
  getQueries (Query r) [binds; binds; binds]
  = replicate 3 {| Sql := Query r; BindVariables := binds |}.
Proof.
  intros r binds.
  destruct (routeParams_same_binds_for_every_shard noSystemQuery r
              (cursor [] None) binds binds [s1; s2; s3] [binds; binds; binds])
    as (_ & _ & H); [discriminate | discriminate | reflexivity | exact H].
Defined.

(** Two scatter routes on the keyspace [ks], merged by a [UNION ALL]. *)
Lemma unionCanMerge_sound_witness :
  let rb := gen4 (route SelectScatter spelled [] false) "a = 1" in
  let other := gen4 (route SelectScatter spelled [] false) "b = 2" in
  Keyspace_Name (Route_Keyspace (planbuilder.eroute rb))
  = Keyspace_Name (Route_Keyspace (planbuilder.eroute other))
  /\ Opcode (planbuilder.eroute rb) = Opcode (planbuilder.eroute other)
  /\ (planbuilder.isSingleShard rb = true
      /\ Opcode (planbuilder.eroute rb) <> SelectNext
      \/ Opcode (planbuilder.eroute rb) = SelectScatter /\ false = false)
  /\ (Opcode (planbuilder.eroute rb) = SelectDBA ->
      planbuilder.SysTableTableSchema rb = []
      /\ planbuilder.SysTableTableName rb = []
      /\ planbuilder.SysTableTableSchema other = []
      /\ planbuilder.SysTableTableName other = [])
  /\ (Opcode (planbuilder.eroute rb) = SelectEqualUnique ->
      sameVindex (Vindex (planbuilder.eroute rb))
        (Vindex (planbuilder.eroute other)) = true
      /\ String.eqb (planbuilder.condition rb) (planbuilder.condition other)
         = true).
Proof.
  intros rb other.
  apply (unionCanMerge_sound unit string String.eqb sameVindex rb other false).
  reflexivity.
Defined.

(** The same two routes, under a [UNION] that is distinct: refused in either
    order. *)
Lemma unionCanMerge_symmetric_witness :
  let rb := gen4 (route SelectScatter spelled [] false) "a = 1" in
  let other := gen4 (route SelectEqualUnique spelled [] false) "b = 2" in
  planbuilder.unionCanMerge String.eqb sameVindex rb other true
  = planbuilder.unionCanMerge String.eqb sameVindex other rb true.
Proof.
  intros rb other.
  apply (unionCanMerge_symmetric unit string String.eqb sameVindex rb other
           true).
  - exact String.eqb_sym.
  - reflexivity.
Defined.

End RouteRuns.
